(** * Storage backends of [utils.py]: a shallow embedding

    The module [utils.py] defines an abstract [storage_class] and three
    implementations, [storage_hdf5], [storage_memmap] and [storage_raw],
    that persist pairs (image, mask) chunk by chunk and serve them by
    index once [lock] was called.

    The embedding follows the Python text method by method:
    - an instance is its attribute dictionary, a [gmap string pyval];
      a private name [__x] used inside class [K] is the key [_K__x]
      (Python's name mangling);
    - the file system is a map from path strings to nodes;
    - a method is a computation over the pair (instance, file system)
      that returns a value or raises an exception, and keeps the effects
      it performed before raising. *)

From Stdlib Require Import ZArith Lia Ascii String.
From Stdlib.Strings Require Import Byte.
From stdpp Require Import base option list strings pretty gmap.

Local Open Scope string_scope.

(** ** Strings and paths *)

Module Str.

Definition mem (c : ascii) (chars : string) : bool :=
  existsb (Ascii.eqb c) (list_ascii_of_string chars).

(** [s.rstrip(chars)]: drops from the right end of [s] every
    character that occurs in [chars], up to the first one that does
    not. *)
Fixpoint rstrip (chars s : string) : string :=
  match s with
  | EmptyString => EmptyString
  | String c s' =>
      match rstrip chars s' with
      | EmptyString => if mem c chars then EmptyString else String c EmptyString
      | r => String c r
      end
  end.

Definition startswith_sep (s : string) : bool :=
  match s with
  | String c _ => Ascii.eqb c "/"
  | EmptyString => false
  end.

Fixpoint endswith_sep (s : string) : bool :=
  match s with
  | EmptyString => false
  | String c EmptyString => Ascii.eqb c "/"
  | String _ s' => endswith_sep s'
  end.

Definition is_empty (s : string) : bool :=
  match s with EmptyString => true | _ => false end.

(** [os.path.join(a, b)] of [posixpath], for two components. *)
Definition path_join (a b : string) : string :=
  if startswith_sep b || is_empty a then b
  else if endswith_sep a then a +:+ b
  else a +:+ "/" +:+ b.

(** [s] minus the prefix [p], when [s] starts with [p]. *)
Fixpoint strip_prefix (p s : string) : option string :=
  match p, s with
  | EmptyString, _ => Some s
  | String a p', String b s' => if Ascii.eqb a b then strip_prefix p' s' else None
  | String _ _, EmptyString => None
  end.

Fixpoint has_sep (s : string) : bool :=
  match s with
  | EmptyString => false
  | String c s' => Ascii.eqb c "/" || has_sep s'
  end.

End Str.

(** ** Configuration

    [config] is the dictionary handed to every constructor; the code
    reads the four keys below.  Sizes are counts. *)

Record Config := mkConfig {
  cfg_annotation_file : string;   (* config["annotation_file"] *)
  cfg_dataset_size : nat;         (* config["dataset_size"] *)
  cfg_target_shape : list nat;    (* config["target_shape"] *)
  cfg_chunk_size : nat            (* config["chunk_size"] *)
}.

(** [config["annotation_file"].rstrip(".txt")], the expression from which
    every backend derives the place of its artifact (lines 53, 78, 91 and
    141). *)
Definition artifact_stem (config : Config) : string :=
  Str.rstrip ".txt" (cfg_annotation_file config).

(** The file of the container backend. *)
Definition hdf5_filename (config : Config) : string :=
  artifact_stem config +:+ ".h5".

(** ** Exceptions

    The exception classes the code and the libraries it calls can raise.
    [AttributeError] keeps its message: the code raises it with a text of
    its own, and Python raises it for a missing attribute. *)

Inductive exn :=
| AttributeError (msg : string)
| AssertionError
| ValueError
| TypeError
| KeyError
| IndexError
| FileExistsError
| FileNotFoundError
| IsADirectoryError
| NotADirectoryError
| UnidentifiedImageError
| OSError.

Definition result (A : Type) : Type := exn + A.

(** ** numpy arrays of dtype [uint8]

    An array is held by its rows along the first axis: [inner] is the
    shape of a row, [rows] the rows, each flattened in row-major order. *)

Record ndarray := mkArray { inner : list nat; rows : list (list byte) }.

(** A single row, [a[idx]]: an array of shape [rshape]. *)
Record ndrow := mkRow { rshape : list nat; rdata : list byte }.

Module Np.

Definition shape (a : ndarray) : list nat := length (rows a) :: inner a.

Definition row_size (inner : list nat) : nat := foldr Nat.mul 1 inner.

Definition zeros (n : nat) (inner : list nat) : ndarray :=
  mkArray inner (replicate n (replicate (row_size inner) "000"%byte)).

(** A slice bound as [slice.indices] clips it for a sequence of length
    [n]: a negative bound counts from the end. *)
Definition clip (i : Z) (n : nat) : nat :=
  if (i <? 0)%Z then Z.to_nat (i + Z.of_nat n) else Nat.min (Z.to_nat i) n.

(** [a[:k]] *)
Definition prefix (a : ndarray) (k : Z) : ndarray :=
  mkArray (inner a) (take (clip k (length (rows a))) (rows a)).

(** [a[idx]] for an integer [idx]. *)
Definition getitem (a : ndarray) (idx : Z) : result ndrow :=
  let n := Z.of_nat (length (rows a)) in
  let i := if (idx <? 0)%Z then (idx + n)%Z else idx in
  if (0 <=? i)%Z && (i <? n)%Z then
    match rows a !! Z.to_nat i with
    | Some r => inr (mkRow (inner a) r)
    | None => inl IndexError
    end
  else inl IndexError.

(** Broadcasting of the rows of a source along the first axis to [cnt]
    rows: the extents agree, or the source has one row, which is
    repeated. *)
Definition broadcast_rows (src : list (list byte)) (cnt : nat)
  : option (list (list byte)) :=
  if decide (length src = cnt) then Some src
  else match src with
       | [r] => Some (replicate cnt r)
       | _ => None
       end.

(** The rows of [dst] after [dst[l:r] = src], when the assignment is
    accepted.  Broadcasting along the trailing axes is not modelled: a
    source whose row shape differs from the destination's is refused. *)
Definition assign_rows (dst : ndarray) (l r : Z) (src : ndarray)
  : option (list (list byte)) :=
  let n := length (rows dst) in
  let a := clip l n in
  let cnt := clip r n - a in
  if bool_decide (inner src = inner dst) then
    new ← broadcast_rows (rows src) cnt;
    Some (take a (rows dst) ++ new ++ drop (a + cnt) (rows dst))%list
  else None.

(** Number of rows selected by [dst[l:r]]. *)
Definition nselect (dst : ndarray) (l r : Z) : nat :=
  let n := length (rows dst) in clip r n - clip l n.

(** [dst[l:r] = src] on an in-memory or mapped array. *)
Definition setslice (dst : ndarray) (l r : Z) (src : ndarray) : result ndarray :=
  match assign_rows dst l r src with
  | Some rs => inr (mkArray (inner dst) rs)
  | None => inl ValueError
  end.

End Np.

(** ** PIL images *)

Inductive mode := L | LA | RGB | RGBA.

Global Instance mode_eq_dec : EqDecision mode.
Proof. solve_decision. Defined.

Record Image := mkImage {
  im_mode : mode;
  im_height : nat;
  im_width : nat;
  im_data : list byte
}.

Module Pil.

Definition bands (m : mode) : nat :=
  match m with L => 1 | LA => 2 | RGB => 3 | RGBA => 4 end.

(** Largest number of axes [fromarray] accepts for a mode. *)
Definition ndmax (m : mode) : nat :=
  match m with L => 2 | RGB => 3 | _ => 4 end.

(** The mode [Image.fromarray] infers for a [uint8] array from the
    axes after the first two. *)
Definition infer_mode (shp : list nat) : result mode :=
  match drop 2 shp with
  | [] => inr L
  | [2] => inr LA
  | [3] => inr RGB
  | [4] => inr RGBA
  | _ => inl TypeError
  end.

(** (height, width) as [fromarray] reads them off the shape. *)
Definition size_of (shp : list nat) : result (nat * nat) :=
  match shp with
  | [] => inl IndexError
  | [n] => inr (n, 1)
  | h :: w :: _ => inr (h, w)
  end.

Definition build (m : mode) (r : ndrow) : result Image :=
  if decide (ndmax m < length (rshape r)) then inl ValueError
  else match size_of (rshape r) with
       | inl e => inl e
       | inr (h, w) =>
           if decide (length (rdata r) = h * w * bands m)
           then inr (mkImage m h w (rdata r))
           else inl ValueError
       end.

(** [Image.fromarray(r)] *)
Definition fromarray (r : ndrow) : result Image :=
  match infer_mode (rshape r) with
  | inl e => inl e
  | inr m => build m r
  end.

(** [Image.fromarray(r, mode)] *)
Definition fromarray_mode (r : ndrow) (m : mode) : result Image := build m r.

Definition byte_of_N (n : N) : byte :=
  default "000"%byte (Byte.of_N (n mod 256)%N).

(** ITU-R 601-2 luma transform, in the fixed-point form PIL computes. *)
Definition luma (r g b : byte) : byte :=
  byte_of_N (N.shiftr (Byte.to_N r * 19595 + Byte.to_N g * 38470
                       + Byte.to_N b * 7471 + 32768) 16)%N.

Definition to_rgb (m : mode) (px : list byte) : list byte :=
  match m, px with
  | L, [v] => [v; v; v]
  | LA, [v; _] => [v; v; v]
  | RGB, [r; g; b] => [r; g; b]
  | RGBA, [r; g; b; _] => [r; g; b]
  | _, _ => []
  end.

Definition of_rgb (m : mode) (px : list byte) : list byte :=
  match px with
  | [r; g; b] =>
      match m with
      | L => [luma r g b]
      | LA => [luma r g b; "255"%byte]
      | RGB => [r; g; b]
      | RGBA => [r; g; b; "255"%byte]
      end
  | _ => []
  end.

(** [im.convert(m)] *)
Definition convert (m : mode) (im : Image) : Image :=
  if decide (im_mode im = m) then im
  else
    let n := im_height im * im_width im in
    let pixels := reshape (replicate n (bands (im_mode im))) (im_data im) in
    mkImage m (im_height im) (im_width im)
            (mjoin ((λ px, of_rgb m (to_rgb (im_mode im) px)) <$> pixels)).

End Pil.

(** ** The file system

    A flat name space: a path names a node.  Parent directories of the
    artifact location are taken to exist, and paths are compared as
    written (no normalisation). *)

Inductive node :=
| Dir
| FileH5 (arrays : gmap string ndarray)   (* an HDF5 container and its named arrays *)
| FileBin (bytes : list byte)             (* a headerless binary file *)
| FileImg (im : Image).                   (* an encoded image, held by the image it decodes to *)

(** ** Python values held in attributes *)

Inductive h5mode := H5Append | H5Read | H5Closed.

Inductive closure := Idx2input | Idx2target.

Inductive pyval :=
| VInt (z : Z)
| VBool (b : bool)
| VStr (s : string)
| VConfig (c : Config)
| VH5File (name : string) (md : h5mode)
| VMemmap (filename : string) (writable : bool) (shp : list nat)
| VLambda (f : closure).

Definition truthy (v : pyval) : bool :=
  match v with
  | VBool b => b
  | VInt z => negb (z =? 0)%Z
  | VStr s => negb (Str.is_empty s)
  | _ => true
  end.

(** ** Computations: instance and file system, with exceptions *)

Record world := mkWorld {
  self : gmap string pyval;
  fs : gmap string node
}.

Definition M (A : Type) : Type := world → result A * world.

Definition ret {A} (a : A) : M A := λ w, (inr a, w).

Definition raise {A} (e : exn) : M A := λ w, (inl e, w).

Definition bind {A B} (m : M A) (k : A → M B) : M B :=
  λ w, match m w with
       | (inr a, w') => k a w'
       | (inl e, w') => (inl e, w')
       end.

Notation "'let*' x ':=' m 'in' k" := (bind m (λ x, k))
  (at level 10, x pattern, m at level 100, k at level 200).

Definition lift {A} (r : result A) : M A := λ w, (r, w).

Definition lift_fs {A} (f : gmap string node → result A * gmap string node) : M A :=
  λ w, let '(r, fs') := f (fs w) in (r, mkWorld (self w) fs').

(** [try: m / except ValueError: pass] *)
Definition except_ValueError_pass (m : M unit) : M unit :=
  λ w, match m w with
       | (inl ValueError, w') => (inr tt, w')
       | rw => rw
       end.

(** [assert b] *)
Definition assert (b : bool) : M unit :=
  if b then ret tt else raise AssertionError.

(** *** Attributes and name mangling *)

Definition is_private (name : string) : bool :=
  String.prefix "__" name && negb (String.prefix "__" (String.rev name)).

Fixpoint lstrip_underscores (s : string) : string :=
  match s with
  | String c s' => if Ascii.eqb c "_" then lstrip_underscores s' else s
  | EmptyString => EmptyString
  end.

(** The key under which the identifier [name], written in the body of
    class [cls], is stored in the instance dictionary. *)
Definition mangle (cls name : string) : string :=
  if is_private name then "_" +:+ lstrip_underscores cls +:+ name else name.

Definition no_attribute (obj_cls key : string) : exn :=
  AttributeError ("'" +:+ obj_cls +:+ "' object has no attribute '" +:+ key +:+ "'").

Definition getattr (obj_cls key : string) : M pyval :=
  λ w, match self w !! key with
       | Some v => (inr v, w)
       | None => (inl (no_attribute obj_cls key), w)
       end.

Definition setattr (key : string) (v : pyval) : M unit :=
  λ w, (inr tt, mkWorld (<[key := v]> (self w)) (fs w)).

Definition delattr (obj_cls key : string) : M unit :=
  λ w, match self w !! key with
       | Some _ => (inr tt, mkWorld (delete key (self w)) (fs w))
       | None => (inl (no_attribute obj_cls key), w)
       end.

Definition as_int (v : pyval) : M Z :=
  match v with VInt z => ret z | _ => raise TypeError end.

Definition as_str (v : pyval) : M string :=
  match v with VStr s => ret s | _ => raise TypeError end.

Definition as_config (v : pyval) : M Config :=
  match v with VConfig c => ret c | _ => raise TypeError end.

(** ** Library calls *)

Module Os.

(** [os.makedirs(name, exist_ok=...)] *)
Definition makedirs (name : string) (exist_ok : bool) (f : gmap string node)
  : result unit * gmap string node :=
  if Str.is_empty name then (inl FileNotFoundError, f)
  else match f !! name with
       | None => (inr tt, <[name := Dir]> f)
       | Some Dir => if exist_ok then (inr tt, f) else (inl FileExistsError, f)
       | Some _ => (inl FileExistsError, f)
       end.

(** The prefix shared by the paths of the entries of directory [d]. *)
Definition entry_prefix (d : string) : string :=
  if Str.endswith_sep d then d else d +:+ "/".

Definition is_entry (d k : string) : bool :=
  match Str.strip_prefix (entry_prefix d) k with
  | Some name => negb (Str.is_empty name) && negb (Str.has_sep name)
  | None => false
  end.

(** [os.listdir(d)], as the paths of the entries *)
Definition listdir (d : string) (f : gmap string node)
  : result (list string) * gmap string node :=
  match f !! d with
  | None => (inl FileNotFoundError, f)
  | Some Dir => (inr (filter (λ k, is_entry d k = true) (fst <$> map_to_list f)), f)
  | Some _ => (inl NotADirectoryError, f)
  end.

End Os.

Module H5.

(** [h5py.File(name, 'a')] and [h5py.File(name, 'r')] *)
Definition File (name : string) (md : h5mode) (f : gmap string node)
  : result pyval * gmap string node :=
  match f !! name, md with
  | Some (FileH5 _), _ => (inr (VH5File name md), f)
  | Some _, _ => (inl OSError, f)
  | None, H5Append => (inr (VH5File name md), <[name := FileH5 ∅]> f)
  | None, _ => (inl FileNotFoundError, f)
  end.

(** The arrays of the container an open handle refers to. *)
Definition arrays_of (h : pyval) (f : gmap string node)
  : result (string * h5mode * gmap string ndarray) :=
  match h with
  | VH5File name H5Closed => inl ValueError
  | VH5File name md =>
      match f !! name with
      | Some (FileH5 ds) => inr (name, md, ds)
      | _ => inl OSError
      end
  | _ => inl TypeError
  end.

(** [h.create_dataset(key, shape=shp, dtype=np.uint8)]: refused with
    [ValueError] when the name is taken. *)
Definition create_dataset (h : pyval) (key : string) (shp : list nat)
    (f : gmap string node) : result unit * gmap string node :=
  match arrays_of h f with
  | inl e => (inl e, f)
  | inr (name, md, ds) =>
      match ds !! key, md with
      | Some _, _ => (inl ValueError, f)
      | None, H5Append =>
          (inr tt, <[name := FileH5 (<[key := Np.zeros (hd 0 shp) (tl shp)]> ds)]> f)
      | None, _ => (inl ValueError, f)
      end
  end.

(** [h[key]] *)
Definition dataset (h : pyval) (key : string) (f : gmap string node)
  : result (string * h5mode * gmap string ndarray * ndarray) :=
  match arrays_of h f with
  | inl e => inl e
  | inr (name, md, ds) =>
      match ds !! key with
      | Some a => inr (name, md, ds, a)
      | None => inl KeyError
      end
  end.

(** [h[key].shape] *)
Definition shape (h : pyval) (key : string) (f : gmap string node)
  : result (list nat) * gmap string node :=
  match dataset h key f with
  | inl e => (inl e, f)
  | inr (_, _, _, a) => (inr (Np.shape a), f)
  end.

(** [h[key][l:r] = src]: an empty selection returns at once; otherwise
    the source is broadcast to the selection and written. *)
Definition setslice (h : pyval) (key : string) (l r : Z) (src : ndarray)
    (f : gmap string node) : result unit * gmap string node :=
  match dataset h key f with
  | inl e => (inl e, f)
  | inr (name, md, ds, a) =>
      if decide (Np.nselect a l r = 0) then (inr tt, f)
      else match Np.assign_rows a l r src, md with
           | None, _ => (inl TypeError, f)
           | Some rs, H5Append =>
               (inr tt, <[name := FileH5 (<[key := mkArray (inner a) rs]> ds)]> f)
           | Some _, _ => (inl OSError, f)
           end
  end.

(** [h[key][idx]] *)
Definition getitem (h : pyval) (key : string) (idx : Z) (f : gmap string node)
  : result ndrow * gmap string node :=
  match dataset h key f with
  | inl e => (inl e, f)
  | inr (_, _, _, a) => (Np.getitem a idx, f)
  end.

(** [h.close()]: the handle object itself becomes closed. *)
Definition close (h : pyval) : pyval :=
  match h with
  | VH5File name _ => VH5File name H5Closed
  | v => v
  end.

End H5.

Module Memmap.

Definition nbytes (shp : list nat) : nat := Np.row_size shp.

(** [np.memmap(filename, mode='w+', dtype=np.uint8, shape=shp)]: the
    file is created or truncated, then extended with zero bytes to the
    size of the array and mapped; an empty file cannot be mapped. *)
Definition create (filename : string) (shp : list nat) (f : gmap string node)
  : result pyval * gmap string node :=
  match f !! filename with
  | Some Dir => (inl IsADirectoryError, f)
  | _ =>
      if decide (nbytes shp = 0) then (inl ValueError, <[filename := FileBin []]> f)
      else (inr (VMemmap filename true shp),
            <[filename := FileBin (replicate (nbytes shp) "000"%byte)]> f)
  end.

(** [np.memmap(filename, mode='r', dtype=np.uint8, shape=shp)] *)
Definition open_r (filename : string) (shp : list nat) (f : gmap string node)
  : result pyval * gmap string node :=
  match f !! filename with
  | None => (inl FileNotFoundError, f)
  | Some Dir => (inl IsADirectoryError, f)
  | Some (FileBin bytes) =>
      if decide (length bytes < nbytes shp) then (inl ValueError, f)
      else if decide (length bytes = 0) then (inl ValueError, f)
      else (inr (VMemmap filename false shp), f)
  | Some _ => (inl OSError, f)
  end.

(** The array a mapping shows: the bytes of the file, cut into rows. *)
Definition view (shp : list nat) (bytes : list byte) : ndarray :=
  mkArray (tl shp) (reshape (replicate (hd 0 shp) (Np.row_size (tl shp))) bytes).

Definition mapped (m : pyval) (f : gmap string node)
  : result (string * bool * list nat * list byte) :=
  match m with
  | VMemmap filename writable shp =>
      match f !! filename with
      | Some (FileBin bytes) => inr (filename, writable, shp, bytes)
      | _ => inl OSError
      end
  | _ => inl TypeError
  end.

(** [m.shape] *)
Definition shape (m : pyval) : result (list nat) :=
  match m with
  | VMemmap _ _ shp => inr shp
  | _ => inl TypeError
  end.

(** The bytes of the rows [rs], each laid out at the stride of the
    mapped shape. *)
Definition flatten (shp : list nat) (rs : list (list byte)) : list byte :=
  mjoin (resize (Np.row_size (tl shp)) "000"%byte <$> rs).

(** [m[l:r] = src]: the mapped region of the file is rewritten in
    place. *)
Definition setslice (m : pyval) (l r : Z) (src : ndarray) (f : gmap string node)
  : result unit * gmap string node :=
  match mapped m f with
  | inl e => (inl e, f)
  | inr (filename, writable, shp, bytes) =>
      if writable then
        match Np.assign_rows (view shp bytes) l r src with
        | Some rs =>
            (inr tt,
             <[filename := FileBin (flatten shp rs ++ drop (nbytes shp) bytes)%list]> f)
        | None => (inl ValueError, f)
        end
      else (inl ValueError, f)
  end.

(** [m[idx]] *)
Definition getitem (m : pyval) (idx : Z) (f : gmap string node)
  : result ndrow * gmap string node :=
  match mapped m f with
  | inl e => (inl e, f)
  | inr (_, _, shp, bytes) => (Np.getitem (view shp bytes) idx, f)
  end.

End Memmap.

(** ** Image files

    PIL chooses the encoder from the extension of the path it is given:
    the paths built by [idx2input] end in [.jpg], those built by
    [idx2target] in [.png].  PNG is lossless.  JPEG is not: [jpeg im] is
    the image that a JPEG file written from [im] decodes to. *)

Inductive format := JPEG | PNG.

Module ImageFile.

Definition stored (jpeg : Image → Image) (fmt : format) (im : Image) : result Image :=
  match fmt, im_mode im with
  | JPEG, (L | RGB) => inr (jpeg im)
  | JPEG, _ => inl OSError
  | PNG, _ => inr im
  end.

(** [im.save(path)] *)
Definition save (jpeg : Image → Image) (fmt : format) (im : Image) (path : string)
    (f : gmap string node) : result unit * gmap string node :=
  match f !! path with
  | Some Dir => (inl IsADirectoryError, f)
  | _ =>
      match stored jpeg fmt im with
      | inr im' => (inr tt, <[path := FileImg im']> f)
      | inl e => (inl e, f)
      end
  end.

(** [Image.open(path)] *)
Definition open (path : string) (f : gmap string node)
  : result Image * gmap string node :=
  match f !! path with
  | None => (inl FileNotFoundError, f)
  | Some Dir => (inl IsADirectoryError, f)
  | Some (FileImg im) => (inr im, f)
  | Some _ => (inl UnidentifiedImageError, f)
  end.

End ImageFile.

(** ** The classes of [utils.py] *)

Module storage_class.

Definition cls : string := "storage_class".

(** Lines 14-17. *)
Definition __init__ (config : Config) : M unit :=
  let* _ := setattr (mangle cls "config") (VConfig config) in
  let* _ := setattr (mangle cls "pos") (VInt 0) in
  setattr (mangle cls "__locked") (VBool false).

End storage_class.

Module storage_hdf5.

Definition cls : string := "storage_hdf5".

Definition get (name : string) : M pyval := getattr cls (mangle cls name).
Definition set (name : string) (v : pyval) : M unit := setattr (mangle cls name) v.

Definition input_shape (config : Config) : list nat :=
  (cfg_dataset_size config :: cfg_target_shape config ++ [3])%list.

Definition target_shape (config : Config) : list nat :=
  cfg_dataset_size config :: cfg_target_shape config.

(** Lines 50-61. *)
Definition __init__ (config : Config) : M unit :=
  let* _ := storage_class.__init__ config in
  let* f := lift_fs (H5.File (hdf5_filename config) H5Append) in
  let* _ := set "dataset" f in
  let* _ := except_ValueError_pass
              (let* d := get "dataset" in
               lift_fs (H5.create_dataset d "input" (input_shape config))) in
  except_ValueError_pass
    (let* d := get "dataset" in
     lift_fs (H5.create_dataset d "target" (target_shape config))).

(** Lines 63-67. *)
Definition dataset_size : M nat :=
  let* d := get "dataset" in
  let* s_input := lift_fs (H5.shape d "input") in
  let* d := get "dataset" in
  let* s_target := lift_fs (H5.shape d "target") in
  let* _ := assert (bool_decide (removelast s_input = s_target)) in
  let* d := get "dataset" in
  let* s_target := lift_fs (H5.shape d "target") in
  let* c := get "config" in
  let* c := as_config c in
  let* _ := assert (bool_decide (head s_target = Some (cfg_dataset_size c))) in
  let* c := get "config" in
  let* c := as_config c in
  ret (cfg_dataset_size c).

(** Lines 69-74. *)
Definition append (input_chunk target_chunk : ndarray) : M unit :=
  let* pos := get "pos" in
  let* pos := as_int pos in
  let* c := get "config" in
  let* c := as_config c in
  let l_idx := (pos * Z.of_nat (cfg_chunk_size c))%Z in
  let* c := get "config" in
  let* c := as_config c in
  let* c' := get "config" in
  let* c' := as_config c' in
  let r_idx := Z.min (Z.of_nat (cfg_dataset_size c))
                     (l_idx + Z.of_nat (cfg_chunk_size c')) in
  let* d := get "dataset" in
  let* _ := lift_fs (H5.setslice d "input" l_idx r_idx
                       (Np.prefix input_chunk (r_idx - l_idx))) in
  let* d := get "dataset" in
  let* _ := lift_fs (H5.setslice d "target" l_idx r_idx
                       (Np.prefix target_chunk (r_idx - l_idx))) in
  let* pos := get "pos" in
  let* pos := as_int pos in
  set "pos" (VInt (pos + 1)).

(** Lines 76-79. *)
Definition lock : M unit :=
  let* d := get "dataset" in
  let* _ := set "dataset" (H5.close d) in
  let* c := get "config" in
  let* c := as_config c in
  let* f := lift_fs (H5.File (hdf5_filename c) H5Read) in
  let* _ := set "dataset" f in
  set "__locked" (VBool true).

(** Lines 81-84. *)
Definition __getitem__ (idx : Z) : M (Image * Image) :=
  let* locked := get "__locked" in
  if negb (truthy locked)
  then raise (AttributeError "HDF5 file is not locked. Access denied.")
  else
    let* d := get "dataset" in
    let* r := lift_fs (H5.getitem d "input" idx) in
    let* input := lift (Pil.fromarray r) in
    let* d := get "dataset" in
    let* r := lift_fs (H5.getitem d "target" idx) in
    let* target := lift (Pil.fromarray r) in
    ret (input, target).

End storage_hdf5.

Module storage_memmap.

Definition cls : string := "storage_memmap".

Definition get (name : string) : M pyval := getattr cls (mangle cls name).
Definition set (name : string) (v : pyval) : M unit := setattr (mangle cls name) v.
Definition del (name : string) : M unit := delattr cls (mangle cls name).

Definition input_shape (config : Config) : list nat :=
  (cfg_dataset_size config :: cfg_target_shape config ++ [3])%list.

Definition target_shape (config : Config) : list nat :=
  cfg_dataset_size config :: cfg_target_shape config.

(** Lines 88-103. *)
Definition __init__ (config : Config) : M unit :=
  let* _ := storage_class.__init__ config in
  let path := artifact_stem config in
  let* _ := lift_fs (Os.makedirs path true) in
  let* _ := set "input_path" (VStr (Str.path_join path "input.npy")) in
  let* _ := set "target_path" (VStr (Str.path_join path "target.npy")) in
  let* p := get "input_path" in
  let* p := as_str p in
  let* m := lift_fs (Memmap.create p (input_shape config)) in
  let* _ := set "input" m in
  let* p := get "target_path" in
  let* p := as_str p in
  let* m := lift_fs (Memmap.create p (target_shape config)) in
  set "target" m.

(** Lines 105-109. *)
Definition dataset_size : M nat :=
  let* m := get "input" in
  let* s_input := lift (Memmap.shape m) in
  let* m := get "target" in
  let* s_target := lift (Memmap.shape m) in
  let* _ := assert (bool_decide (removelast s_input = s_target)) in
  let* m := get "input" in
  let* s_input := lift (Memmap.shape m) in
  let* c := get "config" in
  let* c := as_config c in
  let* n := match head s_input with
            | Some n => ret n
            | None => raise IndexError
            end in
  let* _ := assert (bool_decide (n = cfg_dataset_size c)) in
  let* c := get "config" in
  let* c := as_config c in
  ret (cfg_dataset_size c).

(** Lines 111-116. *)
Definition append (input_chunk target_chunk : ndarray) : M unit :=
  let* pos := get "pos" in
  let* pos := as_int pos in
  let* c := get "config" in
  let* c := as_config c in
  let l_idx := (pos * Z.of_nat (cfg_chunk_size c))%Z in
  let* c := get "config" in
  let* c := as_config c in
  let* c' := get "config" in
  let* c' := as_config c' in
  let r_idx := Z.min (Z.of_nat (cfg_dataset_size c))
                     (l_idx + Z.of_nat (cfg_chunk_size c')) in
  let* m := get "input" in
  let* _ := lift_fs (Memmap.setslice m l_idx r_idx
                       (Np.prefix input_chunk (r_idx - l_idx))) in
  let* m := get "target" in
  let* _ := lift_fs (Memmap.setslice m l_idx r_idx
                       (Np.prefix target_chunk (r_idx - l_idx))) in
  let* pos := get "pos" in
  let* pos := as_int pos in
  set "pos" (VInt (pos + 1)).

(** Lines 118-129. *)
Definition lock : M unit :=
  let* _ := del "input" in
  let* _ := del "target" in
  let* p := get "input_path" in
  let* p := as_str p in
  let* c := get "config" in
  let* c := as_config c in
  let* m := lift_fs (Memmap.open_r p (input_shape c)) in
  let* _ := set "input" m in
  let* p := get "target_path" in
  let* p := as_str p in
  let* c := get "config" in
  let* c := as_config c in
  let* m := lift_fs (Memmap.open_r p (target_shape c)) in
  let* _ := set "target" m in
  set "__locked" (VBool true).

(** Lines 131-134. *)
Definition __getitem__ (idx : Z) : M (Image * Image) :=
  let* locked := get "__locked" in
  if negb (truthy locked)
  then raise (AttributeError "Memory-mapped file is not locked. Access denied.")
  else
    let* m := get "input" in
    let* r := lift_fs (Memmap.getitem m idx) in
    let* input := lift (Pil.fromarray r) in
    let* m := get "target" in
    let* r := lift_fs (Memmap.getitem m idx) in
    let* target := lift (Pil.fromarray r) in
    ret (input, target).

End storage_memmap.

Module storage_raw.

Definition cls : string := "storage_raw".

Definition get (name : string) : M pyval := getattr cls (mangle cls name).
Definition set (name : string) (v : pyval) : M unit := setattr (mangle cls name) v.

(** [for x in xs: body(x)] *)
Fixpoint for_each {A} (xs : list A) (body : A → M unit) : M unit :=
  match xs with
  | [] => ret tt
  | x :: xs' => let* _ := body x in for_each xs' body
  end.

(** A call of one of the two closures of lines 144-145; they read
    [self.input_path] and [self.target_path] when they are called. *)
Definition call (f : pyval) (idx : Z) : M string :=
  match f with
  | VLambda Idx2input =>
      let* p := get "input_path" in
      let* p := as_str p in
      ret (Str.path_join p ("input" +:+ pretty idx +:+ ".jpg"))
  | VLambda Idx2target =>
      let* p := get "target_path" in
      let* p := as_str p in
      ret (Str.path_join p ("target" +:+ pretty idx +:+ ".png"))
  | _ => raise TypeError
  end.

(** Lines 138-149. *)
Definition __init__ (config : Config) : M unit :=
  let* _ := storage_class.__init__ config in
  let path := artifact_stem config in
  let* _ := set "input_path" (VStr (Str.path_join path "Input")) in
  let* _ := set "target_path" (VStr (Str.path_join path "Target")) in
  let* _ := set "idx2input" (VLambda Idx2input) in
  let* _ := set "idx2target" (VLambda Idx2target) in
  let* _ := lift_fs (Os.makedirs path true) in
  let* p := get "input_path" in
  let* p := as_str p in
  let* _ := lift_fs (Os.makedirs p false) in
  let* p := get "target_path" in
  let* p := as_str p in
  lift_fs (Os.makedirs p false).

(** Lines 151-155. *)
Definition dataset_size : M nat :=
  let* p := get "input_path" in
  let* p := as_str p in
  let* inputs := lift_fs (Os.listdir p) in
  let* p := get "target_path" in
  let* p := as_str p in
  let* targets := lift_fs (Os.listdir p) in
  let* _ := assert (bool_decide (length inputs = length targets)) in
  let* p := get "input_path" in
  let* p := as_str p in
  let* inputs := lift_fs (Os.listdir p) in
  let* c := get "config" in
  let* c := as_config c in
  let* _ := assert (bool_decide (length inputs = cfg_dataset_size c)) in
  let* c := get "config" in
  let* c := as_config c in
  ret (cfg_dataset_size c).

(** Lines 162-163, the body of the loop. *)
Definition save_pair (jpeg : Image → Image) (input_chunk target_chunk : ndarray)
    (l_idx idx : Z) : M unit :=
  let* r := lift (Np.getitem input_chunk (idx - l_idx)) in
  let* im := lift (Pil.fromarray_mode r RGB) in
  let* f := get "idx2input" in
  let* path := call f idx in
  let* _ := lift_fs (ImageFile.save jpeg JPEG im path) in
  let* r := lift (Np.getitem target_chunk (idx - l_idx)) in
  let* im := lift (Pil.fromarray_mode r L) in
  let* f := get "idx2target" in
  let* path := call f idx in
  lift_fs (ImageFile.save jpeg PNG im path).

(** Lines 157-165. *)
Definition append (jpeg : Image → Image) (input_chunk target_chunk : ndarray) : M unit :=
  let* pos := get "pos" in
  let* pos := as_int pos in
  let* c := get "config" in
  let* c := as_config c in
  let l_idx := (pos * Z.of_nat (cfg_chunk_size c))%Z in
  let* c := get "config" in
  let* c := as_config c in
  let* c' := get "config" in
  let* c' := as_config c' in
  let r_idx := Z.min (Z.of_nat (cfg_dataset_size c))
                     (l_idx + Z.of_nat (cfg_chunk_size c')) in
  let* _ := for_each (seqZ l_idx (r_idx - l_idx))
                     (save_pair jpeg input_chunk target_chunk l_idx) in
  let* pos := get "pos" in
  let* pos := as_int pos in
  set "pos" (VInt (pos + 1)).

(** Lines 167-168. *)
Definition lock : M unit := set "__locked" (VBool true).

(** Lines 170-175. *)
Definition __getitem__ (idx : Z) : M (Image * Image) :=
  let* locked := get "__locked" in
  if negb (truthy locked)
  then raise (AttributeError "Raw file is not locked. Access denied.")
  else
    let* f := get "idx2input" in
    let* path := call f idx in
    let* im := lift_fs (ImageFile.open path) in
    let input := Pil.convert RGB im in
    let* f := get "idx2target" in
    let* path := call f idx in
    let* im := lift_fs (ImageFile.open path) in
    let target := Pil.convert L im in
    ret (input, target).

End storage_raw.

(** ** The storage contract over the three backends *)

Inductive backend := Container | MappedArray | FlatFile.

Definition class_name (b : backend) : string :=
  match b with
  | Container => storage_hdf5.cls
  | MappedArray => storage_memmap.cls
  | FlatFile => storage_raw.cls
  end.

Definition construct (b : backend) (config : Config) : M unit :=
  match b with
  | Container => storage_hdf5.__init__ config
  | MappedArray => storage_memmap.__init__ config
  | FlatFile => storage_raw.__init__ config
  end.

Definition size (b : backend) : M nat :=
  match b with
  | Container => storage_hdf5.dataset_size
  | MappedArray => storage_memmap.dataset_size
  | FlatFile => storage_raw.dataset_size
  end.

Definition append (jpeg : Image → Image) (b : backend)
    (input_chunk target_chunk : ndarray) : M unit :=
  match b with
  | Container => storage_hdf5.append input_chunk target_chunk
  | MappedArray => storage_memmap.append input_chunk target_chunk
  | FlatFile => storage_raw.append jpeg input_chunk target_chunk
  end.

Definition lock (b : backend) : M unit :=
  match b with
  | Container => storage_hdf5.lock
  | MappedArray => storage_memmap.lock
  | FlatFile => storage_raw.lock
  end.

Definition get (b : backend) (idx : Z) : M (Image * Image) :=
  match b with
  | Container => storage_hdf5.__getitem__ idx
  | MappedArray => storage_memmap.__getitem__ idx
  | FlatFile => storage_raw.__getitem__ idx
  end.

(** The world in which a constructor starts: an instance without
    attributes, over the file system [f]. *)
Definition fresh (f : gmap string node) : world := mkWorld ∅ f.

(** * Reasoning about computations

    [post m w Q]: running [m] in world [w] ends, with a value or an
    exception, in an outcome and a world related by [Q]. *)

Definition post {A} (m : M A) (w : world) (Q : result A → world → Prop) : Prop :=
  Q (m w).1 (m w).2.

Global Arguments post : simpl never.

Section post_rules.
Context {A B : Type}.
Implicit Types (w : world) (Q : result A → world → Prop).

Lemma post_intro (m : M A) w r w' Q : m w = (r, w') → Q r w' → post m w Q.
Proof. unfold post. by intros ->. Qed.

Lemma post_elim (m : M A) w Q : post m w Q → ∀ r w', m w = (r, w') → Q r w'.
Proof. unfold post. intros H r w' Heq. by rewrite Heq in H. Qed.

Lemma post_mono (m : M A) w Q (Q' : result A → world → Prop) :
  post m w Q → (∀ r w', Q r w' → Q' r w') → post m w Q'.
Proof. unfold post. auto. Qed.

Lemma post_ret (a : A) w Q : Q (inr a) w → post (ret a) w Q.
Proof. done. Qed.

Lemma post_raise e w Q : Q (inl e) w → post (raise e) w Q.
Proof. done. Qed.

Lemma post_lift (r : result A) w Q : Q r w → post (lift r) w Q.
Proof. done. Qed.

Lemma post_lift_fs (f : gmap string node → result A * gmap string node) w Q :
  Q (f (fs w)).1 (mkWorld (self w) (f (fs w)).2) → post (lift_fs f) w Q.
Proof. unfold post, lift_fs. by destruct (f (fs w)). Qed.

Lemma post_bind (m : M A) (k : A → M B) w (Q : result B → world → Prop) :
  post m w (λ r w', match r with
                    | inr a => post (k a) w' Q
                    | inl e => Q (inl e) w'
                    end) →
  post (bind m k) w Q.
Proof. unfold post, bind. by destruct (m w) as [[e|a] w']. Qed.

End post_rules.

Lemma post_lift_fs_eq {A} (g : gmap string node → result A * gmap string node)
    w r f' (Q : result A → world → Prop) :
  g (fs w) = (r, f') → Q r (mkWorld (self w) f') → post (lift_fs g) w Q.
Proof. intros Hg HQ. apply post_lift_fs. by rewrite Hg. Qed.

Lemma post_eq {A} (m : M A) w (x : result A * world) :
  post m w (λ r w', (r, w') = x) → m w = x.
Proof. unfold post. by destruct (m w). Qed.

Lemma post_getattr cls key w (Q : result pyval → world → Prop) :
  match self w !! key with
  | Some v => Q (inr v) w
  | None => Q (inl (no_attribute cls key)) w
  end →
  post (getattr cls key) w Q.
Proof. unfold post, getattr. by destruct (self w !! key). Qed.

Lemma post_setattr key v w (Q : result unit → world → Prop) :
  Q (inr tt) (mkWorld (<[key := v]> (self w)) (fs w)) → post (setattr key v) w Q.
Proof. done. Qed.

Lemma post_delattr cls key w (Q : result unit → world → Prop) :
  match self w !! key with
  | Some _ => Q (inr tt) (mkWorld (delete key (self w)) (fs w))
  | None => Q (inl (no_attribute cls key)) w
  end →
  post (delattr cls key) w Q.
Proof. unfold post, delattr. by destruct (self w !! key). Qed.

Lemma post_assert (b : bool) w (Q : result unit → world → Prop) :
  (if b then Q (inr tt) w else Q (inl AssertionError) w) → post (assert b) w Q.
Proof. by destruct b. Qed.

Lemma post_except_ValueError_pass (m : M unit) w (Q : result unit → world → Prop) :
  post m w (λ (r : result unit) w', match r with
                    | inl ValueError => Q (inr tt) w'
                    | _ => Q r w'
                    end) →
  post (except_ValueError_pass m) w Q.
Proof.
  unfold post, except_ValueError_pass.
  by destruct (m w) as [[[]|[]] w'].
Qed.

(** Names written in a class body, as keys of the instance dictionary. *)
Ltac eval_names :=
  repeat match goal with
         | |- context [mangle ?c ?n] =>
             let s := eval vm_compute in (mangle c n) in
             change (mangle c n) with s
         end.

(** One step of symbolic execution. *)
Ltac mstep :=
  lazymatch goal with
  | |- post (bind _ _) _ _ => apply post_bind
  | |- post (ret _) _ _ => apply post_ret
  | |- post (raise _) _ _ => apply post_raise
  | |- post (lift _) _ _ => apply post_lift
  | |- post (getattr _ _) _ _ => apply post_getattr
  | |- post (setattr _ _) _ _ => apply post_setattr
  | |- post (delattr _ _) _ _ => apply post_delattr
  | |- post (assert _) _ _ => apply post_assert
  | |- post (storage_hdf5.get _) _ _ => unfold storage_hdf5.get; eval_names
  | |- post (storage_hdf5.set _ _) _ _ => unfold storage_hdf5.set; eval_names
  | |- post (storage_memmap.get _) _ _ => unfold storage_memmap.get; eval_names
  | |- post (storage_memmap.set _ _) _ _ => unfold storage_memmap.set; eval_names
  | |- post (storage_memmap.del _) _ _ => unfold storage_memmap.del; eval_names
  | |- post (storage_raw.get _) _ _ => unfold storage_raw.get; eval_names
  | |- post (storage_raw.set _ _) _ _ => unfold storage_raw.set; eval_names
  | |- post (as_int ?v) _ _ => unfold as_int
  | |- post (as_str ?v) _ _ => unfold as_str
  | |- post (as_config ?v) _ _ => unfold as_config
  end; cbn beta iota; cbn [self fs].

(** Symbolic execution as far as the attributes are known; it stops at
    a library call on the file system. *)
Ltac mrun := repeat (mstep; try simpl_map; cbn beta iota).

(** A library call whose outcome [tac] establishes. *)
Tactic Notation "mcall" tactic3(tac) :=
  lazymatch goal with
  | |- post (lift_fs _) _ _ =>
      eapply post_lift_fs_eq; [cbn [self fs]; tac | cbn beta iota; cbn [self fs]]
  end.

Ltac use_lookups :=
  repeat match goal with
         | H : ?s !! ?k = _ |- context [?s !! ?k] => rewrite H
         end.

(** Library calls that only read the file system. *)
Definition read_only {A} (g : gmap string node → result A * gmap string node) : Prop :=
  ∀ f, (g f).2 = f.

Lemma H5_shape_read_only h key : read_only (H5.shape h key).
Proof. intros f. unfold H5.shape. by destruct (H5.dataset h key f) as [?|[[[??]?]?]]. Qed.

Lemma H5_getitem_read_only h key idx : read_only (H5.getitem h key idx).
Proof. intros f. unfold H5.getitem. by destruct (H5.dataset h key f) as [?|[[[??]?]?]]. Qed.

Lemma Memmap_getitem_read_only m idx : read_only (Memmap.getitem m idx).
Proof. intros f. unfold Memmap.getitem. by destruct (Memmap.mapped m f) as [?|[[[??]?]?]]. Qed.

Lemma ImageFile_open_read_only path : read_only (ImageFile.open path).
Proof. intros f. unfold ImageFile.open. by destruct (f !! path) as [[]|]. Qed.

Lemma Os_listdir_read_only d : read_only (Os.listdir d).
Proof. intros f. unfold Os.listdir. by destruct (f !! d) as [[]|]. Qed.

Create HintDb read_only.
Global Hint Resolve H5_shape_read_only H5_getitem_read_only Memmap_getitem_read_only
  ImageFile_open_read_only Os_listdir_read_only : read_only.

Lemma post_lift_fs_read_only {A} (g : gmap string node → result A * gmap string node)
    w (Q : result A → world → Prop) :
  read_only g → Q (g (fs w)).1 w → post (lift_fs g) w Q.
Proof.
  intros Hg HQ. apply post_lift_fs. rewrite Hg. by destruct w.
Qed.

(** A step that also splits on what is not known: a missing attribute,
    the outcome of a library call, the class of a value. *)
Ltac msplit :=
  lazymatch goal with
  | |- post (lift_fs ?g) ?w _ =>
      first
        [ apply post_lift_fs_read_only; [solve [auto with read_only]|];
          cbn [self fs];
          let E := fresh "E" in
          lazymatch goal with
          | |- context [(g ?f).1] => destruct (g f).1 as [?|?] eqn:E
          | _ => idtac
          end
        | apply post_lift_fs; cbn [self fs];
          let E := fresh "E" in
          lazymatch goal with
          | |- context [g ?f] => destruct (g f) as [[?|?] ?] eqn:E; cbn [fst snd]
          | _ => idtac
          end ]
  | |- post (lift ?r) _ _ =>
      apply post_lift; let E := fresh "E" in destruct r eqn:E
  | |- post (match ?v with _ => _ end) _ _ => let E := fresh "E" in destruct v eqn:E
  | |- post (if ?b then _ else _) _ _ => let E := fresh "E" in destruct b eqn:E
  | |- match ?s !! ?k with _ => _ end => let E := fresh "E" in destruct (s !! k) eqn:E
  | |- if ?b then _ else _ => let E := fresh "E" in destruct b eqn:E
  | |- match ?x with _ => _ end => let E := fresh "E" in destruct x eqn:E
  | |- post (storage_raw.call ?f _) _ _ => unfold storage_raw.call
  | |- post (except_ValueError_pass _) _ _ => apply post_except_ValueError_pass
  | _ => mstep; try simpl_map; use_lookups; cbn beta iota
  end.

Ltac mauto := repeat msplit.

Lemma for_each_post {A} (xs : list A) (body : A → M unit) (I : world → Prop) w :
  I w → (∀ x w, I w → post (body x) w (λ _ w', I w')) →
  post (storage_raw.for_each xs body) w (λ _ w', I w').
Proof.
  intros Hw Hbody. revert w Hw. induction xs as [|x xs IH]; intros w Hw; simpl.
  - by apply post_ret.
  - apply post_bind. eapply post_mono; [by apply Hbody|].
    intros [e|[]] w' Hw'; [done|]. by apply IH.
Qed.

(** * Histories of contract operations

    A client performs the operations of the contract one after the
    other on the instance it constructed; an operation that raised
    leaves the instance as it was at the raise. *)

Inductive call :=
| CallSize
| CallAppend (input_chunk target_chunk : ndarray)
| CallLock
| CallGet (idx : Z).

Definition perform (jpeg : Image → Image) (b : backend) (c : call) (w : world) : world :=
  match c with
  | CallSize => (size b w).2
  | CallAppend ic tc => (append jpeg b ic tc w).2
  | CallLock => (lock b w).2
  | CallGet idx => (get b idx w).2
  end.

Definition history (jpeg : Image → Image) (b : backend) (cs : list call) (w : world)
  : world :=
  foldl (λ w c, perform jpeg b c w) w cs.

Definition is_lock (c : call) : bool :=
  match c with CallLock => true | _ => false end.

(** The key of the flag that [lock] writes and [__getitem__] reads in
    backend [b]: the name [__locked] in the body of the subclass. *)
Definition lock_key (b : backend) : string := mangle (class_name b) "__locked".

(** The message of the explicit [raise] in [__getitem__]. *)
Definition access_denied (b : backend) : string :=
  match b with
  | Container => "HDF5 file is not locked. Access denied."
  | MappedArray => "Memory-mapped file is not locked. Access denied."
  | FlatFile => "Raw file is not locked. Access denied."
  end.

Ltac eval_lock_key :=
  change (lock_key Container) with "_storage_hdf5__locked" in *;
  change (lock_key MappedArray) with "_storage_memmap__locked" in *;
  change (lock_key FlatFile) with "_storage_raw__locked" in *.

(** ** The lock flag along a history *)


(** ** The lock flag along a history *)

Lemma size_keeps_flag b w :
  post (size b) w (λ _ w', self w' !! lock_key b = self w !! lock_key b).
Proof.
  destruct b; eval_lock_key; cbn [size];
    [unfold storage_hdf5.dataset_size
    |unfold storage_memmap.dataset_size
    |unfold storage_raw.dataset_size]; mauto; done.
Qed.

Lemma get_keeps_world b idx w : post (get b idx) w (λ _ w', w' = w).
Proof.
  destruct b; cbn [get];
    [unfold storage_hdf5.__getitem__
    |unfold storage_memmap.__getitem__
    |unfold storage_raw.__getitem__]; mauto; done.
Qed.

Lemma save_pair_keeps_self jpeg ic tc l idx w :
  post (storage_raw.save_pair jpeg ic tc l idx) w (λ _ w', self w' = self w).
Proof. unfold storage_raw.save_pair. mauto; cbn [self]; done. Qed.

Lemma append_keeps_flag jpeg b ic tc w :
  post (append jpeg b ic tc) w (λ _ w', self w' !! lock_key b = self w !! lock_key b).
Proof.
  destruct b; eval_lock_key; cbn [append].
  - unfold storage_hdf5.append. mauto; done.
  - unfold storage_memmap.append. mauto; done.
  - unfold storage_raw.append. mauto; try done.
    eapply post_mono.
    { apply (for_each_post _ _ (λ w', self w' = self w)); [done|].
      intros x w1 Hw1. eapply post_mono; [apply save_pair_keeps_self|].
      intros r w2 Hw2. cbn beta in *. congruence. }
    intros [e|[]] w' Hw'; cbn beta iota; [by rewrite Hw'|].
    mauto; rewrite ?Hw'; try done.
    all: try by simpl_map; rewrite Hw'.
Qed.

Lemma lock_sets_flag b w :
  post (lock b) w (λ r w',
    match r with
    | inr _ => self w' !! lock_key b = Some (VBool true)
    | inl _ => self w' !! lock_key b = self w !! lock_key b
    end).
Proof.
  destruct b; eval_lock_key; cbn [lock];
    [unfold storage_hdf5.lock|unfold storage_memmap.lock|unfold storage_raw.lock];
    mauto; cbn [self fs]; try simpl_map; done.
Qed.

Lemma perform_keeps_flag jpeg b c w :
  is_lock c = false →
  self (perform jpeg b c w) !! lock_key b = self w !! lock_key b.
Proof.
  destruct c; [| | done |]; intros _; cbn [perform].
  - apply (size_keeps_flag b w).
  - apply (append_keeps_flag jpeg b _ _ w).
  - by rewrite (get_keeps_world b idx w).
Qed.

Lemma perform_keeps_locked jpeg b c w :
  self w !! lock_key b = Some (VBool true) →
  self (perform jpeg b c w) !! lock_key b = Some (VBool true).
Proof.
  intros Hk. destruct c; [by rewrite perform_keeps_flag..| |by rewrite perform_keeps_flag].
  cbn [perform]. pose proof (lock_sets_flag b w) as H. unfold post in H.
  destruct (lock b w).1; [by rewrite H|done].
Qed.

Lemma history_cons jpeg b c cs w :
  history jpeg b (c :: cs) w = history jpeg b cs (perform jpeg b c w).
Proof. done. Qed.


Lemma history_keeps_locked jpeg b cs w :
  self w !! lock_key b = Some (VBool true) →
  self (history jpeg b cs w) !! lock_key b = Some (VBool true).
Proof.
  revert w. induction cs as [|c cs IH]; intros w Hk; [done|].
  rewrite history_cons. apply IH. by apply perform_keeps_locked.
Qed.

Lemma history_keeps_unlocked jpeg b cs w :
  forallb (λ c, negb (is_lock c)) cs = true →
  self (history jpeg b cs w) !! lock_key b = self w !! lock_key b.
Proof.
  revert w. induction cs as [|c cs IH]; intros w Hcs; [done|].
  cbn in Hcs. apply andb_prop in Hcs as [Hc Hcs].
  rewrite history_cons, IH by done. apply perform_keeps_flag. by destruct (is_lock c).
Qed.

Lemma history_flag_cases jpeg b cs w :
  self w !! lock_key b = None →
  self (history jpeg b cs w) !! lock_key b = None ∨
  self (history jpeg b cs w) !! lock_key b = Some (VBool true).
Proof.
  revert w. induction cs as [|c cs IH]; intros w Hk; [by left|].
  rewrite history_cons. destruct (is_lock c) eqn:Hc.
  - destruct c; try done. cbn [perform].
    pose proof (lock_sets_flag b w) as H. unfold post in H.
    destruct (lock b w).1.
    + apply IH. by rewrite H.
    + right. by apply history_keeps_locked.
  - apply IH. by rewrite perform_keeps_flag.
Qed.

(** * The place of the artifact (lines 53, 91, 141) *)

(** Where backend [b] puts its artifact: the container file, or the
    directory that holds the mapped files or the two image directories. *)
Definition artifact_location (b : backend) (config : Config) : string :=
  match b with
  | Container => hdf5_filename config
  | _ => artifact_stem config
  end.

(** The location the same expressions would give if [rstrip(".txt")]
    removed the suffix [.txt]. *)
Definition intended_location (b : backend) (stem : string) : string :=
  match b with
  | Container => stem +:+ ".h5"
  | _ => stem
  end.

(** C5, at the annotation file [data/test.txt]: the code strips the
    characters [t], [x] and [.] from the right end, not the suffix [.txt];
    every backend puts its artifact under [data/tes], and nothing is
    created under [data/test]. *)
Theorem artifact_location_eats_stem (b : backend) :
  let config := mkConfig "data/test.txt" 1 [1; 1] 1 in
  artifact_stem config = "data/tes" ∧
  ∃ w, construct b config (fresh ∅) = (inr tt, w) ∧
       artifact_location b config = intended_location b "data/tes" ∧
       is_Some (fs w !! intended_location b "data/tes") ∧
       fs w !! intended_location b "data/test" = None.
Proof.
  cbv zeta. split; [reflexivity|].
  destruct b; eexists; (split; [vm_compute; reflexivity|]);
    (split; [reflexivity|]); (split; [vm_compute; eauto|vm_compute; reflexivity]).
Qed.

(** * Construction of the flat-file backend (lines 138-149) *)




Lemma makedirs_taken name f :
  is_Some (f !! name) → Str.is_empty name = false →
  Os.makedirs name false f = (inl FileExistsError, f).
Proof.
  intros [n Hn] Hne. unfold Os.makedirs. rewrite Hne, Hn. by destruct n.
Qed.




(** * Construction of the container backend (lines 50-61) *)

(** The arrays of a container after [create_dataset(key, shape)] inside
    [try ... except ValueError: pass]: an array of that name is kept as it
    is, a missing one is created and filled with zeros. *)
Definition ensure_dataset (key : string) (shp : list nat) (ds : gmap string ndarray)
  : gmap string ndarray :=
  match ds !! key with
  | Some _ => ds
  | None => <[key := Np.zeros (hd 0 shp) (tl shp)]> ds
  end.

Lemma ensure_dataset_keeps key shp ds k a :
  ds !! k = Some a → ensure_dataset key shp ds !! k = Some a.
Proof.
  intros Hk. unfold ensure_dataset. destruct (ds !! key) eqn:E; [done|].
  rewrite lookup_insert_ne; [done|]. intros <-. congruence.
Qed.

Lemma ensure_dataset_present key shp ds : is_Some (ensure_dataset key shp ds !! key).
Proof.
  unfold ensure_dataset. destruct (ds !! key) eqn:E; [by rewrite E|].
  rewrite lookup_insert_eq. by eexists.
Qed.

Lemma ensure_dataset_fresh key shp ds k :
  k ≠ key → ensure_dataset key shp ds !! k = ds !! k.
Proof.
  intros Hk. unfold ensure_dataset. destruct (ds !! key); [done|].
  by rewrite lookup_insert_ne.
Qed.

Lemma try_create_dataset name key shp ds w (Q : result unit → world → Prop) :
  self w !! "dataset" = Some (VH5File name H5Append) →
  fs w !! name = Some (FileH5 ds) →
  Q (inr tt) (mkWorld (self w) (<[name := FileH5 (ensure_dataset key shp ds)]> (fs w))) →
  post (except_ValueError_pass
          (let* d := storage_hdf5.get "dataset" in
           lift_fs (H5.create_dataset d key shp))) w Q.
Proof.
  intros Hd Hf HQ. apply post_except_ValueError_pass. mrun.
  unfold ensure_dataset in HQ. unfold H5.create_dataset, H5.arrays_of.
  destruct (ds !! key) as [a|] eqn:E.
  - mcall (by rewrite Hf, E). rewrite insert_id in HQ by done. by destruct w.
  - mcall (by rewrite Hf, E). done.
Qed.

Lemma hdf5_init_run config f ds0 :
  (f !! hdf5_filename config = Some (FileH5 ds0) ∨
   f !! hdf5_filename config = None ∧ ds0 = ∅) →
  storage_hdf5.__init__ config (fresh f) =
    (inr tt,
     mkWorld (<["dataset" := VH5File (hdf5_filename config) H5Append]>
                (<["_storage_class__locked" := VBool false]>
                   (<["pos" := VInt 0]> (<["config" := VConfig config]> ∅))))
             (<[hdf5_filename config :=
                  FileH5 (ensure_dataset "target" (storage_hdf5.target_shape config)
                            (ensure_dataset "input" (storage_hdf5.input_shape config) ds0))]> f)).
Proof.
  intros Hf. apply post_eq.
  unfold storage_hdf5.__init__, storage_class.__init__, fresh. eval_names. mrun.
  set (f0 := <[hdf5_filename config := FileH5 ds0]> f).
  mcall (instantiate (1 := f0); instantiate (1 := inr (VH5File (hdf5_filename config) H5Append));
         unfold H5.File, f0; destruct Hf as [Hf|[Hf ->]]; rewrite Hf; [by rewrite insert_id|done]).
  mrun.
  eapply try_create_dataset; [by simpl_map|apply lookup_insert_eq|].
  eapply try_create_dataset; [by simpl_map|apply lookup_insert_eq|].
  cbn [self fs]. unfold f0. by rewrite !insert_insert_eq.
Qed.



(** * Reads after a successful [lock] *)

(** The condition the specification calls NotLocked is signalled with
    [AttributeError] (lines 83, 133 and 172). *)
Definition NotLocked {A} (r : result A) : Prop := ∃ msg, r = inl (AttributeError msg).

Lemma Np_getitem_not_attribute_error a idx : ¬ NotLocked (Np.getitem a idx).
Proof. unfold Np.getitem. intros [msg H]. repeat case_match; simplify_eq. Qed.

Lemma H5_getitem_not_attribute_error h key idx f :
  ¬ NotLocked (H5.getitem h key idx f).1.
Proof.
  unfold H5.getitem, H5.dataset, H5.arrays_of. intros [msg H].
  repeat case_match; simplify_eq/=; try done;
    by eapply Np_getitem_not_attribute_error; eexists.
Qed.

Lemma Memmap_getitem_not_attribute_error m idx f :
  ¬ NotLocked (Memmap.getitem m idx f).1.
Proof.
  unfold Memmap.getitem, Memmap.mapped. intros [msg H].
  repeat case_match; simplify_eq/=; try done;
    by eapply Np_getitem_not_attribute_error; eexists.
Qed.

Lemma ImageFile_open_not_attribute_error path f :
  ¬ NotLocked (ImageFile.open path f).1.
Proof. unfold ImageFile.open. intros [msg H]. repeat case_match; simplify_eq/=; done. Qed.

Lemma fromarray_not_attribute_error r : ¬ NotLocked (Pil.fromarray r).
Proof.
  unfold Pil.fromarray, Pil.build, Pil.infer_mode, Pil.size_of. intros [msg H].
  repeat case_match; simplify_eq.
Qed.

(** The mappings of a locked [storage_memmap]: both read-only, over
    files that [np.memmap(..., mode='r')] accepts. *)
Definition mappable (p : string) (shp : list nat) (f : gmap string node) : Prop :=
  ∃ bytes, f !! p = Some (FileBin bytes) ∧
           ¬ length bytes < Memmap.nbytes shp ∧ length bytes ≠ 0.

Lemma open_r_mappable p shp f :
  mappable p shp f → Memmap.open_r p shp f = (inr (VMemmap p false shp), f).
Proof.
  intros (bytes & Hf & H1 & H2). unfold Memmap.open_r. rewrite Hf.
  by rewrite !decide_False.
Qed.

Lemma open_r_success p shp f v f' :
  Memmap.open_r p shp f = (inr v, f') →
  v = VMemmap p false shp ∧ f' = f ∧ mappable p shp f.
Proof.
  unfold Memmap.open_r, mappable. intros H.
  repeat case_match; simplify_eq. eauto 10.
Qed.

Definition memmap_locked (w : world) : Prop :=
  ∃ p q c,
    self w !! "input_path" = Some (VStr p) ∧
    self w !! "target_path" = Some (VStr q) ∧
    self w !! "config" = Some (VConfig c) ∧
    self w !! "input" = Some (VMemmap p false (storage_memmap.input_shape c)) ∧
    self w !! "target" = Some (VMemmap q false (storage_memmap.target_shape c)) ∧
    mappable p (storage_memmap.input_shape c) (fs w) ∧
    mappable q (storage_memmap.target_shape c) (fs w).

(** What [__getitem__] needs besides the flag. *)
Definition attributes_present (b : backend) (w : world) : Prop :=
  match b with
  | Container => is_Some (self w !! "dataset")
  | MappedArray => True
  | FlatFile =>
      is_Some (self w !! "idx2input") ∧ is_Some (self w !! "idx2target") ∧
      is_Some (self w !! "input_path") ∧ is_Some (self w !! "target_path")
  end.

Definition readable (b : backend) (w : world) : Prop :=
  self w !! lock_key b = Some (VBool true) ∧
  attributes_present b w ∧
  match b with MappedArray => memmap_locked w | _ => True end.

Lemma not_attribute_error_inl {A B} (r : result A) e :
  ¬ NotLocked r → r = inl e → ¬ NotLocked (inl e : result B).
Proof. intros Hn -> [msg ?]. apply Hn. exists msg. congruence. Qed.

Ltac not_attribute_error :=
  match goal with
  | |- ¬ NotLocked (inr _) => by intros [? ?]
  | E : ?x = inl ?e |- ¬ NotLocked (inl ?e) =>
      eapply not_attribute_error_inl; [|exact E];
      first [ apply H5_getitem_not_attribute_error
            | apply Memmap_getitem_not_attribute_error
            | apply ImageFile_open_not_attribute_error
            | apply fromarray_not_attribute_error ]
  | |- ¬ NotLocked (inl _) => by intros [? ?]
  end.

Lemma get_readable b idx w : readable b w → ¬ NotLocked (get b idx w).1.
Proof.
  intros (Hflag & Hattrs & Hmm).
  assert (post (get b idx) w (λ r _, ¬ NotLocked r)) as H; [|exact H].
  destruct b; eval_lock_key; cbn [get attributes_present] in *.
  - destruct Hattrs as [d Hd].
    unfold storage_hdf5.__getitem__. mauto; cbn [truthy negb] in *; try done;
      not_attribute_error.
  - destruct Hmm as (p & q & c & Hp & Hq & Hc & Hi & Ht & _).
    unfold storage_memmap.__getitem__. mauto; cbn [truthy negb] in *; try done;
      not_attribute_error.
  - destruct Hattrs as ([? Hi] & [? Ht] & [? Hip] & [? Htp]).
    unfold storage_raw.__getitem__. mauto; cbn [truthy negb] in *; try done;
      not_attribute_error.
Qed.

Lemma post_run {A} (m : M A) w r w' (Q : result A → world → Prop) :
  post m w Q → m w = (r, w') → Q r w'.
Proof. intros H. by apply post_elim. Qed.

(** After a constructor returned: the attributes [__getitem__] reads
    are there, the flag of the subclass is not, and [pos] is 0. *)
Lemma construct_present b config f w0 :
  construct b config (fresh f) = (inr tt, w0) →
  attributes_present b w0 ∧ self w0 !! lock_key b = None ∧
  self w0 !! "pos" = Some (VInt 0).
Proof.
  intros Hrun.
  assert (post (construct b config) (fresh f) (λ r w',
            r = inr tt →
            attributes_present b w' ∧ self w' !! lock_key b = None ∧
            self w' !! "pos" = Some (VInt 0))) as Hpost;
    [|by apply (post_run _ _ _ _ _ Hpost Hrun)].
  clear Hrun.
  destruct b; eval_lock_key; cbn [construct attributes_present];
    [unfold storage_hdf5.__init__|unfold storage_memmap.__init__
    |unfold storage_raw.__init__]; unfold storage_class.__init__, fresh;
    eval_names; mauto; cbn [self fs]; try simpl_map; try done; eauto 10.
Qed.

Lemma size_keeps_self b w : post (size b) w (λ _ w', self w' = self w).
Proof.
  destruct b; cbn [size];
    [unfold storage_hdf5.dataset_size
    |unfold storage_memmap.dataset_size
    |unfold storage_raw.dataset_size]; mauto; done.
Qed.

Lemma append_keeps_present jpeg b ic tc w :
  post (append jpeg b ic tc) w (λ _ w', ∀ k, is_Some (self w !! k) → is_Some (self w' !! k)).
Proof.
  destruct b; cbn [append].
  - unfold storage_hdf5.append. mauto; cbn [self]; try done.
    intros k Hk. rewrite lookup_insert. by case_decide.
  - unfold storage_memmap.append. mauto; cbn [self]; try done.
    intros k Hk. rewrite lookup_insert. by case_decide.
  - unfold storage_raw.append. mauto; try done.
    eapply post_mono.
    { apply (for_each_post _ _ (λ w', self w' = self w)); [done|].
      intros x w1 Hw1. eapply post_mono; [apply save_pair_keeps_self|].
      intros r w2 Hw2. cbn beta in *. congruence. }
    intros [e|[]] w' Hw'; cbn beta iota; [by rewrite Hw'|].
    mauto; rewrite ?Hw'; try done.
    intros k Hk. rewrite lookup_insert. by case_decide.
Qed.

Lemma lock_keeps_present b w :
  b ≠ MappedArray →
  post (lock b) w (λ _ w', ∀ k, is_Some (self w !! k) → is_Some (self w' !! k)).
Proof.
  intros Hb. destruct b; [|done|]; cbn [lock];
    [unfold storage_hdf5.lock|unfold storage_raw.lock]; mauto; cbn [self]; try done.
  all: intros k Hk; rewrite ?lookup_insert; repeat case_decide; done.
Qed.

Lemma attributes_present_mono b w w' :
  (∀ k, is_Some (self w !! k) → is_Some (self w' !! k)) →
  attributes_present b w → attributes_present b w'.
Proof.
  intros H. destruct b; cbn; [apply H|done|].
  intros (?&?&?&?). split_and!; by apply H.
Qed.

Lemma perform_keeps_present jpeg b c w :
  attributes_present b w → attributes_present b (perform jpeg b c w).
Proof.
  assert (b = MappedArray ∨ b ≠ MappedArray) as [->|Hb]
    by (destruct b; auto); [done|].
  intros Hp. destruct c; cbn [perform].
  - pose proof (size_keeps_self b w) as H. unfold post in H.
    eapply attributes_present_mono; [|done]. intros k. by rewrite H.
  - eapply attributes_present_mono; [|done]. apply (append_keeps_present jpeg b _ _ w).
  - eapply attributes_present_mono; [|done]. by apply (lock_keeps_present b w).
  - by rewrite (get_keeps_world b idx w).
Qed.

Lemma history_keeps_present jpeg b cs w :
  attributes_present b w → attributes_present b (history jpeg b cs w).
Proof.
  revert w. induction cs as [|c cs IH]; intros w Hw; [done|].
  rewrite history_cons. by apply IH, perform_keeps_present.
Qed.

Lemma size_keeps_world b w : post (size b) w (λ _ w', w' = w).
Proof.
  destruct b; cbn [size];
    [unfold storage_hdf5.dataset_size
    |unfold storage_memmap.dataset_size
    |unfold storage_raw.dataset_size]; mauto; done.
Qed.

Lemma setslice_read_only_mapping p shp l r src f res f' :
  Memmap.setslice (VMemmap p false shp) l r src f = (res, f') →
  (∃ e, res = inl e) ∧ f' = f.
Proof.
  unfold Memmap.setslice, Memmap.mapped. intros H.
  repeat case_match; simplify_eq; eauto.
Qed.

Ltac use_open_r :=
  repeat match goal with
         | H : mappable ?p ?shp ?f, E : Memmap.open_r ?p ?shp ?f = _ |- _ =>
             rewrite (open_r_mappable p shp f H) in E; simplify_eq
         | E : Memmap.open_r _ _ _ = (inr _, _) |- _ =>
             apply open_r_success in E as (-> & -> & ?)
         | E : Memmap.setslice (VMemmap _ false _) _ _ _ _ = _ |- _ =>
             apply setslice_read_only_mapping in E as [[? ?] ?]; simplify_eq
         end.

Lemma lock_memmap_locked w :
  post storage_memmap.lock w (λ r w', r = inr tt → memmap_locked w').
Proof.
  unfold storage_memmap.lock. mauto; cbn [self fs]; try done.
  intros _. use_open_r. unfold memmap_locked.
  eexists _, _, _. cbn [self fs]. simpl_map. split_and!; done.
Qed.

Lemma lock_keeps_memmap_locked w :
  memmap_locked w → post storage_memmap.lock w (λ _ w', memmap_locked w').
Proof.
  intros (p & q & c & Hp & Hq & Hc & Hi & Ht & Hmi & Hmt).
  unfold storage_memmap.lock. mauto; cbn [self fs]; use_open_r.
  unfold memmap_locked. eexists _, _, _. cbn [self fs]. simpl_map.
  split_and!; done.
Qed.

Lemma append_keeps_memmap_locked ic tc w :
  memmap_locked w → post (storage_memmap.append ic tc) w (λ _ w', memmap_locked w').
Proof.
  intros Hl. pose proof Hl as (p & q & c & Hp & Hq & Hc & Hi & Ht & Hmi & Hmt).
  unfold storage_memmap.append. mauto; cbn [self fs]; use_open_r; try done.
  all: by destruct w.
Qed.

Lemma perform_keeps_memmap_locked jpeg c w :
  memmap_locked w → memmap_locked (perform jpeg MappedArray c w).
Proof.
  intros Hl. destruct c; cbn [perform].
  - by rewrite (size_keeps_world MappedArray w).
  - by apply (append_keeps_memmap_locked _ _ w).
  - by apply (lock_keeps_memmap_locked w).
  - by rewrite (get_keeps_world MappedArray idx w).
Qed.

Lemma perform_readable jpeg b c w : readable b w → readable b (perform jpeg b c w).
Proof.
  intros (Hflag & Hattrs & Hmm). split_and!.
  - by apply perform_keeps_locked.
  - by apply perform_keeps_present.
  - destruct b; [done| |done]. by apply perform_keeps_memmap_locked.
Qed.

Lemma history_readable jpeg b cs w : readable b w → readable b (history jpeg b cs w).
Proof.
  revert w. induction cs as [|c cs IH]; intros w Hw; [done|].
  rewrite history_cons. by apply IH, perform_readable.
Qed.

Lemma lock_readable b w w' :
  attributes_present b w → lock b w = (inr tt, w') → readable b w'.
Proof.
  intros Hattrs Hrun. split_and!.
  - by apply (post_run _ _ _ _ _ (lock_sets_flag b w) Hrun).
  - destruct b; [| done |].
    + assert (post storage_hdf5.lock w (λ r w', r = inr tt → is_Some (self w' !! "dataset")))
        as Hpost; [|by apply (post_run _ _ _ _ _ Hpost Hrun)].
      unfold storage_hdf5.lock. mauto; cbn [self]; simpl_map; done.
    + eapply attributes_present_mono; [|done].
      by apply (post_run _ _ _ _ _ (lock_keeps_present FlatFile w ltac:(done)) Hrun).
  - destruct b; [done| |done].
    by apply (post_run _ _ _ _ _ (lock_memmap_locked w) Hrun).
Qed.

(** * Reads before [lock] *)

Lemma get_unlocked b idx w :
  self w !! lock_key b = None →
  get b idx w = (inl (no_attribute (class_name b) (lock_key b)), w).
Proof.
  intros Hk. apply post_eq.
  destruct b; eval_lock_key; cbn [get];
    [unfold storage_hdf5.__getitem__
    |unfold storage_memmap.__getitem__
    |unfold storage_raw.__getitem__]; mrun; by rewrite Hk.
Qed.

Lemma get_never_access_denied b idx w :
  self w !! lock_key b = None ∨ self w !! lock_key b = Some (VBool true) →
  (get b idx w).1 ≠ inl (AttributeError (access_denied b)).
Proof.
  intros [Hk|Hk]; [by rewrite get_unlocked; destruct b|].
  assert (post (get b idx) w (λ r _, r ≠ inl (AttributeError (access_denied b))))
    as H; [|exact H].
  destruct b; eval_lock_key; cbn [get access_denied];
    [unfold storage_hdf5.__getitem__
    |unfold storage_memmap.__getitem__
    |unfold storage_raw.__getitem__]; mauto; cbn [truthy negb] in *; try done.
  all: intros Heq;
    first
      [ by vm_compute in Heq
      | simplify_eq;
        match goal with
        | E : _ = inl (AttributeError _) |- _ =>
            first [ eapply H5_getitem_not_attribute_error; eexists; exact E
                  | eapply Memmap_getitem_not_attribute_error; eexists; exact E
                  | eapply ImageFile_open_not_attribute_error; eexists; exact E
                  | eapply fromarray_not_attribute_error; eexists; exact E ]
        end ].
Qed.

Lemma construct_base_flag b config f w0 :
  construct b config (fresh f) = (inr tt, w0) →
  self w0 !! mangle storage_class.cls "__locked" = Some (VBool false).
Proof.
  intros Hrun.
  assert (post (construct b config) (fresh f) (λ r w',
            r = inr tt → self w' !! "_storage_class__locked" = Some (VBool false)))
    as Hpost; [|by apply (post_run _ _ _ _ _ Hpost Hrun)].
  clear Hrun.
  destruct b; cbn [construct];
    [unfold storage_hdf5.__init__|unfold storage_memmap.__init__
    |unfold storage_raw.__init__]; unfold storage_class.__init__, fresh;
    eval_names; mauto; cbn [self fs]; try simpl_map; done.
Qed.

(** C3: on an instance a constructor returned, [get] fails with
    [AttributeError] (NotLocked) as long as [lock] was not called, whatever
    else was called; once a call of [lock] returned, no later [get] fails
    with [AttributeError], whatever was called before and after. *)
Theorem lock_gates_get (jpeg : Image → Image) (b : backend) (config : Config)
    (f : gmap string node) (w0 : world) :
  construct b config (fresh f) = (inr tt, w0) →
  (∀ cs idx, forallb (λ c, negb (is_lock c)) cs = true →
     NotLocked (get b idx (history jpeg b cs w0)).1) ∧
  (∀ cs1 cs2 w2 idx, lock b (history jpeg b cs1 w0) = (inr tt, w2) →
     ¬ NotLocked (get b idx (history jpeg b cs2 w2)).1).
Proof.
  intros Hc. apply construct_present in Hc as (Hattrs & Hflag & _). split.
  - intros cs idx Hcs. rewrite get_unlocked; [by eexists|].
    by rewrite history_keeps_unlocked.
  - intros cs1 cs2 w2 idx Hlock. apply get_readable, history_readable.
    eapply lock_readable; [|done]. by apply history_keeps_present.
Qed.

Lemma lock_gates_get_witness :
  let config := mkConfig "data/train.txt" 2 [1; 1] 2 in
  let w0 := (construct FlatFile config (fresh ∅)).2 in
  (∀ cs idx, forallb (λ c, negb (is_lock c)) cs = true →
     NotLocked (get FlatFile idx (history id FlatFile cs w0)).1) ∧
  (∀ cs1 cs2 w2 idx, lock FlatFile (history id FlatFile cs1 w0) = (inr tt, w2) →
     ¬ NotLocked (get FlatFile idx (history id FlatFile cs2 w2)).1).
Proof.
  cbv zeta.
  apply (lock_gates_get id FlatFile (mkConfig "data/train.txt" 2 [1; 1] 2) ∅).
  vm_compute. reflexivity.
Defined.

(** * The flag of the base class and the flag of the subclass *)

(** C10: in every backend the attribute that [lock] writes and
    [__getitem__] reads is the name-mangled key of the subclass, another
    key than the one [storage_class.__init__] sets to [False].  On a
    constructed instance that key is absent until [lock] is called, [get]
    then fails with the missing-attribute error, and in no state a history
    of contract operations reaches does [get] fail with the message of the
    explicit [raise]. *)
Theorem lock_flag_is_subclass_private (jpeg : Image → Image) (b : backend)
    (config : Config) (f : gmap string node) (w0 : world) :
  construct b config (fresh f) = (inr tt, w0) →
  lock_key b ≠ mangle storage_class.cls "__locked" ∧
  self w0 !! mangle storage_class.cls "__locked" = Some (VBool false) ∧
  (∀ w w', lock b w = (inr tt, w') → self w' !! lock_key b = Some (VBool true)) ∧
  (∀ cs idx, forallb (λ c, negb (is_lock c)) cs = true →
     let w := history jpeg b cs w0 in
     self w !! lock_key b = None ∧
     get b idx w = (inl (no_attribute (class_name b) (lock_key b)), w)) ∧
  (∀ cs idx,
     (get b idx (history jpeg b cs w0)).1 ≠ inl (AttributeError (access_denied b))).
Proof.
  intros Hc. pose proof (construct_base_flag _ _ _ _ Hc) as Hbase.
  apply construct_present in Hc as (_ & Hflag & _). split_and!.
  - by destruct b.
  - done.
  - intros w w' Hrun. by apply (post_run _ _ _ _ _ (lock_sets_flag b w) Hrun).
  - intros cs idx Hcs w.
    assert (self w !! lock_key b = None) as Hk
      by by (unfold w; rewrite history_keeps_unlocked).
    split; [done|]. by apply get_unlocked.
  - intros cs idx. by apply get_never_access_denied, history_flag_cases.
Qed.

Lemma lock_flag_is_subclass_private_witness :
  let config := mkConfig "data/train.txt" 2 [1; 1] 2 in
  let w0 := (construct Container config (fresh ∅)).2 in
  lock_key Container ≠ mangle storage_class.cls "__locked" ∧
  self w0 !! mangle storage_class.cls "__locked" = Some (VBool false) ∧
  (∀ w w', lock Container w = (inr tt, w') →
     self w' !! lock_key Container = Some (VBool true)) ∧
  (∀ cs idx, forallb (λ c, negb (is_lock c)) cs = true →
     let w := history id Container cs w0 in
     self w !! lock_key Container = None ∧
     get Container idx w =
       (inl (no_attribute (class_name Container) (lock_key Container)), w)) ∧
  (∀ cs idx,
     (get Container idx (history id Container cs w0)).1 ≠
       inl (AttributeError (access_denied Container))).
Proof.
  cbv zeta.
  apply (lock_flag_is_subclass_private id Container
           (mkConfig "data/train.txt" 2 [1; 1] 2) ∅).
  vm_compute. reflexivity.
Defined.

(** * The write-step counter and the lock flag along a history *)

(** [ceil(n / c)] *)
Definition ceil_div (n c : nat) : Z := ((Z.of_nat n + Z.of_nat c - 1) / Z.of_nat c)%Z.

(** Number of calls of [append] in a history that returned. *)
Fixpoint successful_appends (jpeg : Image → Image) (b : backend) (cs : list call)
    (w : world) : nat :=
  match cs with
  | [] => 0
  | c :: cs' =>
      match c with
      | CallAppend ic tc =>
          match (append jpeg b ic tc w).1 with
          | inr _ => 1
          | inl _ => 0
          end
      | _ => 0
      end + successful_appends jpeg b cs' (perform jpeg b c w)
  end.

Lemma append_counts jpeg b ic tc w p :
  self w !! "pos" = Some (VInt p) →
  post (append jpeg b ic tc) w (λ r w',
    self w' !! "pos" = Some (VInt (match r with inr _ => p + 1 | inl _ => p end))).
Proof.
  intros Hp. destruct b; cbn [append].
  - unfold storage_hdf5.append. mauto; cbn [self]; try simpl_map; done.
  - unfold storage_memmap.append. mauto; cbn [self]; try simpl_map; done.
  - unfold storage_raw.append. mauto; try done.
    eapply post_mono.
    { apply (for_each_post _ _ (λ w', self w' = self w)); [done|].
      intros x w1 Hw1. eapply post_mono; [apply save_pair_keeps_self|].
      intros r w2 Hw2. cbn beta in *. congruence. }
    intros [e|[]] w' Hw'; cbn beta iota; [by rewrite Hw'|].
    mauto; rewrite ?Hw' in *; cbn [self]; try simpl_map; try done; congruence.
Qed.

Lemma lock_keeps_pos b w :
  post (lock b) w (λ _ w', self w' !! "pos" = self w !! "pos").
Proof.
  destruct b; cbn [lock];
    [unfold storage_hdf5.lock|unfold storage_memmap.lock|unfold storage_raw.lock];
    mauto; cbn [self fs]; try simpl_map; done.
Qed.

Lemma history_counts jpeg b cs w p :
  self w !! "pos" = Some (VInt p) →
  self (history jpeg b cs w) !! "pos" =
    Some (VInt (p + Z.of_nat (successful_appends jpeg b cs w))).
Proof.
  revert w p. induction cs as [|c cs IH]; intros w p Hp.
  { cbn. by rewrite Z.add_0_r. }
  rewrite history_cons. cbn [successful_appends]. destruct c; cbn [perform].
  - rewrite (IH _ p); [done|]. by rewrite (size_keeps_world b w).
  - pose proof (append_counts jpeg b input_chunk target_chunk w p Hp) as H.
    unfold post in H. destruct (append jpeg b input_chunk target_chunk w).1.
    + rewrite (IH _ p); [done|]. done.
    + rewrite (IH _ (p + 1)%Z); [|done]. do 2 f_equal. lia.
  - rewrite (IH _ p); [done|]. by rewrite (lock_keeps_pos b w).
  - rewrite (IH _ p); [done|]. by rewrite (get_keeps_world b idx w).
Qed.

(** C8, as the code has it: [pos] starts at 0 and a call of [append]
    that returns increases it by exactly 1, so that [pos] is the number of
    appends that returned (no bound by [ceil(N / C)] is enforced); the flag
    of the subclass is absent after construction, and once a call of [lock]
    returned it is [True] and stays [True] along every further history. *)
Theorem counter_and_flag_along_history (jpeg : Image → Image) (b : backend)
    (config : Config) (f : gmap string node) (w0 : world) :
  construct b config (fresh f) = (inr tt, w0) →
  self w0 !! "pos" = Some (VInt 0) ∧
  self w0 !! lock_key b = None ∧
  (∀ cs ic tc w',
     append jpeg b ic tc (history jpeg b cs w0) = (inr tt, w') →
     ∃ p, self (history jpeg b cs w0) !! "pos" = Some (VInt p) ∧
          self w' !! "pos" = Some (VInt (p + 1))) ∧
  (∀ cs, self (history jpeg b cs w0) !! "pos" =
           Some (VInt (Z.of_nat (successful_appends jpeg b cs w0)))) ∧
  (∀ cs1 cs2 w2,
     lock b (history jpeg b cs1 w0) = (inr tt, w2) →
     self w2 !! lock_key b = Some (VBool true) ∧
     self (history jpeg b cs2 w2) !! lock_key b = Some (VBool true)).
Proof.
  intros Hc. apply construct_present in Hc as (_ & Hflag & Hpos).
  split_and!; [done..| | |].
  - intros cs ic tc w' Hrun.
    pose proof (history_counts jpeg b cs w0 0 Hpos) as Hcs.
    eexists. split; [exact Hcs|].
    by apply (post_run _ _ _ _ _ (append_counts jpeg b ic tc _ _ Hcs) Hrun).
  - intros cs. by rewrite (history_counts jpeg b cs w0 0 Hpos).
  - intros cs1 cs2 w2 Hrun.
    pose proof (post_run _ _ _ _ _ (lock_sets_flag b _) Hrun) as Hk.
    split; [done|]. by apply history_keeps_locked.
Qed.

Lemma counter_and_flag_along_history_witness :
  let config := mkConfig "data/train.txt" 2 [1; 1] 2 in
  let w0 := (construct MappedArray config (fresh ∅)).2 in
  self w0 !! "pos" = Some (VInt 0) ∧
  self w0 !! lock_key MappedArray = None ∧
  (∀ cs ic tc w',
     append id MappedArray ic tc (history id MappedArray cs w0) = (inr tt, w') →
     ∃ p, self (history id MappedArray cs w0) !! "pos" = Some (VInt p) ∧
          self w' !! "pos" = Some (VInt (p + 1))) ∧
  (∀ cs, self (history id MappedArray cs w0) !! "pos" =
           Some (VInt (Z.of_nat (successful_appends id MappedArray cs w0)))) ∧
  (∀ cs1 cs2 w2,
     lock MappedArray (history id MappedArray cs1 w0) = (inr tt, w2) →
     self w2 !! lock_key MappedArray = Some (VBool true) ∧
     self (history id MappedArray cs2 w2) !! lock_key MappedArray = Some (VBool true)).
Proof.
  cbv zeta.
  apply (counter_and_flag_along_history id MappedArray
           (mkConfig "data/train.txt" 2 [1; 1] 2) ∅).
  vm_compute. reflexivity.
Defined.

(** C8 as stated fails: with [N = 1] and [C = 1], so [ceil(N / C) = 1],
    two calls of [append] on the container backend both return and leave
    [pos = 2]. *)
Lemma pos_exceeds_chunk_count :
  let config := mkConfig "data/train.txt" 1 [1; 1] 1 in
  let ic := mkArray [1; 1; 3] [["001"; "002"; "003"]%byte] in
  let tc := mkArray [1; 1] [["001"%byte]] in
  let w0 := (construct Container config (fresh ∅)).2 in
  let cs := [CallAppend ic tc; CallAppend ic tc] in
  construct Container config (fresh ∅) = (inr tt, w0) ∧
  successful_appends id Container cs w0 = 2 ∧
  self (history id Container cs w0) !! "pos" = Some (VInt 2) ∧
  ¬ (2 ≤ ceil_div (cfg_dataset_size config) (cfg_chunk_size config))%Z.
Proof. cbv zeta. split_and!; [by vm_compute..|]. vm_compute. by intros H. Qed.

(** * Paths of the artifacts are distinct *)

Lemma str_app_cons x a b : String x a +:+ b = String x (a +:+ b).
Proof. reflexivity. Qed.

Lemma str_length_app a b : String.length (a +:+ b) = String.length a + String.length b.
Proof.
  induction a as [|c a IH]; [done|].
  rewrite str_app_cons. cbn [String.length]. by rewrite IH.
Qed.

Lemma str_app_assoc a b c : (a +:+ b) +:+ c = a +:+ (b +:+ c).
Proof.
  induction a as [|x a IH]; [done|]. rewrite !str_app_cons. by rewrite IH.
Qed.

Lemma str_app_inj_r t a b : a +:+ t = b +:+ t → a = b.
Proof.
  revert b. induction a as [|x a IH]; intros [|y b] H.
  - done.
  - apply (f_equal String.length) in H. rewrite !str_length_app in H.
    cbn [String.length] in H. lia.
  - apply (f_equal String.length) in H. rewrite !str_length_app in H.
    cbn [String.length] in H. lia.
  - rewrite !str_app_cons in H. injection H as -> H. f_equal. by apply IH.
Qed.

Lemma jpg_png_distinct a b : a +:+ ".jpg" ≠ b +:+ ".png".
Proof.
  revert b. induction a as [|x a IH]; intros [|y b] H.
  - done.
  - apply (f_equal String.length) in H. rewrite !str_length_app in H.
    cbn [String.length] in H. lia.
  - apply (f_equal String.length) in H. rewrite !str_length_app in H.
    cbn [String.length] in H. lia.
  - rewrite !str_app_cons in H. injection H as -> H. by eapply IH.
Qed.

Lemma path_join_suffix d x : ∃ q, Str.path_join d x = q +:+ x.
Proof.
  unfold Str.path_join. destruct (Str.startswith_sep x || Str.is_empty d).
  - by exists "".
  - destruct (Str.endswith_sep d); [by exists d|].
    exists (d +:+ "/"). by rewrite str_app_assoc.
Qed.

Lemma path_join_inj d x y :
  Str.startswith_sep x = false → Str.startswith_sep y = false →
  Str.path_join d x = Str.path_join d y → x = y.
Proof.
  unfold Str.path_join. intros -> ->. cbn [orb].
  destruct (Str.is_empty d); [done|].
  destruct (Str.endswith_sep d); intros H.
  - by apply (inj (String.app d)) in H.
  - apply (inj (String.app d)) in H. by injection H.
Qed.

Definition input_file (d : string) (idx : Z) : string :=
  Str.path_join d ("input" +:+ pretty idx +:+ ".jpg").

Definition target_file (d : string) (idx : Z) : string :=
  Str.path_join d ("target" +:+ pretty idx +:+ ".png").

Lemma input_file_inj d i j : input_file d i = input_file d j → i = j.
Proof.
  intros H. apply path_join_inj in H; [|done..].
  apply (inj (String.app "input")) in H.
  apply str_app_inj_r in H. by apply (inj pretty) in H.
Qed.

Lemma target_file_inj d i j : target_file d i = target_file d j → i = j.
Proof.
  intros H. apply path_join_inj in H; [|done..].
  apply (inj (String.app "target")) in H.
  apply str_app_inj_r in H. by apply (inj pretty) in H.
Qed.

Lemma input_target_distinct d1 d2 i j : input_file d1 i ≠ target_file d2 j.
Proof.
  unfold input_file, target_file.
  destruct (path_join_suffix d1 ("input" +:+ pretty i +:+ ".jpg")) as [q1 ->].
  destruct (path_join_suffix d2 ("target" +:+ pretty j +:+ ".png")) as [q2 ->].
  rewrite <- !str_app_assoc. apply jpg_png_distinct.
Qed.

Lemma mapped_files_distinct d :
  Str.path_join d "input.npy" ≠ Str.path_join d "target.npy".
Proof. intros H. by apply path_join_inj in H. Qed.

(** * The state of an instance between construction and reads *)

Definition input_dir (config : Config) : string :=
  Str.path_join (artifact_stem config) "Input".
Definition target_dir (config : Config) : string :=
  Str.path_join (artifact_stem config) "Target".
Definition input_npy (config : Config) : string :=
  Str.path_join (artifact_stem config) "input.npy".
Definition target_npy (config : Config) : string :=
  Str.path_join (artifact_stem config) "target.npy".

(** The container holds both arrays. *)
Definition h5_ok (name : string) (f : gmap string node) : Prop :=
  ∃ ds, f !! name = Some (FileH5 ds) ∧ is_Some (ds !! "input") ∧ is_Some (ds !! "target").

(** A binary file of [n] bytes. *)
Definition bin_ok (p : string) (n : nat) (f : gmap string node) : Prop :=
  ∃ bytes, f !! p = Some (FileBin bytes) ∧ length bytes = n.

(** What the constructor of backend [b] establishes and every contract
    operation keeps. *)
Definition ok (b : backend) (config : Config) (w : world) : Prop :=
  self w !! "config" = Some (VConfig config) ∧
  (∃ p, self w !! "pos" = Some (VInt p)) ∧
  match b with
  | Container =>
      (∃ md, md ≠ H5Closed ∧
             self w !! "dataset" = Some (VH5File (hdf5_filename config) md)) ∧
      h5_ok (hdf5_filename config) (fs w)
  | MappedArray =>
      self w !! "input_path" = Some (VStr (input_npy config)) ∧
      self w !! "target_path" = Some (VStr (target_npy config)) ∧
      (∃ wr, self w !! "input" =
               Some (VMemmap (input_npy config) wr (storage_memmap.input_shape config)) ∧
             self w !! "target" =
               Some (VMemmap (target_npy config) wr (storage_memmap.target_shape config))) ∧
      bin_ok (input_npy config) (Memmap.nbytes (storage_memmap.input_shape config)) (fs w) ∧
      bin_ok (target_npy config) (Memmap.nbytes (storage_memmap.target_shape config)) (fs w) ∧
      Memmap.nbytes (storage_memmap.input_shape config) ≠ 0 ∧
      Memmap.nbytes (storage_memmap.target_shape config) ≠ 0
  | FlatFile =>
      self w !! "input_path" = Some (VStr (input_dir config)) ∧
      self w !! "target_path" = Some (VStr (target_dir config)) ∧
      self w !! "idx2input" = Some (VLambda Idx2input) ∧
      self w !! "idx2target" = Some (VLambda Idx2target)
  end.

(** The handles are the writable ones the constructor opened. *)
Definition write_mode (b : backend) (w : world) : Prop :=
  match b with
  | Container => ∃ name, self w !! "dataset" = Some (VH5File name H5Append)
  | MappedArray =>
      ∃ p q s t, self w !! "input" = Some (VMemmap p true s) ∧
                 self w !! "target" = Some (VMemmap q true t)
  | FlatFile => True
  end.

Lemma append_frame jpeg b ic tc w :
  post (append jpeg b ic tc) w (λ _ w', ∀ k, k ≠ "pos" → self w' !! k = self w !! k).
Proof.
  destruct b; cbn [append].
  - unfold storage_hdf5.append. mauto; cbn [self]; try done.
    intros k Hk. by rewrite lookup_insert_ne.
  - unfold storage_memmap.append. mauto; cbn [self]; try done.
    intros k Hk. by rewrite lookup_insert_ne.
  - unfold storage_raw.append. mauto; try done.
    eapply post_mono.
    { apply (for_each_post _ _ (λ w', self w' = self w)); [done|].
      intros x w1 Hw1. eapply post_mono; [apply save_pair_keeps_self|].
      intros r w2 Hw2. cbn beta in *. congruence. }
    intros [e|[]] w' Hw'; cbn beta iota; [by rewrite Hw'|].
    mauto; rewrite ?Hw' in *; cbn [self]; try done.
    intros k Hk. by rewrite lookup_insert_ne.
Qed.

Lemma assign_rows_length dst l r src rs :
  Np.assign_rows dst l r src = Some rs → length rs = length (rows dst).
Proof.
  unfold Np.assign_rows, Np.broadcast_rows, Np.clip. intros H.
  case_bool_decide; [|done].
  repeat case_match; simplify_eq/=; rewrite ?length_app, ?length_take, ?length_drop,
    ?length_replicate; lia.
Qed.

Lemma H5_setslice_outcome h key l r src f res f' :
  H5.setslice h key l r src f = (res, f') →
  f' = f ∨
  ∃ name ds a rs,
    h = VH5File name H5Append ∧ res = inr tt ∧
    f !! name = Some (FileH5 ds) ∧ ds !! key = Some a ∧
    Np.assign_rows a l r src = Some rs ∧
    f' = <[name := FileH5 (<[key := mkArray (inner a) rs]> ds)]> f.
Proof.
  unfold H5.setslice, H5.dataset, H5.arrays_of. intros H.
  repeat case_match; simplify_eq/=; eauto 12.
Qed.

Lemma H5_setslice_keeps_ok name h key l r src f res f' :
  h5_ok name f → H5.setslice h key l r src f = (res, f') → h5_ok name f'.
Proof.
  intros Hok H. apply H5_setslice_outcome in H as [->|H]; [done|].
  destruct H as (name' & ds & a & rs & -> & -> & Hf & Hk & _ & ->).
  destruct (decide (name' = name)) as [->|Hne].
  - destruct Hok as (ds' & Hf' & Hi & Ht). simplify_eq.
    eexists. rewrite lookup_insert_eq. split; [done|].
    split; rewrite lookup_insert; case_decide; eauto.
  - destruct Hok as (ds' & Hf' & Hi & Ht). exists ds'. by rewrite lookup_insert_ne.
Qed.

(** ** Mapped files and the arrays they show *)

Lemma reshape_join {A} (k : nat) (rs : list (list A)) (rest : list A) :
  Forall (λ r, length r = k) rs →
  reshape (replicate (length rs) k) (mjoin rs ++ rest)%list = rs.
Proof.
  induction 1 as [|r rs Hr _ IH]; [done|].
  cbn [length replicate reshape mjoin]. cbn. rewrite <- (assoc_L (++)).
  rewrite take_app_length' by done. rewrite drop_app_length' by done.
  by rewrite IH.
Qed.

Lemma Forall_reshape_length {A} (n k : nat) (l : list A) :
  (n * k ≤ length l)%nat → Forall (λ r, length r = k) (reshape (replicate n k) l).
Proof.
  revert l. induction n as [|n IH]; intros l Hl; [constructor|].
  cbn [replicate reshape]. constructor.
  - rewrite length_take. lia.
  - apply IH. rewrite length_drop. lia.
Qed.

Lemma view_rows_length shp bytes : length (rows (Memmap.view shp bytes)) = hd 0 shp.
Proof. unfold Memmap.view. cbn. by rewrite length_reshape, length_replicate. Qed.

Lemma view_rows_wf n inner bytes :
  length bytes = Memmap.nbytes (n :: inner) →
  Forall (λ r, length r = Np.row_size inner) (rows (Memmap.view (n :: inner) bytes)).
Proof.
  intros Hlen. unfold Memmap.view. cbn [rows hd tl].
  apply Forall_reshape_length. by rewrite Hlen.
Qed.

Lemma flatten_length shp rs :
  length (Memmap.flatten shp rs) = length rs * Np.row_size (tl shp).
Proof.
  unfold Memmap.flatten. rewrite length_join, <- list_fmap_compose.
  induction rs as [|r rs IH]; [done|].
  cbn [fmap list_fmap sum_list_with compose length]. cbn.
  rewrite length_resize. cbn in IH. by rewrite IH.
Qed.

Lemma flatten_wf shp rs :
  Forall (λ r, length r = Np.row_size (tl shp)) rs → Memmap.flatten shp rs = mjoin rs.
Proof.
  intros Hwf. unfold Memmap.flatten. f_equal.
  induction Hwf as [|r rs Hr _ IH]; [done|].
  by rewrite fmap_cons, resize_all_alt, IH.
Qed.

Lemma view_flatten n inner rs rest :
  length rs = n → Forall (λ r, length r = Np.row_size inner) rs →
  rows (Memmap.view (n :: inner) (Memmap.flatten (n :: inner) rs ++ rest)%list) = rs.
Proof.
  intros <- Hwf. unfold Memmap.view. cbn [rows hd tl].
  rewrite flatten_wf by done. by apply reshape_join.
Qed.

Lemma Memmap_setslice_outcome m l r src f res f' :
  Memmap.setslice m l r src f = (res, f') →
  (f' = f ∧ ∃ e, res = inl e) ∨
  ∃ p shp bytes rs,
    m = VMemmap p true shp ∧ res = inr tt ∧
    f !! p = Some (FileBin bytes) ∧
    Np.assign_rows (Memmap.view shp bytes) l r src = Some rs ∧
    f' = <[p := FileBin (Memmap.flatten shp rs ++ drop (Memmap.nbytes shp) bytes)%list]> f.
Proof.
  unfold Memmap.setslice, Memmap.mapped. intros H.
  repeat case_match; simplify_eq/=; eauto 12.
Qed.

Lemma Memmap_setslice_keeps_bin p wr n inner l r src f res f' :
  bin_ok p (Memmap.nbytes (n :: inner)) f →
  Memmap.setslice (VMemmap p wr (n :: inner)) l r src f = (res, f') →
  bin_ok p (Memmap.nbytes (n :: inner)) f' ∧ ∀ q, q ≠ p → f' !! q = f !! q.
Proof.
  intros (bytes & Hf & Hlen) H.
  apply Memmap_setslice_outcome in H as [[-> _]|H]; [by split; [eexists|]|].
  destruct H as (p' & shp & bytes' & rs & ? & -> & Hf' & Hrs & ->). simplify_eq.
  split; [|by intros q Hq; rewrite lookup_insert_ne].
  eexists. rewrite lookup_insert_eq. split; [done|].
  apply assign_rows_length in Hrs. rewrite view_rows_length in Hrs.
  rewrite length_app, flatten_length, length_drop, Hrs, Hlen. cbn. lia.
Qed.

(** ** The constructors establish [ok] *)

Lemma post_success {A} (m : M A) w (P : world → Prop) a w' :
  post m w (λ r w'', match r with inr _ => P w'' | inl _ => True end) →
  m w = (inr a, w') → P w'.
Proof. intros H Hrun. by apply (post_run _ _ _ _ _ H Hrun). Qed.

Lemma H5_File_append_outcome name f v f' :
  H5.File name H5Append f = (inr v, f') →
  v = VH5File name H5Append ∧
  ((∃ ds, f !! name = Some (FileH5 ds) ∧ f' = f) ∨
   (f !! name = None ∧ f' = <[name := FileH5 ∅]> f)).
Proof.
  unfold H5.File. intros H. repeat case_match; simplify_eq; eauto.
Qed.

Lemma Memmap_create_outcome p shp f v f' :
  Memmap.create p shp f = (inr v, f') →
  v = VMemmap p true shp ∧ Memmap.nbytes shp ≠ 0 ∧
  f' = <[p := FileBin (replicate (Memmap.nbytes shp) "000"%byte)]> f.
Proof.
  unfold Memmap.create. intros H. repeat case_match; simplify_eq; eauto.
Qed.

Lemma hdf5_init_ok config f w0 :
  storage_hdf5.__init__ config (fresh f) = (inr tt, w0) →
  ok Container config w0 ∧ write_mode Container w0.
Proof.
  intros Hrun.
  assert (∃ ds0, f !! hdf5_filename config = Some (FileH5 ds0) ∨
                 f !! hdf5_filename config = None ∧ ds0 = ∅) as [ds0 Hf].
  { destruct (f !! hdf5_filename config) as [[]|] eqn:Hf; eauto.
    all: exfalso; revert Hrun; apply (post_success _ _ (λ _, False));
      unfold storage_hdf5.__init__, storage_class.__init__, fresh; eval_names; mrun.
    all: mcall (unfold H5.File; rewrite Hf; reflexivity).
    all: done. }
  rewrite (hdf5_init_run config f ds0 Hf) in Hrun. simplify_eq.
  split; [|by eexists; cbn; simpl_map].
  unfold ok. cbn [self fs]. simpl_map. split_and!; [done|by eexists| |].
  - by exists H5Append.
  - eexists. rewrite lookup_insert_eq. split; [done|]. split.
    + destruct (ensure_dataset_present "input" (storage_hdf5.input_shape config) ds0)
        as [a Ha].
      erewrite ensure_dataset_keeps; [|done]. by eexists.
    + apply ensure_dataset_present.
Qed.

Lemma memmap_init_ok config f w0 :
  storage_memmap.__init__ config (fresh f) = (inr tt, w0) →
  ok MappedArray config w0 ∧ write_mode MappedArray w0.
Proof.
  apply (post_success _ _ (λ w', ok MappedArray config w' ∧ write_mode MappedArray w')).
  unfold storage_memmap.__init__, storage_class.__init__, fresh. eval_names.
  mauto; cbn [self fs]; try done.
  apply Memmap_create_outcome in E0 as (-> & Hn1 & ->).
  apply Memmap_create_outcome in E1 as (-> & Hn2 & ->).
  pose proof (mapped_files_distinct (artifact_stem config)) as Hne.
  fold (input_npy config) (target_npy config) in *.
  split.
  - unfold ok. cbn [self fs]. simpl_map. split_and!; try done.
    + by eexists.
    + by exists true.
    + eexists. rewrite lookup_insert_ne, lookup_insert_eq by done.
      split; [done|]. by rewrite length_replicate.
    + eexists. rewrite lookup_insert_eq. split; [done|]. by rewrite length_replicate.
  - cbn [write_mode self]. eexists _, _, _, _. by simpl_map.
Qed.

Lemma raw_init_ok config f w0 :
  storage_raw.__init__ config (fresh f) = (inr tt, w0) →
  ok FlatFile config w0 ∧ write_mode FlatFile w0.
Proof.
  apply (post_success _ _ (λ w', ok FlatFile config w' ∧ write_mode FlatFile w')).
  unfold storage_raw.__init__, storage_class.__init__, fresh. eval_names.
  mauto; cbn [self fs]; try done. split; [|done].
  unfold ok. cbn [self fs]. simpl_map. split_and!; try done. by eexists.
Qed.

Lemma construct_ok b config f w0 :
  construct b config (fresh f) = (inr tt, w0) →
  ok b config w0 ∧ write_mode b w0.
Proof.
  destruct b; [apply hdf5_init_ok|apply memmap_init_ok|apply raw_init_ok].
Qed.

(** ** Every contract operation keeps [ok] *)

Lemma bin_ok_frame p q n f f' :
  (∀ k, k ≠ p → f' !! k = f !! k) → q ≠ p → bin_ok q n f → bin_ok q n f'.
Proof. intros Hfr Hq (bytes & Hf & Hlen). exists bytes. by rewrite Hfr. Qed.

Lemma setslice_keeps_mapped_files config m l r src f res f' :
  m = VMemmap (input_npy config) true (storage_memmap.input_shape config) ∨
  m = VMemmap (target_npy config) true (storage_memmap.target_shape config) ∨
  (∃ p s, m = VMemmap p false s) →
  bin_ok (input_npy config) (Memmap.nbytes (storage_memmap.input_shape config)) f →
  bin_ok (target_npy config) (Memmap.nbytes (storage_memmap.target_shape config)) f →
  Memmap.setslice m l r src f = (res, f') →
  bin_ok (input_npy config) (Memmap.nbytes (storage_memmap.input_shape config)) f' ∧
  bin_ok (target_npy config) (Memmap.nbytes (storage_memmap.target_shape config)) f'.
Proof.
  pose proof (mapped_files_distinct (artifact_stem config)) as Hne.
  fold (input_npy config) (target_npy config) in Hne.
  intros [->|[->|(p & s & ->)]] Hbi Hbt E.
  - eapply Memmap_setslice_keeps_bin in E as [? Hfr]; [|exact Hbi].
    split; [done|]. by eapply bin_ok_frame.
  - eapply Memmap_setslice_keeps_bin in E as [? Hfr]; [|exact Hbt].
    split; [|done]. by eapply bin_ok_frame.
  - apply setslice_read_only_mapping in E as [_ ->]. done.
Qed.

Lemma append_keeps_files jpeg b config ic tc w :
  ok b config w →
  post (append jpeg b ic tc) w (λ _ w',
    match b with
    | Container => h5_ok (hdf5_filename config) (fs w')
    | MappedArray =>
        bin_ok (input_npy config) (Memmap.nbytes (storage_memmap.input_shape config)) (fs w') ∧
        bin_ok (target_npy config) (Memmap.nbytes (storage_memmap.target_shape config)) (fs w')
    | FlatFile => True
    end).
Proof.
  intros (Hc & [p Hp] & Hb). destruct b; cbn [append].
  - destruct Hb as ((md & Hmd & Hd) & Hok).
    unfold storage_hdf5.append. mauto; cbn [self fs]; try done.
    all: repeat match goal with
           | E : H5.setslice _ _ _ _ _ _ = _ |- _ =>
               eapply H5_setslice_keeps_ok in E; [|eassumption]
           end; done.
  - destruct Hb as (Hip & Htp & (wr & Hi & Ht) & Hbi & Hbt & _).
    pose proof (mapped_files_distinct (artifact_stem config)) as Hne.
    fold (input_npy config) (target_npy config) in Hne.
    assert (∀ (m : pyval),
              m = VMemmap (input_npy config) wr (storage_memmap.input_shape config) ∨
              m = VMemmap (target_npy config) wr (storage_memmap.target_shape config) →
              m = VMemmap (input_npy config) true (storage_memmap.input_shape config) ∨
              m = VMemmap (target_npy config) true (storage_memmap.target_shape config) ∨
              (∃ p s, m = VMemmap p false s)) as Hcase.
    { intros m [->| ->]; destruct wr; eauto. }
    unfold storage_memmap.append. mauto; cbn [self fs]; try done.
    all: repeat match goal with
           | E : Memmap.setslice _ _ _ _ _ = _ |- _ =>
               eapply setslice_keeps_mapped_files in E as [? ?];
               [| apply Hcase; eauto | eassumption..]
           end; done.
  - done.
Qed.

Lemma append_keeps_ok jpeg b config ic tc w :
  ok b config w → ok b config (append jpeg b ic tc w).2.
Proof.
  intros Hok. pose proof Hok as (Hc & [p Hp] & Hb).
  pose proof (append_frame jpeg b ic tc w) as Hfr.
  pose proof (append_counts jpeg b ic tc w p Hp) as Hpos.
  pose proof (append_keeps_files jpeg b config ic tc w Hok) as Hfs.
  unfold post in *. set (w' := (append jpeg b ic tc w).2) in *.
  split_and!.
  - by rewrite (Hfr "config").
  - by eexists.
  - destruct b.
    + destruct Hb as ((md & Hmd & Hd) & _). split; [|done].
      exists md. by rewrite Hfr.
    + destruct Hb as (Hip & Htp & (wr & Hi & Ht) & _ & _ & Hn1 & Hn2).
      destruct Hfs. split_and!; [by rewrite Hfr|by rewrite Hfr| |done..].
      exists wr. by rewrite !Hfr.
    + destruct Hb as (?&?&?&?). by rewrite !Hfr.
Qed.

Lemma lock_ok b config w :
  ok b config w →
  ∃ w', lock b w = (inr tt, w') ∧ ok b config w' ∧ fs w' = fs w ∧
        self w' !! "pos" = self w !! "pos".
Proof.
  intros (Hc & [p Hp] & Hb).
  assert (post (lock b) w (λ r w', r = inr tt ∧ ok b config w' ∧ fs w' = fs w ∧
                                   self w' !! "pos" = self w !! "pos")) as H.
  2:{ unfold post in H. destruct (lock b w) as [r w']. cbn in H.
      destruct H as [-> ?]. eauto. }
  destruct b; cbn [lock].
  - destruct Hb as ((md & Hmd & Hd) & (ds & Hf & Hi & Ht)).
    unfold storage_hdf5.lock. mrun.
    mcall (unfold H5.File; rewrite Hf; reflexivity).
    mrun. cbn [self fs]. split; [done|]. split; [|by simpl_map].
    unfold ok. cbn [self fs]. simpl_map. split_and!; try done; [by eexists| |by eexists].
    by exists H5Read.
  - destruct Hb as (Hip & Htp & (wr & Hi & Ht) & Hbi & Hbt & Hn1 & Hn2).
    assert (mappable (input_npy config) (storage_memmap.input_shape config) (fs w)) as Hmi.
    { destruct Hbi as (bytes & ? & Hlen). exists bytes. split; [done|]. lia. }
    assert (mappable (target_npy config) (storage_memmap.target_shape config) (fs w)) as Hmt.
    { destruct Hbt as (bytes & ? & Hlen). exists bytes. split; [done|]. lia. }
    unfold storage_memmap.lock. mrun.
    mcall (by apply open_r_mappable). mrun.
    mcall (by apply open_r_mappable). mrun.
    cbn [self fs]. split; [done|]. split; [|by simpl_map].
    unfold ok. cbn [self fs]. simpl_map. split_and!; try done; [by eexists|].
    by exists false.
  - destruct Hb as (?&?&?&?).
    unfold storage_raw.lock. mrun. cbn [self fs]. split; [done|]. split; [|by simpl_map].
    unfold ok. cbn [self fs]. simpl_map. split_and!; try done. by eexists.
Qed.

Lemma perform_keeps_ok jpeg b config c w :
  ok b config w → ok b config (perform jpeg b c w).
Proof.
  intros Hok. destruct c; cbn [perform].
  - by rewrite (size_keeps_world b w).
  - by apply append_keeps_ok.
  - destruct (lock_ok b config w Hok) as (w' & -> & ? & _). done.
  - by rewrite (get_keeps_world b idx w).
Qed.

Lemma history_keeps_ok jpeg b config cs w :
  ok b config w → ok b config (history jpeg b cs w).
Proof.
  revert w. induction cs as [|c cs IH]; intros w Hw; [done|].
  rewrite history_cons. by apply IH, perform_keeps_ok.
Qed.

Lemma perform_keeps_write_mode jpeg b c w :
  is_lock c = false → write_mode b w → write_mode b (perform jpeg b c w).
Proof.
  intros Hc Hw. destruct c; [| |done|]; cbn [perform].
  - by rewrite (size_keeps_world b w).
  - pose proof (append_frame jpeg b input_chunk target_chunk w) as Hfr.
    unfold post in Hfr. destruct b; cbn [write_mode] in *; [| |done].
    + destruct Hw as [name ?]. exists name. by rewrite Hfr.
    + destruct Hw as (p & q & s & t & ? & ?). exists p, q, s, t. by rewrite !Hfr.
  - by rewrite (get_keeps_world b idx w).
Qed.

Lemma history_keeps_write_mode jpeg b cs w :
  forallb (λ c, negb (is_lock c)) cs = true →
  write_mode b w → write_mode b (history jpeg b cs w).
Proof.
  revert w. induction cs as [|c cs IH]; intros w Hcs Hw; [done|].
  cbn in Hcs. apply andb_prop in Hcs as [Hc Hcs].
  rewrite history_cons. apply IH; [done|].
  apply perform_keeps_write_mode; [by destruct (is_lock c)|done].
Qed.

(** * What [dataset_size] checks (lines 63-67, 105-109, 151-155) *)

(** The outcome of the two [assert]s of [dataset_size], read off the
    stored artifact: the container compares the extents of its two
    arrays with each other and the first one with [N]; the mapped backend
    compares the shapes of its mappings, which it built from the
    configuration; the flat-file backend counts directory entries. *)
Definition size_outcome (b : backend) (config : Config) (f : gmap string node)
  : result nat :=
  let n := cfg_dataset_size config in
  match b with
  | Container =>
      match f !! hdf5_filename config with
      | Some (FileH5 ds) =>
          match ds !! "input", ds !! "target" with
          | Some a, Some t =>
              if decide (removelast (Np.shape a) = Np.shape t ∧ length (rows t) = n)
              then inr n else inl AssertionError
          | _, _ => inl KeyError
          end
      | _ => inl OSError
      end
  | MappedArray => inr n
  | FlatFile =>
      match (Os.listdir (input_dir config) f).1, (Os.listdir (target_dir config) f).1 with
      | inr inputs, inr targets =>
          if decide (length inputs = length targets ∧ length inputs = n)
          then inr n else inl AssertionError
      | inl e, _ => inl e
      | _, inl e => inl e
      end
  end.

Lemma H5_shape_eq name md key f ds a :
  md ≠ H5Closed → f !! name = Some (FileH5 ds) → ds !! key = Some a →
  H5.shape (VH5File name md) key f = (inr (Np.shape a), f).
Proof.
  intros Hmd Hf Hk. unfold H5.shape, H5.dataset, H5.arrays_of.
  destruct md; [| |done]; by rewrite Hf, Hk.
Qed.

(** Symbolic execution that also uses the attributes known in the
    context. *)
Ltac mgo :=
  repeat (first [mstep | progress cbn [Memmap.shape head]];
          try simpl_map; use_lookups; cbn beta iota).

Lemma size_ok b config w :
  ok b config w → size b w = (size_outcome b config (fs w), w).
Proof.
  intros (Hc & [p Hp] & Hb). apply post_eq. destruct b; cbn [size size_outcome].
  - destruct Hb as ((md & Hmd & Hd) & (ds & Hf & [a Ha] & [t Ht])).
    rewrite Hf, Ha, Ht.
    unfold storage_hdf5.dataset_size. mgo.
    mcall (by eapply H5_shape_eq). mgo.
    mcall (by eapply H5_shape_eq). mgo.
    case_bool_decide as H1; cbn beta iota.
    + mgo. mcall (by eapply H5_shape_eq). mgo.
      cbn [Np.shape head]. case_bool_decide as H2; cbn beta iota.
      * mgo. rewrite decide_True; [by destruct w|].
        split; [done|congruence].
      * rewrite decide_False; [by destruct w|]. intros [_ ?]. congruence.
    + rewrite decide_False; [by destruct w|]. by intros [? _].
  - destruct Hb as (Hip & Htp & (wr & Hi & Ht) & _).
    assert (removelast (storage_memmap.input_shape config) =
            storage_memmap.target_shape config) as Hrl.
    { unfold storage_memmap.input_shape, storage_memmap.target_shape.
      apply (removelast_last (_ :: _)). }
    unfold storage_memmap.dataset_size. mgo.
    rewrite bool_decide_eq_true_2 by done. cbn beta iota.
    mgo. unfold storage_memmap.input_shape at 1. cbn [head]. mgo.
    rewrite bool_decide_eq_true_2 by done. cbn beta iota.
    mgo. by destruct w.
  - destruct Hb as (Hip & Htp & _).
    unfold storage_raw.dataset_size. mgo.
    apply post_lift_fs_read_only; [auto with read_only|].
    destruct (Os.listdir (input_dir config) (fs w)).1 as [e|inputs] eqn:Ei; [done|].
    mgo.
    apply post_lift_fs_read_only; [auto with read_only|].
    destruct (Os.listdir (target_dir config) (fs w)).1 as [e|targets] eqn:Et; [done|].
    mgo. case_bool_decide as H1; cbn beta iota.
    + mgo.
      apply post_lift_fs_read_only; [auto with read_only|]. rewrite Ei.
      mgo. case_bool_decide as H2; cbn beta iota.
      * mgo. by rewrite decide_True.
      * rewrite decide_False; [done|]. by intros [_ ?].
    + rewrite decide_False; [done|]. by intros [? _].
Qed.

(** C4, as the code has it: on a constructed instance, after any
    history, [size()] leaves the world as it is and its outcome is
    [size_outcome]: [N], or [AssertionError] when the stored extents (or
    entry counts) disagree with each other or with [N].  The configured
    spatial shape plays no part in the outcome. *)
Theorem size_validates_counts (jpeg : Image → Image) (b : backend) (config : Config)
    (f : gmap string node) (w0 : world) :
  construct b config (fresh f) = (inr tt, w0) →
  (∀ cs, let w := history jpeg b cs w0 in
         size b w = (size_outcome b config (fs w), w)) ∧
  (∀ shp g,
     size_outcome b config g =
     size_outcome b (mkConfig (cfg_annotation_file config) (cfg_dataset_size config)
                              shp (cfg_chunk_size config)) g).
Proof.
  intros Hc. apply construct_ok in Hc as [Hok _]. split.
  - intros cs w. by apply size_ok, history_keeps_ok.
  - intros shp g. by destruct b.
Qed.

Lemma size_validates_counts_witness :
  let config := mkConfig "data/train.txt" 2 [1; 1] 2 in
  let w0 := (construct Container config (fresh ∅)).2 in
  (∀ cs, let w := history id Container cs w0 in
         size Container w = (size_outcome Container config (fs w), w)) ∧
  (∀ shp g,
     size_outcome Container config g =
     size_outcome Container
       (mkConfig (cfg_annotation_file config) (cfg_dataset_size config)
                 shp (cfg_chunk_size config)) g).
Proof.
  cbv zeta.
  apply (size_validates_counts id Container (mkConfig "data/train.txt" 2 [1; 1] 2) ∅).
  vm_compute. reflexivity.
Defined.

(** C4 as stated fails: a container that already holds arrays of
    extents [(1, 1, 1, 3)] and [(1, 1, 1)] is opened with the configuration
    [N = 1], [(H, W) = (2, 2)]; the stored spatial extents disagree with
    the configured ones, and [size()] returns [N] without an exception. *)
Lemma size_accepts_other_spatial_shape :
  let config := mkConfig "data/train.txt" 1 [2; 2] 1 in
  let old_input := Np.zeros 1 [1; 1; 3] in
  let old_target := Np.zeros 1 [1; 1] in
  let f : gmap string node :=
    {[ "data/train.h5" := FileH5 {[ "input" := old_input; "target" := old_target ]} ]} in
  let w0 := (construct Container config (fresh f)).2 in
  construct Container config (fresh f) = (inr tt, w0) ∧
  fs w0 !! hdf5_filename config =
    Some (FileH5 {[ "input" := old_input; "target" := old_target ]}) ∧
  Np.shape old_input ≠ storage_hdf5.input_shape config ∧
  Np.shape old_target ≠ storage_hdf5.target_shape config ∧
  size Container w0 = (inr 1, w0).
Proof.
  cbv zeta. split_and!; [by vm_compute|by vm_compute|by vm_compute..|by vm_compute].
Qed.

(** * [append] once the dataset is covered *)


Lemma clip_nonneg i n : (0 ≤ i)%Z → Np.clip i n = Nat.min (Z.to_nat i) n.
Proof. intros Hi. unfold Np.clip. by rewrite (proj2 (Z.ltb_ge _ _)). Qed.













(** * What [append] writes *)

(** The rows of an array after rows [lo, hi) were taken from the head of
    [new]. *)
Definition splice {A} (lo hi : nat) (old new : list A) : list A :=
  (take lo old ++ take (hi - lo) new ++ drop hi old)%list.

Lemma splice_length {A} lo hi (old new : list A) :
  (lo ≤ hi ≤ length old)%nat → (hi - lo ≤ length new)%nat →
  length (splice lo hi old new) = length old.
Proof.
  intros ??. unfold splice. rewrite !length_app, !length_take, length_drop. lia.
Qed.

Lemma splice_lookup {A} lo hi (old new : list A) i :
  (lo ≤ hi ≤ length old)%nat → (hi - lo ≤ length new)%nat →
  splice lo hi old new !! i =
    if decide (lo ≤ i < hi)%nat then new !! (i - lo) else old !! i.
Proof.
  intros Hlo Hnew. unfold splice. case_decide as Hi.
  - rewrite lookup_app_r by (rewrite length_take; lia).
    rewrite length_take, Nat.min_l by lia.
    rewrite lookup_app_l by (rewrite length_take; lia).
    rewrite lookup_take_lt by lia. done.
  - destruct (decide (i < lo)%nat).
    + rewrite lookup_app_l by (rewrite length_take; lia).
      by rewrite lookup_take_lt by lia.
    + rewrite lookup_app_r by (rewrite length_take; lia).
      rewrite length_take, Nat.min_l by lia.
      rewrite lookup_app_r by (rewrite length_take; lia).
      rewrite length_take, Nat.min_l by lia.
      rewrite lookup_drop. f_equal. lia.
Qed.

Lemma splice_Forall {A} (P : A → Prop) lo hi (old new : list A) :
  Forall P old → Forall P (take (hi - lo) new) → Forall P (splice lo hi old new).
Proof.
  intros Hold Hnew. unfold splice. repeat apply Forall_app_2; [|done|].
  - by apply Forall_take.
  - by apply Forall_drop.
Qed.

Lemma assign_rows_splice dst src (lo hi : nat) :
  inner src = inner dst →
  (lo ≤ hi ≤ length (rows dst))%nat → (hi - lo ≤ length (rows src))%nat →
  Np.assign_rows dst (Z.of_nat lo) (Z.of_nat hi)
                 (Np.prefix src (Z.of_nat hi - Z.of_nat lo)) =
    Some (splice lo hi (rows dst) (rows src)).
Proof.
  intros Hin Hlo Hsrc. unfold Np.assign_rows, Np.prefix, Np.broadcast_rows.
  cbn [inner rows]. rewrite bool_decide_eq_true_2 by done.
  rewrite !clip_nonneg by lia. rewrite !Nat2Z.id.
  replace (Z.to_nat (Z.of_nat hi - Z.of_nat lo)) with (hi - lo)%nat by lia.
  rewrite !Nat.min_l by lia. rewrite length_take, Nat.min_l by lia.
  rewrite decide_True by lia. cbn. unfold splice.
  by replace (lo + (hi - lo))%nat with hi by lia.
Qed.

Lemma nselect_nat a (lo hi : nat) :
  (lo ≤ hi ≤ length (rows a))%nat → Np.nselect a (Z.of_nat lo) (Z.of_nat hi) = (hi - lo)%nat.
Proof.
  intros H. unfold Np.nselect. rewrite !clip_nonneg by lia. rewrite !Nat2Z.id. lia.
Qed.

Lemma splice_empty {A} lo (old new : list A) : splice lo lo old new = old.
Proof. unfold splice. rewrite Nat.sub_diag, take_0. cbn. apply take_drop. Qed.

Lemma H5_setslice_splice name key (lo hi : nat) src f ds a :
  f !! name = Some (FileH5 ds) → ds !! key = Some a →
  inner src = inner a →
  (lo ≤ hi ≤ length (rows a))%nat → (hi - lo ≤ length (rows src))%nat →
  H5.setslice (VH5File name H5Append) key (Z.of_nat lo) (Z.of_nat hi)
              (Np.prefix src (Z.of_nat hi - Z.of_nat lo)) f =
    (inr tt,
     <[name := FileH5 (<[key := mkArray (inner a) (splice lo hi (rows a) (rows src))]> ds)]> f).
Proof.
  intros Hf Hk Hin Hlo Hsrc. unfold H5.setslice, H5.dataset, H5.arrays_of.
  rewrite Hf, Hk. rewrite nselect_nat by done. case_decide as Hn.
  - assert (hi = lo) as -> by lia. rewrite splice_empty.
    replace (mkArray (inner a) (rows a)) with a by by destruct a.
    rewrite (insert_id ds) by done. by rewrite insert_id.
  - by rewrite assign_rows_splice.
Qed.

Lemma Memmap_setslice_splice p n ish (lo hi : nat) src f bytes :
  f !! p = Some (FileBin bytes) →
  inner src = ish → (lo ≤ hi ≤ n)%nat → (hi - lo ≤ length (rows src))%nat →
  Memmap.setslice (VMemmap p true (n :: ish)) (Z.of_nat lo) (Z.of_nat hi)
                  (Np.prefix src (Z.of_nat hi - Z.of_nat lo)) f =
    (inr tt,
     <[p := FileBin (Memmap.flatten (n :: ish)
                       (splice lo hi (rows (Memmap.view (n :: ish) bytes)) (rows src))
                     ++ drop (Memmap.nbytes (n :: ish)) bytes)%list]> f).
Proof.
  intros Hf Hin Hlo Hsrc. unfold Memmap.setslice, Memmap.mapped. rewrite Hf.
  rewrite assign_rows_splice; [done|done| |done].
  by rewrite view_rows_length.
Qed.

(** ** Stored samples

    What the artifact of backend [b] holds for sample index [i]: a row
    of a stored array, or the node at the path of the sample's file. *)

Inductive cell :=
| CellRow (r : list byte)
| CellFile (n : node).

Definition input_cell (b : backend) (config : Config) (f : gmap string node) (i : nat)
  : option cell :=
  match b with
  | Container =>
      match f !! hdf5_filename config with
      | Some (FileH5 ds) => a ← ds !! "input"; CellRow <$> rows a !! i
      | _ => None
      end
  | MappedArray =>
      match f !! input_npy config with
      | Some (FileBin bytes) =>
          CellRow <$> rows (Memmap.view (storage_memmap.input_shape config) bytes) !! i
      | _ => None
      end
  | FlatFile => CellFile <$> f !! input_file (input_dir config) (Z.of_nat i)
  end.

Definition target_cell (b : backend) (config : Config) (f : gmap string node) (i : nat)
  : option cell :=
  match b with
  | Container =>
      match f !! hdf5_filename config with
      | Some (FileH5 ds) => a ← ds !! "target"; CellRow <$> rows a !! i
      | _ => None
      end
  | MappedArray =>
      match f !! target_npy config with
      | Some (FileBin bytes) =>
          CellRow <$> rows (Memmap.view (storage_memmap.target_shape config) bytes) !! i
      | _ => None
      end
  | FlatFile => CellFile <$> f !! target_file (target_dir config) (Z.of_nat i)
  end.

(** The cell [append] writes for an image row and for a mask row of a
    chunk: the row itself, or the file [Image.fromarray(row, mode).save]
    leaves. *)
Definition written_input (jpeg : Image → Image) (b : backend) (H W : nat)
    (r : list byte) : cell :=
  match b with
  | FlatFile => CellFile (FileImg (jpeg (mkImage RGB H W r)))
  | _ => CellRow r
  end.

Definition written_target (b : backend) (H W : nat) (r : list byte) : cell :=
  match b with
  | FlatFile => CellFile (FileImg (mkImage L H W r))
  | _ => CellRow r
  end.

(** The stored arrays have the configured extents (container), and no
    directory sits at the path of a sample file (flat files). *)
Definition shaped (b : backend) (config : Config) (f : gmap string node) : Prop :=
  match b with
  | Container =>
      ∃ ds a t,
        f !! hdf5_filename config = Some (FileH5 ds) ∧
        ds !! "input" = Some a ∧ ds !! "target" = Some t ∧
        length (rows a) = cfg_dataset_size config ∧
        inner a = (cfg_target_shape config ++ [3])%list ∧
        length (rows t) = cfg_dataset_size config ∧
        inner t = cfg_target_shape config
  | MappedArray => True
  | FlatFile =>
      ∀ i : nat,
        f !! input_file (input_dir config) (Z.of_nat i) ≠ Some Dir ∧
        f !! target_file (target_dir config) (Z.of_nat i) ≠ Some Dir
  end.

(** A chunk whose first [cnt] rows are samples of spatial shape
    [(H, W)]. *)
Definition chunk_ok (H W cnt : nat) (ic tc : ndarray) : Prop :=
  inner ic = [H; W; 3] ∧ inner tc = [H; W] ∧
  (cnt ≤ length (rows ic))%nat ∧ (cnt ≤ length (rows tc))%nat ∧
  Forall (λ r, length r = H * W * 3) (take cnt (rows ic)) ∧
  Forall (λ r, length r = H * W) (take cnt (rows tc)).

Definition left_index (config : Config) (k : nat) : nat := k * cfg_chunk_size config.

Definition right_index (config : Config) (k : nat) : nat :=
  Nat.min (cfg_dataset_size config) (left_index config k + cfg_chunk_size config).

Lemma append_indices config (k : nat) :
  (Z.of_nat k * Z.of_nat (cfg_chunk_size config))%Z = Z.of_nat (left_index config k) ∧
  (Z.of_nat (cfg_dataset_size config)
     `min` (Z.of_nat k * Z.of_nat (cfg_chunk_size config) + Z.of_nat (cfg_chunk_size config)))%Z
    = Z.of_nat (right_index config k).
Proof.
  unfold right_index, left_index.
  by rewrite Nat2Z.inj_min, Nat2Z.inj_add, Nat2Z.inj_mul.
Qed.

Lemma row_size_rgb H W : Np.row_size [H; W; 3] = H * W * 3.
Proof. unfold Np.row_size. cbn. lia. Qed.

Lemma row_size_mask H W : Np.row_size [H; W] = H * W.
Proof. unfold Np.row_size. cbn. lia. Qed.

Lemma hdf5_append_step jpeg config H W w (k : nat) ic tc :
  cfg_target_shape config = [H; W] →
  ok Container config w → write_mode Container w → shaped Container config (fs w) →
  self w !! "pos" = Some (VInt (Z.of_nat k)) →
  (left_index config k ≤ cfg_dataset_size config)%nat →
  chunk_ok H W (right_index config k - left_index config k) ic tc →
  ∃ w', append jpeg Container ic tc w = (inr tt, w') ∧
    self w' = <["pos" := VInt (Z.of_nat (S k))]> (self w) ∧
    shaped Container config (fs w') ∧
    ∀ i,
      input_cell Container config (fs w') i =
        (if decide (left_index config k ≤ i < right_index config k)%nat
         then written_input jpeg Container H W <$> rows ic !! (i - left_index config k)
         else input_cell Container config (fs w) i) ∧
      target_cell Container config (fs w') i =
        (if decide (left_index config k ≤ i < right_index config k)%nat
         then written_target Container H W <$> rows tc !! (i - left_index config k)
         else target_cell Container config (fs w) i).
Proof.
  intros Hshape (Hc & _ & (md & _ & Hd) & _) [name Hd'] Hsh Hp Hl Hck.
  assert (md = H5Append) as -> by congruence. clear Hd'.
  destruct Hsh as (ds & a & t & Hf & Ha & Ht & Hna & Hia & Hnt & Hit).
  destruct Hck as (Hi1 & Hi2 & Hc1 & Hc2 & _ & _).
  destruct (append_indices config k) as [El Er].
  set (lo := left_index config k) in *. set (hi := right_index config k) in *.
  assert (lo ≤ hi ≤ cfg_dataset_size config)%nat as Hlohi
    by (unfold hi, lo, right_index in *; lia).
  assert (inner ic = inner a) as Hin1 by by rewrite Hi1, Hia, Hshape.
  assert (inner tc = inner t) as Hin2 by by rewrite Hi2, Hit, Hshape.
  eexists. split.
  { apply post_eq. cbn [append]. unfold storage_hdf5.append. mgo.
    rewrite !Er, !El.
    mcall (eapply H5_setslice_splice; [done|done|done|lia|done]). mgo.
    mcall (eapply H5_setslice_splice;
           [apply lookup_insert_eq|by rewrite lookup_insert_ne|done|lia|done]).
    mgo. rewrite insert_insert_eq. reflexivity. }
  cbn [self fs]. split.
  { do 3 f_equal. lia. }
  split.
  { eexists _, _, _. rewrite lookup_insert_eq. split; [done|].
    rewrite lookup_insert_eq. rewrite lookup_insert_ne by done. rewrite lookup_insert_eq.
    split; [reflexivity|]. split; [reflexivity|].
    cbn [rows inner]. rewrite !splice_length by lia. done. }
  intros i. cbn [input_cell target_cell written_input written_target].
  rewrite lookup_insert_eq, Hf.
  rewrite lookup_insert_eq, lookup_insert_ne, lookup_insert_eq by done.
  rewrite Ha, Ht. cbn [mbind option_bind rows].
  rewrite !splice_lookup by lia.
  split; by case_decide.
Qed.

Lemma memmap_append_step jpeg config H W w (k : nat) ic tc :
  cfg_target_shape config = [H; W] →
  ok MappedArray config w → write_mode MappedArray w →
  self w !! "pos" = Some (VInt (Z.of_nat k)) →
  (left_index config k ≤ cfg_dataset_size config)%nat →
  chunk_ok H W (right_index config k - left_index config k) ic tc →
  ∃ w', append jpeg MappedArray ic tc w = (inr tt, w') ∧
    self w' = <["pos" := VInt (Z.of_nat (S k))]> (self w) ∧
    ∀ i,
      input_cell MappedArray config (fs w') i =
        (if decide (left_index config k ≤ i < right_index config k)%nat
         then written_input jpeg MappedArray H W <$> rows ic !! (i - left_index config k)
         else input_cell MappedArray config (fs w) i) ∧
      target_cell MappedArray config (fs w') i =
        (if decide (left_index config k ≤ i < right_index config k)%nat
         then written_target MappedArray H W <$> rows tc !! (i - left_index config k)
         else target_cell MappedArray config (fs w) i).
Proof.
  intros Hshape (Hc & _ & Hip & Htp & (wr & Hi & Ht) & (bi & Hfi & Hli) & (bt & Hft & Hlt) & _)
    (p1 & p2 & s1 & s2 & Hi' & Ht') Hp Hl Hck.
  assert (wr = true) as -> by congruence. clear Hi' Ht'.
  destruct Hck as (Hi1 & Hi2 & Hc1 & Hc2 & Hw1 & Hw2).
  destruct (append_indices config k) as [El Er].
  set (lo := left_index config k) in *. set (hi := right_index config k) in *.
  assert (lo ≤ hi ≤ cfg_dataset_size config)%nat as Hlohi
    by (unfold hi, lo, right_index in *; lia).
  pose proof (mapped_files_distinct (artifact_stem config)) as Hne.
  fold (input_npy config) (target_npy config) in Hne.
  unfold storage_memmap.input_shape, storage_memmap.target_shape in *.
  rewrite Hshape in *. cbn [app] in *.
  eexists. split.
  { apply post_eq. cbn [append]. unfold storage_memmap.append. mgo.
    rewrite !Er, !El.
    mcall (eapply Memmap_setslice_splice; [done|done|lia|done]). mgo.
    mcall (eapply Memmap_setslice_splice;
           [by rewrite lookup_insert_ne|done|lia|done]).
    mgo. reflexivity. }
  cbn [self fs]. split.
  { do 3 f_equal. lia. }
  intros i. cbn [input_cell target_cell written_input written_target].
  unfold storage_memmap.input_shape, storage_memmap.target_shape.
  rewrite Hshape. cbn [app].
  rewrite lookup_insert_ne, lookup_insert_eq by done.
  rewrite lookup_insert_eq, Hfi, Hft.
  pose proof (view_rows_length (cfg_dataset_size config :: [H; W; 3]) bi) as Hvi.
  pose proof (view_rows_length (cfg_dataset_size config :: [H; W]) bt) as Hvt.
  cbn [hd] in Hvi, Hvt.
  rewrite !view_flatten.
  - rewrite !splice_lookup by lia. split; by case_decide.
  - rewrite splice_length by lia. done.
  - apply splice_Forall; [by apply view_rows_wf|].
    by rewrite row_size_mask.
  - rewrite splice_length by lia. done.
  - apply splice_Forall; [by apply view_rows_wf|].
    by rewrite row_size_rgb.
Qed.

(** ** The loop of [storage_raw.append] *)

Lemma Np_getitem_nat a (i : nat) r :
  rows a !! i = Some r → Np.getitem a (Z.of_nat i) = inr (mkRow (inner a) r).
Proof.
  intros Hr. unfold Np.getitem. apply lookup_lt_Some in Hr as Hlt.
  rewrite (proj2 (Z.ltb_ge _ _)) by lia.
  rewrite (proj2 (Z.leb_le _ _)) by lia.
  rewrite (proj2 (Z.ltb_lt _ _)) by lia. cbn [andb].
  by rewrite Nat2Z.id, Hr.
Qed.

Lemma fromarray_mode_rgb H W r :
  length r = H * W * 3 →
  Pil.fromarray_mode (mkRow [H; W; 3] r) RGB = inr (mkImage RGB H W r).
Proof.
  intros Hr. unfold Pil.fromarray_mode, Pil.build. cbn.
  rewrite decide_False by lia. by rewrite decide_True.
Qed.

Lemma fromarray_mode_l H W r :
  length r = H * W →
  Pil.fromarray_mode (mkRow [H; W] r) L = inr (mkImage L H W r).
Proof.
  intros Hr. unfold Pil.fromarray_mode, Pil.build. cbn.
  rewrite decide_False by lia. by rewrite decide_True by lia.
Qed.

Lemma save_eq jpeg fmt im im' path f :
  f !! path ≠ Some Dir → ImageFile.stored jpeg fmt im = inr im' →
  ImageFile.save jpeg fmt im path f = (inr tt, <[path := FileImg im']> f).
Proof.
  intros Hd Hs. unfold ImageFile.save. rewrite Hs.
  by destruct (f !! path) as [[]|].
Qed.

Lemma save_pair_run jpeg config H W ic tc (l i : nat) w ir tr :
  ok FlatFile config w → shaped FlatFile config (fs w) →
  inner ic = [H; W; 3] → inner tc = [H; W] → (l ≤ i)%nat →
  rows ic !! (i - l) = Some ir → length ir = H * W * 3 →
  rows tc !! (i - l) = Some tr → length tr = H * W →
  storage_raw.save_pair jpeg ic tc (Z.of_nat l) (Z.of_nat i) w =
    (inr tt,
     mkWorld (self w)
       (<[target_file (target_dir config) (Z.of_nat i) := FileImg (mkImage L H W tr)]>
          (<[input_file (input_dir config) (Z.of_nat i) :=
               FileImg (jpeg (mkImage RGB H W ir))]> (fs w)))).
Proof.
  intros (Hc & _ & Hip & Htp & Hii & Hit) Hsh Hi1 Hi2 Hl Hir Hlir Htr Hltr.
  destruct (Hsh i) as [Hd1 Hd2].
  apply post_eq. unfold storage_raw.save_pair.
  replace (Z.of_nat i - Z.of_nat l)%Z with (Z.of_nat (i - l)) by lia.
  rewrite (Np_getitem_nat ic _ ir Hir), (Np_getitem_nat tc _ tr Htr), Hi1, Hi2.
  mgo. rewrite fromarray_mode_rgb by done.
  mgo. unfold storage_raw.call. mgo.
  fold (input_file (input_dir config) (Z.of_nat i)).
  mcall (by apply save_eq). mgo. rewrite fromarray_mode_l by done.
  mgo. unfold storage_raw.call. mgo.
  fold (target_file (target_dir config) (Z.of_nat i)).
  mcall (apply save_eq; [|done];
         rewrite lookup_insert_ne by apply input_target_distinct; done).
  done.
Qed.

Lemma raw_loop jpeg config H W ic tc (l m : nat) :
  inner ic = [H; W; 3] → inner tc = [H; W] →
  ∀ (start : nat) w,
    ok FlatFile config w → shaped FlatFile config (fs w) → (l ≤ start)%nat →
    (∀ i, (start ≤ i < start + m)%nat →
          ∃ ir tr, rows ic !! (i - l) = Some ir ∧ length ir = H * W * 3 ∧
                   rows tc !! (i - l) = Some tr ∧ length tr = H * W) →
    ∃ f', storage_raw.for_each (seqZ (Z.of_nat start) (Z.of_nat m))
            (storage_raw.save_pair jpeg ic tc (Z.of_nat l)) w
            = (inr tt, mkWorld (self w) f') ∧
      shaped FlatFile config f' ∧
      ∀ i,
        input_cell FlatFile config f' i =
          (if decide (start ≤ i < start + m)%nat
           then written_input jpeg FlatFile H W <$> rows ic !! (i - l)
           else input_cell FlatFile config (fs w) i) ∧
        target_cell FlatFile config f' i =
          (if decide (start ≤ i < start + m)%nat
           then written_target FlatFile H W <$> rows tc !! (i - l)
           else target_cell FlatFile config (fs w) i).
Proof.
  intros Hi1 Hi2. induction m as [|m IH]; intros start w Hok Hsh Hl Hrows.
  { exists (fs w). cbn. split; [by destruct w|]. split; [done|].
    intros i. rewrite !decide_False by lia. done. }
  destruct (Hrows start) as (ir & tr & Hir & Hlir & Htr & Hltr); [lia|].
  rewrite seqZ_cons by lia.
  replace (Z.succ (Z.of_nat start)) with (Z.of_nat (S start)) by lia.
  replace (Z.pred (Z.of_nat (S m))) with (Z.of_nat m) by lia.
  cbn [storage_raw.for_each]. unfold bind at 1.
  rewrite (save_pair_run jpeg config H W ic tc l start w ir tr) by done.
  set (w1 := mkWorld _ _).
  destruct (IH (S start) w1) as (f' & Hrun & Hsh' & Hcells).
  { exact Hok. }
  { intros i. destruct (Hsh i) as [Hd1 Hd2]. cbn [fs w1]. split.
    - rewrite lookup_insert_ne by (symmetry; apply input_target_distinct).
      destruct (decide (i = start)) as [->|Hne]; [by rewrite lookup_insert_eq|].
      rewrite lookup_insert_ne; [done|].
      intros Heq. apply input_file_inj in Heq. lia.
    - destruct (decide (i = start)) as [->|Hne]; [by rewrite lookup_insert_eq|].
      rewrite lookup_insert_ne by (intros Heq; apply target_file_inj in Heq; lia).
      by rewrite lookup_insert_ne by apply input_target_distinct. }
  { lia. }
  { intros i Hi. apply Hrows. lia. }
  exists f'. split; [exact Hrun|]. split; [exact Hsh'|].
  intros i. destruct (Hcells i) as [Hci Hct]. rewrite Hci, Hct.
  destruct (decide (i = start)) as [->|Hne].
  - rewrite !(decide_False (P := (S start ≤ start < S start + m)%nat)) by lia.
    rewrite !(decide_True (P := (start ≤ start < start + S m)%nat)) by lia.
    cbn [input_cell target_cell fs w1 written_input written_target].
    rewrite lookup_insert_ne by (symmetry; apply input_target_distinct).
    rewrite !lookup_insert_eq, Hir, Htr. done.
  - cbn [input_cell target_cell fs w1].
    rewrite (lookup_insert_ne _ (target_file _ _) (input_file _ _))
      by (symmetry; apply input_target_distinct).
    rewrite (lookup_insert_ne _ (input_file _ (Z.of_nat start)) (input_file _ (Z.of_nat i)))
      by (intros Heq; apply input_file_inj in Heq; lia).
    rewrite (lookup_insert_ne _ (target_file _ (Z.of_nat start)) (target_file _ (Z.of_nat i)))
      by (intros Heq; apply target_file_inj in Heq; lia).
    rewrite (lookup_insert_ne _ (input_file _ _) (target_file _ _))
      by apply input_target_distinct.
    split; repeat case_decide; done || lia.
Qed.

Lemma raw_append_step jpeg config H W w (k : nat) ic tc :
  ok FlatFile config w → shaped FlatFile config (fs w) →
  self w !! "pos" = Some (VInt (Z.of_nat k)) →
  (left_index config k ≤ cfg_dataset_size config)%nat →
  chunk_ok H W (right_index config k - left_index config k) ic tc →
  ∃ w', append jpeg FlatFile ic tc w = (inr tt, w') ∧
    self w' = <["pos" := VInt (Z.of_nat (S k))]> (self w) ∧
    shaped FlatFile config (fs w') ∧
    ∀ i,
      input_cell FlatFile config (fs w') i =
        (if decide (left_index config k ≤ i < right_index config k)%nat
         then written_input jpeg FlatFile H W <$> rows ic !! (i - left_index config k)
         else input_cell FlatFile config (fs w) i) ∧
      target_cell FlatFile config (fs w') i =
        (if decide (left_index config k ≤ i < right_index config k)%nat
         then written_target FlatFile H W <$> rows tc !! (i - left_index config k)
         else target_cell FlatFile config (fs w) i).
Proof.
  intros Hok Hsh Hp Hl (Hi1 & Hi2 & Hn1 & Hn2 & Hf1 & Hf2).
  destruct (append_indices config k) as [El Er].
  set (lo := left_index config k) in *. set (hi := right_index config k) in *.
  assert (lo ≤ hi ≤ cfg_dataset_size config)%nat as Hlohi
    by (unfold hi, lo, right_index in *; lia).
  destruct (raw_loop jpeg config H W ic tc lo (hi - lo) Hi1 Hi2 lo w Hok Hsh)
    as (f' & Hrun & Hsh' & Hcells); [lia| |].
  { intros i Hi.
    destruct (lookup_lt_is_Some_2 (rows ic) (i - lo)) as [ir Hir]; [lia|].
    destruct (lookup_lt_is_Some_2 (rows tc) (i - lo)) as [tr Htr]; [lia|].
    exists ir, tr. split; [done|]. split.
    { eapply (Forall_lookup_1 _ _ (i - lo)) in Hf1; [exact Hf1|].
      rewrite lookup_take_lt by lia. done. }
    split; [done|].
    eapply (Forall_lookup_1 _ _ (i - lo)) in Hf2; [exact Hf2|].
    rewrite lookup_take_lt by lia. done. }
  destruct Hok as (Hc & _ & Hip & Htp & Hii & Hit).
  exists (mkWorld (<["pos" := VInt (Z.of_nat (S k))]> (self w)) f').
  split.
  { apply post_eq. cbn [append]. unfold storage_raw.append. mgo.
    rewrite !Er, !El.
    replace (Z.of_nat hi - Z.of_nat lo)%Z with (Z.of_nat (hi - lo)) by lia.
    unfold post at 1. rewrite Hrun. cbn [fst snd]. mgo.
    replace (Z.of_nat k + 1)%Z with (Z.of_nat (S k)) by lia. reflexivity. }
  split; [done|]. split; [done|].
  intros i. cbn [fs]. destruct (Hcells i) as [-> ->].
  replace (lo + (hi - lo))%nat with hi by lia. done.
Qed.

(** ** One [append], for every backend *)

Lemma append_step jpeg b config H W w (k : nat) ic tc :
  cfg_target_shape config = [H; W] →
  ok b config w → write_mode b w → shaped b config (fs w) →
  self w !! "pos" = Some (VInt (Z.of_nat k)) →
  (left_index config k ≤ cfg_dataset_size config)%nat →
  chunk_ok H W (right_index config k - left_index config k) ic tc →
  ∃ w', append jpeg b ic tc w = (inr tt, w') ∧
    self w' = <["pos" := VInt (Z.of_nat (S k))]> (self w) ∧
    shaped b config (fs w') ∧
    ∀ i,
      input_cell b config (fs w') i =
        (if decide (left_index config k ≤ i < right_index config k)%nat
         then written_input jpeg b H W <$> rows ic !! (i - left_index config k)
         else input_cell b config (fs w) i) ∧
      target_cell b config (fs w') i =
        (if decide (left_index config k ≤ i < right_index config k)%nat
         then written_target b H W <$> rows tc !! (i - left_index config k)
         else target_cell b config (fs w) i).
Proof.
  intros Hshape Hok Hwm Hsh Hp Hl Hck. destruct b.
  - by apply hdf5_append_step.
  - destruct (memmap_append_step jpeg config H W w k ic tc) as (w' & ? & ? & ?);
      try done.
    exists w'. done.
  - by apply raw_append_step.
Qed.

(** * The stored extents along the life of an instance *)

(** A fresh artifact location: no container file yet; no directory at
    the path of a sample file.  The mapped backend truncates its two
    files in any case. *)
Definition fresh_artifact (b : backend) (config : Config) (f : gmap string node) : Prop :=
  match b with
  | Container => f !! hdf5_filename config = None
  | MappedArray => True
  | FlatFile => shaped FlatFile config f
  end.

Lemma path_join_length a b :
  Str.startswith_sep b = false →
  (String.length a + String.length b ≤ String.length (Str.path_join a b)
   ≤ String.length a + String.length b + 1)%nat.
Proof.
  intros Hb. unfold Str.path_join. rewrite Hb. cbn [orb].
  destruct a as [|c a]; [cbn; lia|]. cbn [Str.is_empty].
  destruct (Str.endswith_sep _); rewrite !str_length_app; cbn [String.length]; lia.
Qed.

Lemma sample_file_not_artifact_dir config i p :
  p = artifact_stem config ∨ p = input_dir config ∨ p = target_dir config →
  input_file (input_dir config) i ≠ p ∧ target_file (target_dir config) i ≠ p.
Proof.
  intros Hp.
  pose proof (path_join_length (artifact_stem config) "Input" eq_refl) as Hi.
  pose proof (path_join_length (artifact_stem config) "Target" eq_refl) as Ht.
  pose proof (path_join_length (input_dir config)
                ("input" +:+ pretty i +:+ ".jpg") eq_refl) as Hfi.
  pose proof (path_join_length (target_dir config)
                ("target" +:+ pretty i +:+ ".png") eq_refl) as Hft.
  fold (input_dir config) in Hi. fold (target_dir config) in Ht.
  fold (input_file (input_dir config) i) in Hfi.
  fold (target_file (target_dir config) i) in Hft.
  rewrite !str_length_app in Hfi, Hft. cbn [String.length] in *.
  split; intros Heq; apply (f_equal String.length) in Heq;
    destruct Hp as [->|[->| ->]]; lia.
Qed.

Lemma makedirs_frame name exist_ok f r f' :
  Os.makedirs name exist_ok f = (r, f') → ∀ p, p ≠ name → f' !! p = f !! p.
Proof.
  unfold Os.makedirs. intros H p Hp.
  repeat case_match; simplify_eq; try done; by rewrite lookup_insert_ne.
Qed.

Lemma zeros_length n ish : length (rows (Np.zeros n ish)) = n.
Proof. unfold Np.zeros. cbn [rows]. by rewrite length_replicate. Qed.

Lemma construct_shaped b config f w0 :
  fresh_artifact b config f →
  construct b config (fresh f) = (inr tt, w0) →
  shaped b config (fs w0).
Proof.
  intros Hfresh Hrun. destruct b; cbn [construct fresh_artifact shaped] in *.
  - rewrite (hdf5_init_run config f ∅) in Hrun by eauto. simplify_eq. cbn [fs].
    unfold ensure_dataset. rewrite lookup_empty.
    rewrite (lookup_insert_ne _ "input" "target") by done. rewrite lookup_empty.
    eexists _, _, _. rewrite lookup_insert_eq. split; [done|].
    rewrite (lookup_insert_ne _ "target" "input") by done. rewrite !lookup_insert_eq.
    split; [done|]. split; [done|].
    unfold storage_hdf5.input_shape, storage_hdf5.target_shape. cbn [hd tl].
    by rewrite !zeros_length.
  - done.
  - revert Hrun.
    apply (post_success _ _ (λ w', shaped FlatFile config (fs w'))).
    unfold storage_raw.__init__, storage_class.__init__, fresh. eval_names.
    fold (input_dir config) (target_dir config).
    mauto; cbn [self fs]; try done.
    intros i. destruct (Hfresh i) as [Hd1 Hd2].
    destruct (sample_file_not_artifact_dir config (Z.of_nat i) (artifact_stem config))
      as [? ?]; [by left|].
    destruct (sample_file_not_artifact_dir config (Z.of_nat i) (input_dir config))
      as [? ?]; [by right; left|].
    destruct (sample_file_not_artifact_dir config (Z.of_nat i) (target_dir config))
      as [? ?]; [by right; right|].
    pose proof (makedirs_frame _ _ _ _ _ E) as F.
    pose proof (makedirs_frame _ _ _ _ _ E0) as F0.
    pose proof (makedirs_frame _ _ _ _ _ E1) as F1.
    split.
    + rewrite F1, F0, F by done. done.
    + rewrite F1, F0, F by done. done.
Qed.

Lemma H5_setslice_keeps_shaped config h key l r src f res f' :
  shaped Container config f → H5.setslice h key l r src f = (res, f') →
  shaped Container config f'.
Proof.
  intros Hsh H. apply H5_setslice_outcome in H as [->|H]; [done|].
  destruct H as (name & ds & a & rs & -> & -> & Hf & Hk & Has & ->).
  apply assign_rows_length in Has.
  destruct Hsh as (ds' & ai & at' & Hf' & Hi & Ht & Hli & Hii & Hlt & Hit).
  destruct (decide (name = hdf5_filename config)) as [->|Hne].
  - simplify_eq. cbn [shaped]. setoid_rewrite lookup_insert_eq.
    destruct (decide (key = "input")) as [->|Hki].
    + simplify_eq. eexists _, _, _. split; [done|].
      rewrite lookup_insert_eq, lookup_insert_ne by done.
      split; [done|]. split; [done|]. cbn [rows inner]. by rewrite Has.
    + destruct (decide (key = "target")) as [->|Hkt].
      * simplify_eq. eexists _, _, _. split; [done|].
        rewrite lookup_insert_eq, lookup_insert_ne by done.
        split; [done|]. split; [done|]. cbn [rows inner]. by rewrite Has.
      * eexists _, _, _. split; [done|].
        rewrite !lookup_insert_ne by done. done.
  - exists ds', ai, at'. by rewrite lookup_insert_ne.
Qed.

Lemma save_no_new_directory jpeg fmt im path f res f' :
  ImageFile.save jpeg fmt im path f = (res, f') →
  ∀ p, f !! p ≠ Some Dir → f' !! p ≠ Some Dir.
Proof.
  unfold ImageFile.save. intros H p Hp.
  repeat case_match; simplify_eq; try done.
  all: rewrite lookup_insert; case_decide; [done|done].
Qed.

Lemma save_pair_keeps_shaped jpeg config ic tc l idx w :
  shaped FlatFile config (fs w) →
  post (storage_raw.save_pair jpeg ic tc l idx) w
       (λ _ w', shaped FlatFile config (fs w')).
Proof.
  intros Hsh. unfold storage_raw.save_pair, storage_raw.call.
  mauto; cbn [self fs]; try done.
  all: repeat match goal with
         | E : ImageFile.save _ _ _ _ _ = _ |- _ =>
             let F := fresh "F" in
             pose proof (save_no_new_directory _ _ _ _ _ _ _ E) as F; clear E
         end.
  all: let j := fresh "j" in intros j; destruct (Hsh j); split; eauto.
Qed.

Lemma append_keeps_shaped jpeg b config ic tc w :
  shaped b config (fs w) → shaped b config (append jpeg b ic tc w).2.(fs).
Proof.
  intros Hsh.
  assert (post (append jpeg b ic tc) w (λ _ w', shaped b config (fs w'))) as H;
    [|exact H].
  destruct b; cbn [append]; [| |].
  - unfold storage_hdf5.append. mauto; cbn [self fs]; try done.
    all: repeat match goal with
           | E : H5.setslice _ _ _ _ _ _ = _ |- _ =>
               eapply H5_setslice_keeps_shaped in E; [|eassumption]
           end; done.
  - by unfold post.
  - unfold storage_raw.append. mauto; try done.
    eapply post_mono.
    { apply (for_each_post _ _ (λ w', shaped FlatFile config (fs w'))); [done|].
      intros x w1 Hw1. by apply save_pair_keeps_shaped. }
    intros [e|[]] w' Hw'; cbn beta iota; [done|].
    mauto; done.
Qed.

Lemma perform_keeps_shaped jpeg b config c w :
  ok b config w → shaped b config (fs w) → shaped b config (fs (perform jpeg b c w)).
Proof.
  intros Hok Hsh. destruct c; cbn [perform].
  - by rewrite (size_keeps_world b w).
  - by apply append_keeps_shaped.
  - destruct (lock_ok b config w Hok) as (w' & Hl & _ & Hfs & _).
    rewrite Hl. cbn [snd]. by rewrite Hfs.
  - by rewrite (get_keeps_world b idx w).
Qed.

Lemma history_keeps_shaped jpeg b config cs w :
  ok b config w → shaped b config (fs w) → shaped b config (fs (history jpeg b cs w)).
Proof.
  revert w. induction cs as [|c cs IH]; intros w Hok Hsh; [done|].
  rewrite history_cons. apply IH.
  - by apply perform_keeps_ok.
  - by apply perform_keeps_shaped.
Qed.

(** * The index range of one [append] (lines 69-74, 111-116, 157-165) *)

(** The invariants of an instance that was constructed over a fresh
    location and used without [lock]. *)
Lemma unlocked_history_invariants jpeg b config f w0 cs :
  fresh_artifact b config f →
  construct b config (fresh f) = (inr tt, w0) →
  forallb (λ c, negb (is_lock c)) cs = true →
  let w := history jpeg b cs w0 in
  ok b config w ∧ write_mode b w ∧ shaped b config (fs w).
Proof.
  intros Hfresh Hc Hcs w.
  pose proof (construct_shaped b config f w0 Hfresh Hc) as Hsh.
  apply construct_ok in Hc as [Hok Hwm].
  split; [by apply history_keeps_ok|].
  split; [by apply history_keeps_write_mode|].
  by apply history_keeps_shaped.
Qed.




(** * Reading back what was written (lines 76-84, 118-134, 167-175) *)

(** The image [__getitem__] returns for a stored RGB image [im]: the
    flat-file backend decodes the JPEG file and converts the result to
    RGB; the other two backends rebuild the image from the stored row. *)
Definition decoded (jpeg : Image → Image) (b : backend) (im : Image) : Image :=
  match b with
  | FlatFile => Pil.convert RGB (jpeg im)
  | _ => im
  end.

Lemma fromarray_rgb H W r :
  length r = H * W * 3 →
  Pil.fromarray (mkRow [H; W; 3] r) = inr (mkImage RGB H W r).
Proof.
  intros Hr. unfold Pil.fromarray, Pil.build. cbn.
  rewrite decide_False by lia. by rewrite decide_True.
Qed.

Lemma fromarray_l H W r :
  length r = H * W → Pil.fromarray (mkRow [H; W] r) = inr (mkImage L H W r).
Proof.
  intros Hr. unfold Pil.fromarray, Pil.build. cbn.
  rewrite decide_False by lia. by rewrite decide_True by lia.
Qed.

Lemma H5_getitem_row name md key ds a (i : nat) r f :
  md ≠ H5Closed →
  f !! name = Some (FileH5 ds) → ds !! key = Some a → rows a !! i = Some r →
  H5.getitem (VH5File name md) key (Z.of_nat i) f = (inr (mkRow (inner a) r), f).
Proof.
  intros Hmd Hf Hk Hr. unfold H5.getitem, H5.dataset, H5.arrays_of.
  destruct md; [| |done]; rewrite Hf, Hk; by rewrite (Np_getitem_nat a i r Hr).
Qed.

Lemma Memmap_getitem_row p wr shp bytes (i : nat) r f :
  f !! p = Some (FileBin bytes) → rows (Memmap.view shp bytes) !! i = Some r →
  Memmap.getitem (VMemmap p wr shp) (Z.of_nat i) f = (inr (mkRow (tl shp) r), f).
Proof.
  intros Hf Hr. unfold Memmap.getitem, Memmap.mapped. rewrite Hf.
  by rewrite (Np_getitem_nat _ i r Hr).
Qed.

Lemma open_eq path im f :
  f !! path = Some (FileImg im) → ImageFile.open path f = (inr im, f).
Proof. intros Hf. unfold ImageFile.open. by rewrite Hf. Qed.

Lemma get_after_lock jpeg b config H W w (i : nat) img mask :
  cfg_target_shape config = [H; W] →
  ok b config w → shaped b config (fs w) →
  input_cell b config (fs w) i = Some (written_input jpeg b H W img) →
  target_cell b config (fs w) i = Some (written_target b H W mask) →
  length img = H * W * 3 → length mask = H * W →
  ∃ w2, lock b w = (inr tt, w2) ∧ fs w2 = fs w ∧
    get b (Z.of_nat i) w2 =
      (inr (decoded jpeg b (mkImage RGB H W img), mkImage L H W mask), w2).
Proof.
  intros Hshape (Hc & [p Hp] & Hb) Hsh Hci Hct Hli Hlm.
  assert (post (lock b) w (λ r w2, r = inr tt ∧ fs w2 = fs w ∧
            get b (Z.of_nat i) w2 =
              (inr (decoded jpeg b (mkImage RGB H W img), mkImage L H W mask), w2))) as Hpost.
  2:{ unfold post in Hpost. destruct (lock b w) as [r w2]. cbn in Hpost.
      destruct Hpost as (-> & ? & ?). eauto. }
  destruct b; cbn [lock get decoded].
  - destruct Hb as ((md & Hmd & Hd) & _).
    destruct Hsh as (ds & a & t & Hf & Ha & Ht & Hla & Hia & Hlt & Hit).
    cbn [input_cell target_cell written_input written_target] in Hci, Hct.
    rewrite Hf in Hci, Hct. rewrite Ha in Hci. rewrite Ht in Hct.
    cbn in Hci, Hct.
    destruct (rows a !! i) as [ra|] eqn:Hra; [|done].
    destruct (rows t !! i) as [rt|] eqn:Hrt; [|done].
    cbn in Hci, Hct. simplify_eq.
    rewrite Hshape in Hia, Hit. cbn in Hia.
    unfold storage_hdf5.lock. mrun.
    mcall (unfold H5.File; rewrite Hf; reflexivity).
    mrun. cbn [self fs]. split; [done|]. split; [done|].
    apply post_eq. unfold storage_hdf5.__getitem__. mgo. cbn [truthy negb].
    mgo. mcall (by eapply H5_getitem_row). rewrite Hia. mgo.
    rewrite fromarray_rgb by done. mgo.
    mcall (by eapply H5_getitem_row). rewrite Hit. mgo.
    rewrite fromarray_l by done. mgo. done.
  - destruct Hb as (Hip & Htp & (wr & Hi & Ht) & Hbi & Hbt & Hn1 & Hn2).
    assert (mappable (input_npy config) (storage_memmap.input_shape config) (fs w)) as Hmi.
    { destruct Hbi as (bytes & ? & Hlen). exists bytes. split; [done|]. lia. }
    assert (mappable (target_npy config) (storage_memmap.target_shape config) (fs w)) as Hmt.
    { destruct Hbt as (bytes & ? & Hlen). exists bytes. split; [done|]. lia. }
    destruct Hbi as (bi & Hfi & _). destruct Hbt as (bt & Hft & _).
    cbn [input_cell target_cell written_input written_target] in Hci, Hct.
    rewrite Hfi in Hci. rewrite Hft in Hct.
    destruct (rows (Memmap.view (storage_memmap.input_shape config) bi) !! i)
      as [ra|] eqn:Hra; [|done].
    destruct (rows (Memmap.view (storage_memmap.target_shape config) bt) !! i)
      as [rt|] eqn:Hrt; [|done].
    cbn in Hci, Hct. simplify_eq.
    unfold storage_memmap.input_shape, storage_memmap.target_shape in *.
    rewrite Hshape in *. cbn [app] in *.
    unfold storage_memmap.lock. mrun.
    unfold storage_memmap.input_shape. rewrite Hshape. cbn [app].
    mcall (by apply open_r_mappable). mrun.
    unfold storage_memmap.target_shape. rewrite Hshape.
    mcall (by apply open_r_mappable). mrun.
    cbn [self fs]. split; [done|]. split; [done|].
    apply post_eq. unfold storage_memmap.__getitem__. mgo. cbn [truthy negb].
    mgo. mcall (by eapply Memmap_getitem_row). cbn [tl]. mgo.
    rewrite fromarray_rgb by done. mgo.
    mcall (by eapply Memmap_getitem_row). cbn [tl]. mgo.
    rewrite fromarray_l by done. mgo. done.
  - destruct Hb as (Hip & Htp & Hii & Hit).
    cbn [input_cell target_cell written_input written_target] in Hci, Hct.
    destruct (fs w !! input_file (input_dir config) (Z.of_nat i)) as [ni|] eqn:Hni; [|done].
    destruct (fs w !! target_file (target_dir config) (Z.of_nat i)) as [nt|] eqn:Hnt; [|done].
    cbn in Hci, Hct. simplify_eq.
    unfold storage_raw.lock. mrun. cbn [self fs]. split; [done|]. split; [done|].
    apply post_eq. unfold storage_raw.__getitem__. mgo. cbn [truthy negb].
    mgo. unfold storage_raw.call. mgo.
    fold (input_file (input_dir config) (Z.of_nat i)).
    mcall (by apply open_eq). mgo. unfold storage_raw.call. mgo.
    fold (target_file (target_dir config) (Z.of_nat i)).
    mcall (by apply open_eq). mgo. done.
Qed.

(** The writer of a dataset: one [append] per chunk, in order, up to the
    first exception. *)
Fixpoint write_chunks (jpeg : Image → Image) (b : backend)
    (chunks : list (ndarray * ndarray)) : M unit :=
  match chunks with
  | [] => ret tt
  | c :: rest => let* _ := append jpeg b c.1 c.2 in write_chunks jpeg b rest
  end.

Lemma left_right_index config k :
  (right_index config k ≤ left_index config (S k))%nat ∧
  (left_index config k ≤ left_index config (S k))%nat.
Proof. unfold right_index, left_index. lia. Qed.

Lemma write_chunks_run jpeg b config H W chunks :
  cfg_target_shape config = [H; W] →
  ∀ (k : nat) w,
    ok b config w → write_mode b w → shaped b config (fs w) →
    self w !! "pos" = Some (VInt (Z.of_nat k)) →
    (∀ j c, chunks !! j = Some c →
       (left_index config (k + j) ≤ cfg_dataset_size config)%nat ∧
       chunk_ok H W (right_index config (k + j) - left_index config (k + j)) c.1 c.2) →
    ∃ w', write_chunks jpeg b chunks w = (inr tt, w') ∧
      ok b config w' ∧ shaped b config (fs w') ∧
      self w' !! "pos" = Some (VInt (Z.of_nat (k + length chunks))) ∧
      (∀ i, (i < left_index config k)%nat →
         input_cell b config (fs w') i = input_cell b config (fs w) i ∧
         target_cell b config (fs w') i = target_cell b config (fs w) i) ∧
      (∀ j c i, chunks !! j = Some c →
         (left_index config (k + j) ≤ i < right_index config (k + j))%nat →
         input_cell b config (fs w') i =
           written_input jpeg b H W <$> rows c.1 !! (i - left_index config (k + j)) ∧
         target_cell b config (fs w') i =
           written_target b H W <$> rows c.2 !! (i - left_index config (k + j))).
Proof.
  intros Hshape. induction chunks as [|c rest IH]; intros k w Hok Hwm Hsh Hp Hchunks.
  { exists w. cbn [write_chunks length]. rewrite Nat.add_0_r.
    split; [done|]. split_and!; try done. }
  destruct (Hchunks 0 c eq_refl) as [Hl Hck]. rewrite Nat.add_0_r in Hl, Hck.
  destruct (append_step jpeg b config H W w k c.1 c.2 Hshape Hok Hwm Hsh Hp Hl Hck)
    as (w1 & Hrun & Hself & Hsh1 & Hcells).
  pose proof (append_keeps_ok jpeg b config c.1 c.2 w Hok) as Hok1.
  pose proof (perform_keeps_write_mode jpeg b (CallAppend c.1 c.2) w eq_refl Hwm) as Hwm1.
  cbn [perform] in Hwm1. rewrite Hrun in Hok1, Hwm1. cbn [snd] in Hok1, Hwm1.
  destruct (IH (S k) w1 Hok1 Hwm1 Hsh1) as (w' & Hrun' & Hok' & Hsh' & Hp' & Hfr & Hwr).
  { by rewrite Hself, lookup_insert_eq. }
  { intros j c' Hj. specialize (Hchunks (S j) c' Hj).
    by replace (S k + j) with (k + S j) by lia. }
  destruct (left_right_index config k) as [Hrl Hll].
  exists w'. split.
  { cbn [write_chunks]. unfold bind. by rewrite Hrun. }
  split; [done|]. split; [done|]. split.
  { rewrite Hp'. cbn [length]. do 3 f_equal. lia. }
  split.
  - intros i Hi. destruct (Hfr i) as [-> ->]; [lia|].
    destruct (Hcells i) as [-> ->]. by rewrite !decide_False by lia.
  - intros [|j] c' i Hj Hi.
    + cbn in Hj. simplify_eq. rewrite Nat.add_0_r in *.
      destruct (Hfr i) as [-> ->]; [lia|].
      destruct (Hcells i) as [-> ->]. by rewrite !decide_True by lia.
    + cbn in Hj. replace (k + S j) with (S k + j) in * by lia. by apply Hwr.
Qed.



(** * Masks and their colours (lines 178-201)

    [renumerate_target] takes a mask as the dataset has it, an array of
    [uint8]; [np.array] of Python integers is an [int64] array, held here
    by its shape and its elements in row-major order. *)

Record intarray := mkInts { ishape : list nat; idata : list Z }.

Module NpInt.

(** [a.min()]: refused on an array without elements. *)
Definition min (a : ndrow) : result byte :=
  match rdata a with
  | [] => inl ValueError
  | x :: xs =>
      inr (foldl (λ m y, if (Byte.to_N y <? Byte.to_N m)%N then y else m) x xs)
  end.

(** [a - m] for a [uint8] array and a [uint8] scalar: the difference
    modulo 256, element by element. *)
Definition sub (a : ndrow) (m : byte) : ndrow :=
  mkRow (rshape a)
        ((λ x, Pil.byte_of_N (Byte.to_N x + 256 - Byte.to_N m)) <$> rdata a).

(** [indexer[idx]] for a one-dimensional [indexer] and an array [idx] of
    [uint8] indices: the result has the shape of [idx]; an index beyond
    the last element is refused. *)
Definition take (indexer : list Z) (idx : ndrow) : result intarray :=
  match mapM (λ i, indexer !! N.to_nat (Byte.to_N i)) (rdata idx) with
  | Some vs => inr (mkInts (rshape idx) vs)
  | None => inl IndexError
  end.

(** [np.array(xs).reshape(shp)] for the elements [xs] in row-major
    order: refused when the shape asks for another number of elements. *)
Definition reshape (xs : list Z) (shp : list nat) : result intarray :=
  if decide (length xs = foldr Nat.mul 1 shp) then inr (mkInts shp xs)
  else inl ValueError.

End NpInt.

(** Lines 178-190. *)
Definition renumerate_target (target : ndrow) (label : Z) : result intarray :=
  let target_map := [(1, label); (2, 0); (3, 255)]%Z in
  let indexer := target_map.*2 in
  match NpInt.min target with
  | inl e => inl e
  | inr m => NpInt.take indexer (NpInt.sub target m)
  end.

(** The dictionary of line 194. *)
Definition color_map : gmap Z (list Z) :=
  {[ 0 := [0; 0; 0]; 1 := [0; 0; 255]; 2 := [255; 0; 0]; 255 := [255; 255; 255] ]}%Z.

(** Lines 193-201: a pixel that is no key of [color_map] raises
    [KeyError]. *)
Definition colorize (data : intarray) : result intarray :=
  match mapM (λ pixel, color_map !! pixel) (idata data) with
  | None => inl KeyError
  | Some colors => NpInt.reshape (mjoin colors) (ishape data ++ [3])%list
  end.

(** An array has as many elements as its shape says. *)
Definition mask_wf (a : ndrow) : Prop := length (rdata a) = foldr Nat.mul 1 (rshape a).
Definition ints_wf (a : intarray) : Prop := length (idata a) = foldr Nat.mul 1 (ishape a).

(** [m] is the least element of [xs]. *)
Definition least (m : byte) (xs : list byte) : Prop :=
  m ∈ xs ∧ Forall (λ x, (Byte.to_N m ≤ Byte.to_N x)%N) xs.

(** The value [renumerate_target] gives a pixel [x] of a mask whose
    least value is [m]. *)
Definition relabel (m : byte) (label : Z) (x : byte) : Z :=
  if decide (Byte.to_N x = Byte.to_N m) then label
  else if decide (Byte.to_N x = Byte.to_N m + 1)%N then 0
  else 255.

Lemma foldl_min_least x xs :
  least (foldl (λ m y, if (Byte.to_N y <? Byte.to_N m)%N then y else m) x xs) (x :: xs).
Proof.
  revert x. induction xs as [|y xs IH]; intros x.
  { split; [by left|]. by constructor. }
  cbn [foldl]. destruct (N.ltb_spec (Byte.to_N y) (Byte.to_N x)) as [Hlt|Hge].
  - destruct (IH y) as [Hin Hall]. split.
    + right. exact Hin.
    + apply Forall_cons in Hall as [Hy Hxs].
      constructor; [lia|]. constructor; done.
  - destruct (IH x) as [Hin Hall]. split.
    + apply elem_of_cons in Hin as [->|Hin]; [by left|by right; right].
    + apply Forall_cons in Hall as [Hx Hxs].
      constructor; [done|]. constructor; [lia|done].
Qed.

Lemma byte_to_N_inj x y : Byte.to_N x = Byte.to_N y → x = y.
Proof.
  intros H. pose proof (Byte.of_to_N x) as Hx. rewrite H, Byte.of_to_N in Hx.
  by simplify_eq.
Qed.

Lemma least_unique m m' xs : least m xs → least m' xs → m = m'.
Proof.
  intros [Hin Hall] [Hin' Hall']. rewrite Forall_forall in Hall, Hall'.
  apply byte_to_N_inj. specialize (Hall _ Hin'). specialize (Hall' _ Hin). lia.
Qed.

Lemma NpInt_min_least a m : least m (rdata a) → NpInt.min a = inr m.
Proof.
  intros Hm. unfold NpInt.min. destruct (rdata a) as [|x xs].
  { destruct Hm as [Hin _]. by apply elem_of_nil in Hin. }
  f_equal. eapply least_unique; [apply foldl_min_least|done].
Qed.

Lemma sub_u8_exact x m :
  (Byte.to_N m ≤ Byte.to_N x)%N →
  Byte.to_N (Pil.byte_of_N (Byte.to_N x + 256 - Byte.to_N m)) = (Byte.to_N x - Byte.to_N m)%N.
Proof.
  intros Hle. pose proof (Byte.to_N_bounded x) as Hx.
  unfold Pil.byte_of_N.
  replace ((Byte.to_N x + 256 - Byte.to_N m) `mod` 256)%N
    with (Byte.to_N x - Byte.to_N m)%N.
  2:{ apply (N.mod_unique _ 256 1); lia. }
  destruct (Byte.of_N (Byte.to_N x - Byte.to_N m)) as [y|] eqn:Hy.
  - cbn [default]. by apply Byte.to_of_N.
  - apply Byte.of_N_None_iff in Hy. lia.
Qed.

(** The run of [renumerate_target] on a mask whose least value is [m]. *)
Lemma renumerate_target_run target label m :
  least m (rdata target) →
  renumerate_target target label =
    if decide (Forall (λ x, (Byte.to_N x ≤ Byte.to_N m + 2)%N) (rdata target))
    then inr (mkInts (rshape target) (relabel m label <$> rdata target))
    else inl IndexError.
Proof.
  intros Hm. unfold renumerate_target. rewrite (NpInt_min_least _ _ Hm).
  unfold NpInt.take, NpInt.sub. cbn [rdata rshape fmap list_fmap].
  destruct Hm as [_ Hall]. case_decide as Hspread.
  - erewrite mapM_Some_2; [reflexivity|].
    apply Forall2_fmap_l, Forall2_fmap_r, Forall_Forall2_diag.
    rewrite Forall_forall in Hall, Hspread. apply Forall_forall. intros x Hx.
    specialize (Hall x Hx). specialize (Hspread x Hx). unfold compose. cbn [snd].
    rewrite sub_u8_exact by done. unfold relabel.
    destruct (decide (Byte.to_N x = Byte.to_N m)) as [->|H0].
    { by rewrite N.sub_diag. }
    destruct (decide (Byte.to_N x = (Byte.to_N m + 1)%N)) as [->|H1].
    { by replace (Byte.to_N m + 1 - Byte.to_N m)%N with 1%N by lia. }
    by replace (Byte.to_N x - Byte.to_N m)%N with 2%N by lia.
  - rewrite mapM_None_2; [done|].
    apply not_Forall_Exists in Hspread; [|intros x; apply _].
    apply Exists_exists in Hspread as (x & Hin & Hx).
    rewrite Forall_forall in Hall. specialize (Hall x Hin).
    apply Exists_exists. eexists. split; [by apply list_elem_of_fmap_2|].
    cbn beta. rewrite sub_u8_exact by done.
    apply lookup_ge_None_2. unfold compose in Hx. cbn [length]. lia.
Qed.

Global Instance byte_eq_dec : EqDecision byte.
Proof.
  intros x y. destruct (decide (Byte.to_N x = Byte.to_N y)) as [H|H].
  - left. by apply byte_to_N_inj.
  - right. congruence.
Defined.

(** Cases of a membership in a list that is written out. *)
Ltac one_of H :=
  cbn beta in H;
  repeat (apply elem_of_cons in H as [->|H]; [by vm_compute|]);
  by apply elem_of_nil in H.

(** X3: [renumerate_target] maps relative to the least value of the
    mask.  An empty mask raises [ValueError] (from [min]).  With least value
    [m], a pixel above [m + 2] raises [IndexError]; otherwise the result has
    the shape of the mask and a pixel [m], [m + 1], [m + 2] becomes
    [label], [0], [255]. *)
Theorem renumerate_target_relative_to_least (target : ndrow) (label : Z) :
  (rdata target = [] → renumerate_target target label = inl ValueError) ∧
  (∀ m, least m (rdata target) →
     (Forall (λ x, (Byte.to_N x ≤ Byte.to_N m + 2)%N) (rdata target) →
      renumerate_target target label =
        inr (mkInts (rshape target) (relabel m label <$> rdata target))) ∧
     (Exists (λ x, (Byte.to_N m + 2 < Byte.to_N x)%N) (rdata target) →
      renumerate_target target label = inl IndexError)).
Proof.
  split.
  { intros He. unfold renumerate_target, NpInt.min. by rewrite He. }
  intros m Hm. rewrite (renumerate_target_run target label m Hm). split.
  - intros Hall. by rewrite decide_True.
  - intros Hex. rewrite decide_False; [done|].
    intros Hall. apply Exists_exists in Hex as (x & Hin & Hx).
    rewrite Forall_forall in Hall. specialize (Hall x Hin). lia.
Qed.

Lemma renumerate_target_relative_to_least_witness :
  let target := mkRow [2; 2] ["005"; "006"; "007"; "005"]%byte in
  let wide := mkRow [3] ["005"; "006"; "008"]%byte in
  renumerate_target target 2 =
    inr (mkInts [2; 2] (relabel "005" 2 <$> ["005"; "006"; "007"; "005"]%byte)) ∧
  renumerate_target wide 2 = inl IndexError.
Proof.
  cbv zeta. split.
  - refine (proj1 (proj2 (renumerate_target_relative_to_least
                            (mkRow [2; 2] ["005"; "006"; "007"; "005"]%byte) 2)
                         "005"%byte _) _).
    + split; [by left|]. by repeat constructor.
    + by repeat constructor.
  - refine (proj2 (proj2 (renumerate_target_relative_to_least
                            (mkRow [3] ["005"; "006"; "008"]%byte) 2)
                         "005"%byte _) _).
    + split; [by left|]. by repeat constructor.
    + do 2 right. left. done.
Defined.

(** X4: on a trimap with values 1, 2, 3 in which value 1 occurs,
    [renumerate_target] returns the mask with 1 replaced by [label], 2 by 0
    and 3 by 255, in the same shape. *)
Theorem renumerate_target_trimap (target : ndrow) (label : Z) :
  Forall (λ x, x ∈ ["001"; "002"; "003"]%byte) (rdata target) →
  "001"%byte ∈ rdata target →
  renumerate_target target label =
    inr (mkInts (rshape target)
           ((λ x, if decide (x = "001"%byte) then label
                  else if decide (x = "002"%byte) then 0 else 255)%Z
              <$> rdata target)).
Proof.
  intros Hall Hin.
  assert (least "001"%byte (rdata target)) as Hm.
  { split; [done|]. eapply Forall_impl; [exact Hall|].
    intros x Hx. one_of Hx. }
  rewrite (renumerate_target_run target label _ Hm). rewrite decide_True.
  2:{ eapply Forall_impl; [exact Hall|].
      intros x Hx. one_of Hx. }
  do 2 f_equal. apply Forall_fmap_ext_1.
  eapply Forall_impl; [exact Hall|].
  intros x Hx. one_of Hx.
Qed.

Lemma renumerate_target_trimap_witness :
  renumerate_target (mkRow [2; 2] ["002"; "001"; "003"; "002"]%byte) 2 =
    inr (mkInts [2; 2] [0; 2; 255; 0]%Z).
Proof.
  apply (renumerate_target_trimap (mkRow [2; 2] ["002"; "001"; "003"; "002"]%byte) 2).
  - compute_done.
  - compute_done.
Defined.

(** X5: on a trimap in which value 1 does not occur (values 2 and 3,
    2 occurring), the subtraction of the least value shifts the table: the
    background value 2 becomes [label] and the outline value 3 becomes 0. *)
Theorem renumerate_target_without_object (target : ndrow) (label : Z) :
  Forall (λ x, x ∈ ["002"; "003"]%byte) (rdata target) →
  "002"%byte ∈ rdata target →
  renumerate_target target label =
    inr (mkInts (rshape target)
           ((λ x, if decide (x = "002"%byte) then label else 0)%Z <$> rdata target)).
Proof.
  intros Hall Hin.
  assert (least "002"%byte (rdata target)) as Hm.
  { split; [done|]. eapply Forall_impl; [exact Hall|].
    intros x Hx. one_of Hx. }
  rewrite (renumerate_target_run target label _ Hm). rewrite decide_True.
  2:{ eapply Forall_impl; [exact Hall|].
      intros x Hx. one_of Hx. }
  do 2 f_equal. apply Forall_fmap_ext_1.
  eapply Forall_impl; [exact Hall|].
  intros x Hx. one_of Hx.
Qed.

Lemma renumerate_target_without_object_witness :
  renumerate_target (mkRow [3] ["002"; "003"; "002"]%byte) 1 =
    inr (mkInts [3] [1; 0; 1]%Z).
Proof.
  apply (renumerate_target_without_object (mkRow [3] ["002"; "003"; "002"]%byte) 1).
  - compute_done.
  - compute_done.
Defined.

(** ** [colorize] *)

Definition color_keys : list Z := [0; 1; 2; 255]%Z.

Lemma color_map_lookup_Some p c :
  color_map !! p = Some c → p ∈ color_keys ∧ length c = 3.
Proof.
  unfold color_map, color_keys. intros H.
  repeat (apply lookup_insert_Some in H as [[<- <-]|[? H]]; [split; [set_solver|done]|]).
  apply lookup_singleton_Some in H as [<- <-]. split; [set_solver|done].
Qed.

Lemma color_map_lookup_None p : color_map !! p = None ↔ p ∉ color_keys.
Proof.
  split.
  - intros H Hin. unfold color_keys in Hin. one_of Hin.
  - intros Hin. destruct (color_map !! p) as [c|] eqn:E; [|done].
    by apply color_map_lookup_Some in E as [? _].
Qed.

Lemma color_map_inj p q c :
  color_map !! p = Some c → color_map !! q = Some c → p = q.
Proof.
  intros Hp Hq.
  pose proof (color_map_lookup_Some _ _ Hp) as [Hpk _].
  pose proof (color_map_lookup_Some _ _ Hq) as [Hqk _].
  unfold color_keys in *.
  repeat (apply elem_of_cons in Hpk as [->|Hpk]);
    [| | | |by apply elem_of_nil in Hpk];
    repeat (apply elem_of_cons in Hqk as [->|Hqk]);
    try (by apply elem_of_nil in Hqk); try done;
    vm_compute in Hp, Hq; congruence.
Qed.

Lemma size_with_channels shp : foldr Nat.mul 1 (shp ++ [3])%list = foldr Nat.mul 1 shp * 3.
Proof. induction shp as [|n shp IH]; [done|]. cbn. cbn in IH. rewrite IH. lia. Qed.

Lemma join_length_uniform {A} (k : nat) (cs : list (list A)) :
  Forall (λ c, length c = k) cs → length (mjoin cs) = length cs * k.
Proof.
  induction 1 as [|c cs Hc _ IH]; [done|].
  change (mjoin (c :: cs)) with (c ++ mjoin cs)%list.
  rewrite length_app, Hc, IH. cbn [length]. lia.
Qed.

Lemma join_chunk {A} (k : nat) (cs : list (list A)) (i : nat) c :
  Forall (λ c, length c = k) cs → cs !! i = Some c →
  take k (drop (i * k) (mjoin cs)) = c.
Proof.
  intros Hall. revert i. induction Hall as [|c' cs Hc _ IH]; intros i Hi; [done|].
  destruct i as [|i]; cbn in Hi.
  - simplify_eq. change (mjoin (c :: cs)) with (c ++ mjoin cs)%list.
    rewrite Nat.mul_0_l, drop_0. by rewrite take_app_length' by done.
  - change (mjoin (c' :: cs)) with (c' ++ mjoin cs)%list.
    replace (S i * k) with (length c' + i * k) by lia.
    rewrite drop_app_add. by apply IH.
Qed.

Lemma join_inj_uniform {A} (k : nat) (cs ds : list (list A)) :
  0 < k → Forall (λ c, length c = k) cs → Forall (λ c, length c = k) ds →
  mjoin cs = mjoin ds → cs = ds.
Proof.
  intros Hk Hcs. revert ds. induction Hcs as [|c cs Hc Hcs IH]; intros ds Hds Heq.
  - destruct Hds as [|d ds Hd _]; [done|].
    change (mjoin (d :: ds)) with (d ++ mjoin ds)%list in Heq.
    apply (f_equal length) in Heq. rewrite length_app in Heq. cbn in Heq. lia.
  - destruct Hds as [|d ds Hd Hds].
    + change (mjoin (c :: cs)) with (c ++ mjoin cs)%list in Heq.
      apply (f_equal length) in Heq. rewrite length_app in Heq. cbn in Heq. lia.
    + change (mjoin (c :: cs)) with (c ++ mjoin cs)%list in Heq.
      change (mjoin (d :: ds)) with (d ++ mjoin ds)%list in Heq.
      apply app_inj_1 in Heq as [-> Heq]; [|congruence].
      f_equal. by apply IH.
Qed.

Lemma colors_uniform pixels colors :
  mapM (λ pixel : Z, color_map !! pixel) pixels = Some colors →
  Forall (λ c, length c = 3) colors.
Proof.
  intros H. apply mapM_Some_1 in H.
  induction H as [|p c ps cs Hp _ IH]; constructor; [|done].
  by apply color_map_lookup_Some in Hp as [_ ?].
Qed.

(** The run of [colorize] on an array whose pixels are all keys. *)
Lemma colorize_run data :
  ints_wf data → Forall (λ p, p ∈ color_keys) (idata data) →
  ∃ colors, mapM (λ pixel, color_map !! pixel) (idata data) = Some colors ∧
            colorize data = inr (mkInts (ishape data ++ [3])%list (mjoin colors)).
Proof.
  intros Hwf Hall.
  destruct (mapM (λ pixel, color_map !! pixel) (idata data)) as [colors|] eqn:E.
  2:{ apply mapM_None_1, Exists_exists in E as (p & Hin & Hp).
      rewrite Forall_forall in Hall. apply color_map_lookup_None in Hp.
      exfalso. by apply Hp, Hall. }
  exists colors. split; [done|]. unfold colorize. rewrite E. unfold NpInt.reshape.
  rewrite decide_True; [done|].
  rewrite size_with_channels, (join_length_uniform 3) by by eapply colors_uniform.
  apply length_mapM in E. unfold ints_wf in Hwf. lia.
Qed.

(** X6: [colorize] accepts exactly the arrays whose pixels are all among
    0, 1, 2 and 255; any other pixel raises [KeyError].  The result has the
    shape of the input with an axis of length 3 added, and holds at
    positions [3 * i .. 3 * i + 2] the colour [color_map] gives pixel [i]. *)
Theorem colorize_outcome (data : intarray) :
  ints_wf data →
  (Forall (λ p, p ∈ color_keys) (idata data) →
   ∃ out, colorize data = inr out ∧
          ishape out = (ishape data ++ [3])%list ∧ ints_wf out ∧
          ∀ i p, idata data !! i = Some p →
                 color_map !! p = Some (take 3 (drop (i * 3) (idata out)))) ∧
  (Exists (λ p, p ∉ color_keys) (idata data) → colorize data = inl KeyError).
Proof.
  intros Hwf. split.
  - intros Hall. destruct (colorize_run data Hwf Hall) as (colors & Hm & Hrun).
    eexists. split; [exact Hrun|]. cbn [ishape idata]. split; [done|].
    pose proof (colors_uniform _ _ Hm) as Hu. split.
    + unfold ints_wf. cbn [ishape idata].
      rewrite size_with_channels, (join_length_uniform 3) by done.
      apply length_mapM in Hm. unfold ints_wf in Hwf. lia.
    + intros i p Hi. apply mapM_Some_1 in Hm.
      destruct (Forall2_lookup_l _ _ _ _ _ Hm Hi) as (c & Hc & Hpc).
      by rewrite (join_chunk 3 colors i c).
  - intros Hex. unfold colorize. rewrite mapM_None_2; [done|].
    eapply Exists_impl; [exact Hex|]. intros p Hp. by apply color_map_lookup_None.
Qed.

Lemma colorize_outcome_witness :
  let data := mkInts [2; 2] [0; 1; 2; 255]%Z in
  (∃ out, colorize data = inr out ∧
          ishape out = [2; 2; 3] ∧ ints_wf out ∧
          ∀ i p, idata data !! i = Some p →
                 color_map !! p = Some (take 3 (drop (i * 3) (idata out)))) ∧
  colorize (mkInts [2] [0; 3]%Z) = inl KeyError.
Proof.
  cbv zeta. split.
  - refine (proj1 (colorize_outcome (mkInts [2; 2] [0; 1; 2; 255]%Z) _) _).
    + reflexivity.
    + compute_done.
  - refine (proj2 (colorize_outcome (mkInts [2] [0; 3]%Z) _) _).
    + reflexivity.
    + compute_done.
Defined.

(** X7: [colorize] loses nothing: two arrays with the same coloured
    image are the same array. *)
Theorem colorize_injective (a b : intarray) (out : intarray) :
  colorize a = inr out → colorize b = inr out → a = b.
Proof.
  unfold colorize, NpInt.reshape. intros Ha Hb.
  destruct (mapM _ (idata a)) as [ca|] eqn:Ea; [|done].
  destruct (mapM _ (idata b)) as [cb|] eqn:Eb; [|done].
  destruct (decide (length (mjoin ca) = _)) as [_|]; [|done].
  destruct (decide (length (mjoin cb) = _)) as [_|]; [|done].
  injection Ha as <-. injection Hb as Hshape Hdata.
  apply app_inv_tail in Hshape.
  apply (join_inj_uniform 3) in Hdata;
    [|lia|by eapply colors_uniform|by eapply colors_uniform].
  subst cb. apply mapM_Some_1 in Ea, Eb.
  assert (idata b = idata a) as Hd.
  { clear -Ea Eb. revert Eb. generalize (idata b).
    induction Ea as [|p c ps cs Hp _ IH]; intros qs Hq.
    - by apply Forall2_nil_inv_r in Hq.
    - apply Forall2_cons_inv_r in Hq as (q & qs' & Hq & Hqs & ->).
      f_equal; [by eapply color_map_inj|by apply IH]. }
  destruct a, b. cbn in *. congruence.
Qed.

Lemma colorize_injective_witness :
  mkInts [2] [1; 2]%Z = mkInts [2] [1; 2]%Z.
Proof.
  apply (colorize_injective _ _ (mkInts [2; 3] [0; 0; 255; 255; 0; 0]%Z));
    vm_compute; reflexivity.
Defined.

(** What [renumerate_target] returned, read back from its result. *)
Lemma renumerate_target_returned target label t :
  renumerate_target target label = inr t →
  ∃ m, least m (rdata target) ∧
       t = mkInts (rshape target) (relabel m label <$> rdata target).
Proof.
  intros Hrun. destruct target as [shp [|x xs]]; [done|].
  pose proof (foldl_min_least x xs) as Hm.
  eexists. split; [exact Hm|].
  rewrite (renumerate_target_run (mkRow shp (x :: xs)) label _ Hm) in Hrun.
  case_decide; by simplify_eq.
Qed.

(** X8: [colorize] applied to a mask that [renumerate_target] returned:
    the least pixel of the mask always becomes [label], so the colouring
    returns when [label] is one of 0, 1, 2, 255 and raises [KeyError] for
    every other label. *)
Theorem colorize_renumerated_target (target : ndrow) (label : Z) (t : intarray) :
  mask_wf target →
  renumerate_target target label = inr t →
  (label ∈ color_keys →
   ∃ out, colorize t = inr out ∧ ishape out = (rshape target ++ [3])%list) ∧
  (label ∉ color_keys → colorize t = inl KeyError).
Proof.
  intros Hwf Hrun.
  apply renumerate_target_returned in Hrun as (m & [Hin Hall] & ->).
  split.
  - intros Hl.
    destruct (colorize_run (mkInts (rshape target) (relabel m label <$> rdata target)))
      as (colors & _ & Hc).
    + unfold ints_wf. cbn [idata ishape]. by rewrite length_fmap.
    + cbn [idata]. apply Forall_fmap, Forall_forall. intros x _.
      unfold compose, relabel. repeat case_decide; [done|compute_done..].
    + eexists. split; [exact Hc|done].
  - intros Hl. unfold colorize. cbn [idata]. rewrite mapM_None_2; [done|].
    apply Exists_fmap, Exists_exists. exists m. split; [done|].
    unfold compose, relabel. rewrite decide_True by done.
    by apply color_map_lookup_None.
Qed.

Lemma colorize_renumerated_target_witness :
  let target := mkRow [2; 2] ["001"; "002"; "003"; "001"]%byte in
  (∃ out, colorize (mkInts [2; 2] [2; 0; 255; 2]%Z) = inr out ∧
          ishape out = [2; 2; 3]) ∧
  colorize (mkInts [2; 2] [7; 0; 255; 7]%Z) = inl KeyError.
Proof.
  cbv zeta. split.
  - refine (proj1 (colorize_renumerated_target
                     (mkRow [2; 2] ["001"; "002"; "003"; "001"]%byte) 2 _ _ _) _).
    + reflexivity.
    + vm_compute. reflexivity.
    + compute_done.
  - refine (proj2 (colorize_renumerated_target
                     (mkRow [2; 2] ["001"; "002"; "003"; "001"]%byte) 7 _ _ _) _).
    + reflexivity.
    + vm_compute. reflexivity.
    + compute_done.
Defined.

(** * Reads, [lock] and later writes *)

(** X9: [size()] and [get(idx)] change nothing, in any state of the
    instance and of the file system, whether they return or raise: the
    attributes, the files and the directories are as before. *)
Theorem size_and_get_change_nothing (b : backend) (idx : Z) (w : world) :
  (size b w).2 = w ∧ (get b idx w).2 = w.
Proof.
  split.
  - apply (size_keeps_world b w).
  - apply (get_keeps_world b idx w).
Qed.

(** X10: on a constructed instance [lock] returns after any sequence of
    calls, also when it was called before; it sets the flag of the subclass
    and leaves [pos] and every file as they are. *)
Theorem lock_returns_and_keeps_files (jpeg : Image → Image) (b : backend)
    (config : Config) (f : gmap string node) (w0 : world) (cs : list call) :
  construct b config (fresh f) = (inr tt, w0) →
  let w := history jpeg b cs w0 in
  ∃ w', lock b w = (inr tt, w') ∧
        fs w' = fs w ∧
        self w' !! "pos" = self w !! "pos" ∧
        self w' !! lock_key b = Some (VBool true).
Proof.
  intros Hc w. apply construct_ok in Hc as [Hok _].
  destruct (lock_ok b config w) as (w' & Hlock & _ & Hfs & Hpos).
  { by apply history_keeps_ok. }
  exists w'. split; [done|]. split; [done|]. split; [done|].
  pose proof (lock_sets_flag b w) as Hflag. unfold post in Hflag.
  by rewrite Hlock in Hflag.
Qed.

Lemma lock_returns_and_keeps_files_witness :
  let config := mkConfig "data/train.txt" 2 [1; 1] 2 in
  let w0 := (construct Container config (fresh ∅)).2 in
  let w := history id Container [CallLock; CallSize; CallGet 0] w0 in
  ∃ w', lock Container w = (inr tt, w') ∧
        fs w' = fs w ∧
        self w' !! "pos" = self w !! "pos" ∧
        self w' !! lock_key Container = Some (VBool true).
Proof.
  cbv zeta.
  apply (lock_returns_and_keeps_files id Container
           (mkConfig "data/train.txt" 2 [1; 1] 2) ∅ _ [CallLock; CallSize; CallGet 0]).
  vm_compute. reflexivity.
Defined.



(** ** [append] after [lock] in the two array backends *)











(** * What the constructors leave on disk *)

Lemma reshape_replicate {A} (n k : nat) (x : A) (rest : list A) :
  reshape (replicate n k) (replicate (n * k) x ++ rest)%list = replicate n (replicate k x).
Proof.
  induction n as [|n IH]; [done|].
  cbn [replicate reshape]. cbn [Nat.mul]. rewrite replicate_add, <- (assoc_L (++)).
  rewrite take_app_length' by by rewrite length_replicate.
  rewrite drop_app_length' by by rewrite length_replicate.
  by rewrite IH.
Qed.

Lemma view_zeros n ish :
  rows (Memmap.view (n :: ish) (replicate (Memmap.nbytes (n :: ish)) "000"%byte))
    = replicate n (replicate (Np.row_size ish) "000"%byte).
Proof.
  unfold Memmap.view, Memmap.nbytes. cbn [rows hd tl].
  change (Np.row_size (n :: ish)) with (n * Np.row_size ish).
  rewrite <- (app_nil_r (replicate (n * _) _)). apply reshape_replicate.
Qed.



(** X14: in the two array backends [size()] does not measure what was
    written: on an instance constructed over a fresh location it returns
    [N] after any sequence of calls, also when nothing was appended. *)
Theorem array_size_is_configured_count (jpeg : Image → Image) (b : backend)
    (config : Config) (f : gmap string node) (w0 : world) (cs : list call) :
  b ≠ FlatFile →
  fresh_artifact b config f →
  construct b config (fresh f) = (inr tt, w0) →
  let w := history jpeg b cs w0 in
  size b w = (inr (cfg_dataset_size config), w).
Proof.
  intros Hb Hfresh Hc w.
  pose proof (construct_shaped b config f w0 Hfresh Hc) as Hsh.
  apply construct_ok in Hc as [Hok _].
  rewrite (size_ok b config w) by by apply history_keeps_ok.
  f_equal. destruct b; [| |done]; cbn [size_outcome]; [|done].
  destruct (history_keeps_shaped jpeg Container config cs w0 Hok Hsh)
    as (ds & a & t & Hf & Ha & Ht & Hla & Hia & Hlt & Hit).
  fold w in Hf. rewrite Hf, Ha, Ht. rewrite decide_True; [done|].
  split; [|done]. unfold Np.shape. rewrite Hla, Hlt, Hia, Hit.
  apply (removelast_last (_ :: _)).
Qed.

Lemma array_size_is_configured_count_witness :
  let config := mkConfig "data/train.txt" 5 [2; 2] 2 in
  let w0 := (construct Container config (fresh ∅)).2 in
  size Container (history id Container [] w0)
    = (inr 5, history id Container [] w0).
Proof.
  cbv zeta.
  apply (array_size_is_configured_count id Container
           (mkConfig "data/train.txt" 5 [2; 2] 2) ∅ _ []).
  - done.
  - reflexivity.
  - vm_compute. reflexivity.
Defined.

(** * A chunk that is too short (lines 157-165) *)







(** * The derived path in general (lines 53, 78, 91, 141) *)

(** Every character of [s] occurs in [chars]. *)
Fixpoint all_in (chars s : string) : bool :=
  match s with
  | EmptyString => true
  | String c s' => Str.mem c chars && all_in chars s'
  end.

Fixpoint last_char (s : string) : option ascii :=
  match s with
  | EmptyString => None
  | String c EmptyString => Some c
  | String _ s' => last_char s'
  end.

Lemma rstrip_split chars s :
  ∃ suffix, s = Str.rstrip chars s +:+ suffix ∧ all_in chars suffix = true.
Proof.
  induction s as [|c s (suffix & Heq & Hall)].
  { by exists "". }
  cbn [Str.rstrip]. destruct (Str.rstrip chars s) as [|c' r] eqn:Er.
  - change ("" +:+ suffix) with suffix in Heq. subst suffix. destruct (Str.mem c chars) eqn:Hc.
    + exists (String c s). split; [done|]. cbn [all_in]. by rewrite Hc, Hall.
    + by exists s.
  - exists suffix. split; [|done]. rewrite str_app_cons. by rewrite <- Heq.
Qed.

Lemma rstrip_last chars s c :
  last_char (Str.rstrip chars s) = Some c → Str.mem c chars = false.
Proof.
  induction s as [|x s IH]; [done|].
  cbn [Str.rstrip]. destruct (Str.rstrip chars s) as [|c' r] eqn:Er.
  - destruct (Str.mem x chars) eqn:Hx; [done|]. cbn. by intros [= <-].
  - cbn [last_char]. exact IH.
Qed.

Lemma rstrip_all_in chars s : all_in chars s = true → Str.rstrip chars s = "".
Proof.
  induction s as [|c s IH]; [done|].
  cbn [all_in Str.rstrip]. intros [Hc Hs]%andb_prop. by rewrite IH, Hc.
Qed.

Lemma rstrip_keeps_base chars base ext c :
  last_char base = Some c → Str.mem c chars = false → all_in chars ext = true →
  Str.rstrip chars (base +:+ ext) = base.
Proof.
  intros Hlast Hc Hext. induction base as [|x base IH]; [done|].
  rewrite str_app_cons. cbn [Str.rstrip]. destruct base as [|y base].
  - cbn in Hlast. simplify_eq. change ("" +:+ ext) with ext.
    by rewrite (rstrip_all_in _ _ Hext), Hc.
  - by rewrite IH.
Qed.

(** X16: the path every backend derives is the annotation path without
    its longest suffix made of the characters [.], [t] and [x]: the
    annotation path is the derived path followed by such characters, and the
    derived path does not end in one of them. *)
Theorem artifact_stem_is_longest_strip (config : Config) :
  (∃ suffix, cfg_annotation_file config = artifact_stem config +:+ suffix ∧
             all_in ".txt" suffix = true) ∧
  (∀ c, last_char (artifact_stem config) = Some c → Str.mem c ".txt" = false).
Proof.
  split.
  - apply rstrip_split.
  - intros c. apply rstrip_last.
Qed.

(** X17: when the annotation path is [base.txt] and [base] ends in a
    character other than [.], [t] and [x], the derived path is [base] and the
    container file is [base.h5]. *)
Theorem artifact_stem_strips_extension (config : Config) (base : string) (c : ascii) :
  cfg_annotation_file config = base +:+ ".txt" →
  last_char base = Some c → Str.mem c ".txt" = false →
  artifact_stem config = base ∧ hdf5_filename config = base +:+ ".h5".
Proof.
  intros Hfile Hlast Hc.
  assert (artifact_stem config = base) as Hstem.
  { unfold artifact_stem. rewrite Hfile. by eapply rstrip_keeps_base. }
  split; [done|]. unfold hdf5_filename. by rewrite Hstem.
Qed.

Lemma artifact_stem_strips_extension_witness :
  let config := mkConfig "data/train.txt" 1 [1; 1] 1 in
  artifact_stem config = "data/train" ∧ hdf5_filename config = "data/train" +:+ ".h5".
Proof.
  cbv zeta.
  apply (artifact_stem_strips_extension (mkConfig "data/train.txt" 1 [1; 1] 1)
           "data/train" "n"); reflexivity.
Defined.

(** X18: an annotation path made only of the characters [.], [t] and
    [x] (as [t.txt]) leaves an empty derived path.  The constructors of the
    mapped and flat-file backends then raise [FileNotFoundError] at their
    first [os.makedirs] and create nothing; the container backend opens the
    file [.h5]. *)
Theorem empty_stem_breaks_directory_backends (b : backend) (config : Config)
    (f : gmap string node) :
  all_in ".txt" (cfg_annotation_file config) = true →
  artifact_stem config = "" ∧
  match b with
  | Container => hdf5_filename config = ".h5"
  | _ => (construct b config (fresh f)).1 = inl FileNotFoundError ∧
         fs (construct b config (fresh f)).2 = f
  end.
Proof.
  intros Hall.
  assert (artifact_stem config = "") as Hstem by by apply rstrip_all_in.
  split; [done|]. destruct b; cbn [construct].
  - unfold hdf5_filename. by rewrite Hstem.
  - assert (post (storage_memmap.__init__ config) (fresh f)
              (λ r w', r = inl FileNotFoundError ∧ fs w' = f)) as Hpost; [|exact Hpost].
    unfold storage_memmap.__init__, storage_class.__init__, fresh. eval_names.
    rewrite Hstem. mrun. cbn [self fs]. by mcall reflexivity.
  - assert (post (storage_raw.__init__ config) (fresh f)
              (λ r w', r = inl FileNotFoundError ∧ fs w' = f)) as Hpost; [|exact Hpost].
    unfold storage_raw.__init__, storage_class.__init__, fresh. eval_names.
    rewrite Hstem. mrun. cbn [self fs]. by mcall reflexivity.
Qed.

Lemma empty_stem_breaks_directory_backends_witness :
  let config := mkConfig "t.txt" 1 [1; 1] 1 in
  artifact_stem config = "" ∧
  (construct FlatFile config (fresh ∅)).1 = inl FileNotFoundError ∧
  fs (construct FlatFile config (fresh ∅)).2 = ∅.
Proof.
  cbv zeta.
  apply (empty_stem_breaks_directory_backends FlatFile (mkConfig "t.txt" 1 [1; 1] 1) ∅).
  reflexivity.
Defined.

(** * Indices outside [0, N) in the array backends (lines 81-84, 131-134) *)

Lemma Np_getitem_wrap a (i : nat) r :
  rows a !! i = Some r →
  Np.getitem a (Z.of_nat i - Z.of_nat (length (rows a))) = inr (mkRow (inner a) r).
Proof.
  intros Hr. unfold Np.getitem. apply lookup_lt_Some in Hr as Hlt.
  rewrite (proj2 (Z.ltb_lt _ _)) by lia.
  replace (Z.of_nat i - Z.of_nat (length (rows a)) + Z.of_nat (length (rows a)))%Z
    with (Z.of_nat i) by lia.
  rewrite (proj2 (Z.leb_le _ _)) by lia.
  rewrite (proj2 (Z.ltb_lt _ _)) by lia. cbn [andb].
  by rewrite Nat2Z.id, Hr.
Qed.

Lemma Np_getitem_outside a (idx : Z) :
  (Z.of_nat (length (rows a)) ≤ idx ∨ idx < - Z.of_nat (length (rows a)))%Z →
  Np.getitem a idx = inl IndexError.
Proof.
  intros Hi. unfold Np.getitem. destruct (Z.ltb_spec idx 0).
  - rewrite (proj2 (Z.leb_gt _ _)) by lia. done.
  - rewrite (proj2 (Z.leb_le _ _)) by lia.
    rewrite (proj2 (Z.ltb_ge _ _)) by lia. done.
Qed.

(** The two arrays a locked array backend reads, named by the file
    system. *)
Definition stored_arrays (b : backend) (config : Config) (f : gmap string node)
  : option (ndarray * ndarray) :=
  match b with
  | Container =>
      match f !! hdf5_filename config with
      | Some (FileH5 ds) => a ← ds !! "input"; t ← ds !! "target"; Some (a, t)
      | _ => None
      end
  | MappedArray =>
      match f !! input_npy config, f !! target_npy config with
      | Some (FileBin bi), Some (FileBin bt) =>
          Some (Memmap.view (storage_memmap.input_shape config) bi,
                Memmap.view (storage_memmap.target_shape config) bt)
      | _, _ => None
      end
  | FlatFile => None
  end.

(** [Image.fromarray(a[idx]), Image.fromarray(t[idx])] *)
Definition read_pair (a t : ndarray) (idx : Z) : result (Image * Image) :=
  match Np.getitem a idx with
  | inl e => inl e
  | inr r =>
      match Pil.fromarray r with
      | inl e => inl e
      | inr input =>
          match Np.getitem t idx with
          | inl e => inl e
          | inr r' =>
              match Pil.fromarray r' with
              | inl e => inl e
              | inr target => inr (input, target)
              end
          end
      end
  end.

Lemma stored_arrays_present b config w :
  b ≠ FlatFile → ok b config w → is_Some (stored_arrays b config (fs w)).
Proof.
  intros Hb (_ & _ & Hok). destruct b; [| |done]; cbn [stored_arrays].
  - destruct Hok as (_ & ds & -> & [a ->] & [t ->]). by eexists.
  - destruct Hok as (_ & _ & _ & (bi & -> & _) & (bt & -> & _) & _). by eexists.
Qed.

Lemma H5_getitem_eq name md key ds a idx f :
  md ≠ H5Closed → f !! name = Some (FileH5 ds) → ds !! key = Some a →
  H5.getitem (VH5File name md) key idx f = (Np.getitem a idx, f).
Proof.
  intros Hmd Hf Hk. unfold H5.getitem, H5.dataset, H5.arrays_of.
  destruct md; [| |done]; by rewrite Hf, Hk.
Qed.

Lemma Memmap_getitem_eq p wr shp bytes idx f :
  f !! p = Some (FileBin bytes) →
  Memmap.getitem (VMemmap p wr shp) idx f = (Np.getitem (Memmap.view shp bytes) idx, f).
Proof. intros Hf. unfold Memmap.getitem, Memmap.mapped. by rewrite Hf. Qed.

(** After [lock], [get] of an array backend reads the two stored arrays
    at the same index. *)
Lemma array_get_after_lock b config w a t idx :
  ok b config w → stored_arrays b config (fs w) = Some (a, t) →
  ∃ w2, lock b w = (inr tt, w2) ∧ fs w2 = fs w ∧
        get b idx w2 = (read_pair a t idx, w2).
Proof.
  intros (Hc & [p Hp] & Hb) Harr.
  assert (post (lock b) w (λ r w2, r = inr tt ∧ fs w2 = fs w ∧
            get b idx w2 = (read_pair a t idx, w2))) as Hpost.
  2:{ unfold post in Hpost. destruct (lock b w) as [r w2]. cbn in Hpost.
      destruct Hpost as (-> & ? & ?). eauto. }
  destruct b; cbn [lock get stored_arrays] in *; [| |done].
  - destruct Hb as ((md & Hmd & Hd) & (ds & Hf & [a' Ha] & [t' Ht])).
    rewrite Hf, Ha, Ht in Harr. cbn in Harr. simplify_eq.
    unfold storage_hdf5.lock. mrun.
    mcall (unfold H5.File; rewrite Hf; reflexivity).
    mrun. cbn [self fs]. split; [done|]. split; [done|].
    apply post_eq. unfold storage_hdf5.__getitem__, read_pair. mgo. cbn [truthy negb].
    mgo. mcall (by eapply H5_getitem_eq).
    destruct (Np.getitem a idx) as [e|r]; [done|]. mgo.
    destruct (Pil.fromarray r) as [e|input]; [done|]. mgo.
    mcall (by eapply H5_getitem_eq).
    destruct (Np.getitem t idx) as [e|r']; [done|]. mgo.
    destruct (Pil.fromarray r') as [e|target]; [done|]. mgo. done.
  - destruct Hb as (Hip & Htp & (wr & Hi & Ht) & Hbi & Hbt & Hn1 & Hn2).
    assert (mappable (input_npy config) (storage_memmap.input_shape config) (fs w)) as Hmi.
    { destruct Hbi as (bytes & ? & Hlen). exists bytes. split; [done|]. lia. }
    assert (mappable (target_npy config) (storage_memmap.target_shape config) (fs w)) as Hmt.
    { destruct Hbt as (bytes & ? & Hlen). exists bytes. split; [done|]. lia. }
    destruct Hbi as (bi & Hfi & _). destruct Hbt as (bt & Hft & _).
    rewrite Hfi, Hft in Harr. simplify_eq.
    unfold storage_memmap.lock. mrun.
    mcall (by apply open_r_mappable). mrun.
    mcall (by apply open_r_mappable). mrun.
    cbn [self fs]. split; [done|]. split; [done|].
    apply post_eq. unfold storage_memmap.__getitem__, read_pair. mgo. cbn [truthy negb].
    mgo. mcall (by eapply Memmap_getitem_eq).
    destruct (Np.getitem _ idx) as [e|r]; [done|]. mgo.
    destruct (Pil.fromarray r) as [e|input]; [done|]. mgo.
    mcall (by eapply Memmap_getitem_eq).
    destruct (Np.getitem _ idx) as [e|r']; [done|]. mgo.
    destruct (Pil.fromarray r') as [e|target]; [done|]. mgo. done.
Qed.

Lemma stored_arrays_length b config f a t :
  shaped b config f → stored_arrays b config f = Some (a, t) →
  length (rows a) = cfg_dataset_size config ∧ length (rows t) = cfg_dataset_size config.
Proof.
  intros Hsh Harr. destruct b; cbn [stored_arrays] in Harr; [| |done].
  - destruct Hsh as (ds & a' & t' & Hf & Ha & Ht & Hla & _ & Hlt & _).
    rewrite Hf, Ha, Ht in Harr. cbn in Harr. by simplify_eq.
  - repeat case_match; simplify_eq. by rewrite !view_rows_length.
Qed.

Lemma read_pair_wrap a t (j : nat) :
  length (rows a) = length (rows t) → (1 ≤ j ≤ length (rows a))%nat →
  read_pair a t (- Z.of_nat j) = read_pair a t (Z.of_nat (length (rows a) - j)).
Proof.
  intros Hlen Hj. unfold read_pair.
  destruct (lookup_lt_is_Some_2 (rows a) (length (rows a) - j)) as [ra Hra]; [lia|].
  destruct (lookup_lt_is_Some_2 (rows t) (length (rows a) - j)) as [rt Hrt]; [lia|].
  assert (Np.getitem a (- Z.of_nat j) = inr (mkRow (inner a) ra)) as ->.
  { replace (- Z.of_nat j)%Z
      with (Z.of_nat (length (rows a) - j) - Z.of_nat (length (rows a)))%Z by lia.
    by apply Np_getitem_wrap. }
  assert (Np.getitem t (- Z.of_nat j) = inr (mkRow (inner t) rt)) as ->.
  { replace (- Z.of_nat j)%Z
      with (Z.of_nat (length (rows a) - j) - Z.of_nat (length (rows t)))%Z by lia.
    by apply Np_getitem_wrap. }
  by rewrite (Np_getitem_nat a _ ra Hra), (Np_getitem_nat t _ rt Hrt).
Qed.

(** X19: indices outside [[0, N)] in the container and mapped backends.
    On an instance constructed over a fresh location, after any calls and a
    [lock], [get(-j)] for [1 <= j <= N] is [get(N - j)], the sample counted
    from the end, and [get(idx)] raises [IndexError] for [idx >= N] and for
    [idx < -N]. *)
Theorem array_get_wraps_negative_index (jpeg : Image → Image) (b : backend)
    (config : Config) (f : gmap string node) (w0 : world) (cs : list call) :
  b ≠ FlatFile →
  fresh_artifact b config f →
  construct b config (fresh f) = (inr tt, w0) →
  let N := cfg_dataset_size config in
  ∃ w2, lock b (history jpeg b cs w0) = (inr tt, w2) ∧
    (∀ j : nat, (1 ≤ j ≤ N)%nat →
       get b (- Z.of_nat j) w2 = get b (Z.of_nat (N - j)) w2) ∧
    (∀ idx : Z, (Z.of_nat N ≤ idx ∨ idx < - Z.of_nat N)%Z →
       get b idx w2 = (inl IndexError, w2)).
Proof.
  intros Hb Hfresh Hc N.
  pose proof (construct_shaped b config f w0 Hfresh Hc) as Hsh.
  apply construct_ok in Hc as [Hok _].
  set (w := history jpeg b cs w0).
  assert (ok b config w) as Hokw by by apply history_keeps_ok.
  assert (shaped b config (fs w)) as Hshw by by apply history_keeps_shaped.
  destruct (stored_arrays_present b config w Hb Hokw) as [[a t] Harr].
  destruct (stored_arrays_length b config (fs w) a t Hshw Harr) as [Hla Hlt].
  destruct (array_get_after_lock b config w a t 0 Hokw Harr) as (w2 & Hlock & _ & _).
  exists w2. split; [done|].
  assert (∀ idx, get b idx w2 = (read_pair a t idx, w2)) as Hget.
  { intros idx.
    destruct (array_get_after_lock b config w a t idx Hokw Harr) as (w2' & Hlock' & _ & Hg).
    rewrite Hlock in Hlock'. by simplify_eq. }
  split.
  - intros j Hj. rewrite !Hget. f_equal. subst N. rewrite <- Hla.
    apply read_pair_wrap; lia.
  - intros idx Hidx. rewrite Hget. f_equal. unfold read_pair.
    rewrite Np_getitem_outside; [done|]. rewrite Hla. exact Hidx.
Qed.

Lemma array_get_wraps_negative_index_witness :
  let config := mkConfig "data/train.txt" 2 [1; 1] 2 in
  let ic := mkArray [1; 1; 3] [["001"; "002"; "003"]; ["004"; "005"; "006"]]%byte in
  let tc := mkArray [1; 1] [["007"]; ["008"]]%byte in
  let w0 := (construct Container config (fresh ∅)).2 in
  ∃ w2, lock Container (history id Container [CallAppend ic tc] w0) = (inr tt, w2) ∧
    (∀ j : nat, (1 ≤ j ≤ 2)%nat →
       get Container (- Z.of_nat j) w2 = get Container (Z.of_nat (2 - j)) w2) ∧
    (∀ idx : Z, (Z.of_nat 2 ≤ idx ∨ idx < - Z.of_nat 2)%Z →
       get Container idx w2 = (inl IndexError, w2)).
Proof.
  cbv zeta.
  apply (array_get_wraps_negative_index id Container
           (mkConfig "data/train.txt" 2 [1; 1] 2) ∅ _ [CallAppend _ _]).
  - done.
  - reflexivity.
  - vm_compute. reflexivity.
Defined.

(** * Indices outside [0, N) in the flat-file backend (lines 157-175) *)

Lemma for_each_post_in {A} (xs : list A) (body : A → M unit) (I : world → Prop) w :
  I w → (∀ x w, x ∈ xs → I w → post (body x) w (λ _ w', I w')) →
  post (storage_raw.for_each xs body) w (λ _ w', I w').
Proof.
  intros Hw Hbody. revert w Hw. induction xs as [|x xs IH]; intros w Hw; simpl.
  - by apply post_ret.
  - apply post_bind. eapply post_mono; [apply Hbody; [by left|done]|].
    intros [e|[]] w' Hw'; [done|]. apply IH; [|done].
    intros y w1 Hy. apply Hbody. by right.
Qed.

Lemma save_frame jpeg fmt im path f res f' :
  ImageFile.save jpeg fmt im path f = (res, f') → ∀ p, p ≠ path → f' !! p = f !! p.
Proof.
  unfold ImageFile.save. intros H p Hp.
  repeat case_match; simplify_eq; try done; by rewrite lookup_insert_ne.
Qed.

(** A path that is not the file of a sample below [N]. *)
Definition no_sample_below (config : Config) (path : string) : Prop :=
  ∀ i : nat, (i < cfg_dataset_size config)%nat →
    path ≠ input_file (input_dir config) (Z.of_nat i) ∧
    path ≠ target_file (target_dir config) (Z.of_nat i).

Lemma save_pair_frame jpeg config ic tc l (i : nat) w :
  ok FlatFile config w → (i < cfg_dataset_size config)%nat →
  post (storage_raw.save_pair jpeg ic tc l (Z.of_nat i)) w (λ _ w',
    self w' = self w ∧
    ∀ path, no_sample_below config path → fs w' !! path = fs w !! path).
Proof.
  intros (Hc & _ & Hip & Htp & Hii & Hit) Hi.
  unfold storage_raw.save_pair, storage_raw.call.
  mauto; cbn [self fs]; try done; simplify_eq.
  all: repeat match goal with
         | E : ImageFile.save _ _ _ _ _ = _ |- _ =>
             let F := fresh "F" in
             pose proof (save_frame _ _ _ _ _ _ _ E) as F; clear E
         end.
  all: split; [done|]; intros path Hpath; destruct (Hpath i Hi) as [Hp1 Hp2].
  all: fold (input_file (input_dir config) (Z.of_nat i)) in *.
  all: fold (target_file (target_dir config) (Z.of_nat i)) in *.
  all: repeat match goal with F : ∀ p, p ≠ _ → _ !! p = _ !! p |- _ =>
         rewrite F by done; clear F end.
  all: done.
Qed.

Lemma raw_append_frame jpeg config ic tc w p :
  ok FlatFile config w → self w !! "pos" = Some (VInt p) → (0 ≤ p)%Z →
  post (storage_raw.append jpeg ic tc) w (λ _ w',
    ∀ path, no_sample_below config path → fs w' !! path = fs w !! path).
Proof.
  intros Hok Hp Hpos. pose proof Hok as (Hc & _ & Hip & Htp & Hii & Hit).
  unfold storage_raw.append. mgo.
  eapply post_mono.
  { apply (for_each_post_in _ _ (λ w', self w' = self w ∧
             ∀ path, no_sample_below config path → fs w' !! path = fs w !! path));
      [done|].
    intros x w1 Hx [Hs1 Hf1].
    apply elem_of_seqZ in Hx.
    replace x with (Z.of_nat (Z.to_nat x)) by nia.
    eapply post_mono.
    { apply (save_pair_frame jpeg config); [|nia].
      destruct Hok as (?&?&?&?&?&?). unfold ok. rewrite !Hs1. split_and!; done. }
    intros r w2 [Hs2 Hf2]. cbn beta. split; [congruence|].
    intros path Hpath. rewrite Hf2, Hf1 by done. done. }
  intros [e|[]] w' [Hs Hf]; cbn beta iota; [done|].
  mauto; cbn [self fs]; done.
Qed.

Lemma raw_perform_frame jpeg config c w p :
  ok FlatFile config w → self w !! "pos" = Some (VInt p) → (0 ≤ p)%Z →
  (∃ p', self (perform jpeg FlatFile c w) !! "pos" = Some (VInt p') ∧ (0 ≤ p')%Z) ∧
  ∀ path, no_sample_below config path →
    fs (perform jpeg FlatFile c w) !! path = fs w !! path.
Proof.
  intros Hok Hp Hpos. destruct c; cbn [perform].
  - rewrite (size_keeps_world FlatFile w). eauto.
  - split.
    + pose proof (append_counts jpeg FlatFile input_chunk target_chunk w p Hp) as H.
      unfold post in H. eexists. split; [exact H|]. case_match; lia.
    + apply (raw_append_frame jpeg config input_chunk target_chunk w p Hok Hp Hpos).
  - destruct (lock_ok FlatFile config w Hok) as (w' & Hl & _ & Hfs & Hpp).
    rewrite Hl. cbn [snd]. rewrite Hpp, Hfs. eauto.
  - rewrite (get_keeps_world FlatFile idx w). eauto.
Qed.

Lemma raw_history_frame jpeg config cs w p :
  ok FlatFile config w → self w !! "pos" = Some (VInt p) → (0 ≤ p)%Z →
  ∀ path, no_sample_below config path →
    fs (history jpeg FlatFile cs w) !! path = fs w !! path.
Proof.
  revert w p. induction cs as [|c cs IH]; intros w p Hok Hp Hpos path Hpath; [done|].
  rewrite history_cons.
  destruct (raw_perform_frame jpeg config c w p Hok Hp Hpos) as [(p' & Hp' & Hpos') Hfr].
  rewrite (IH _ p') by (done || by apply perform_keeps_ok). by apply Hfr.
Qed.

Lemma raw_init_frame config f w0 path :
  storage_raw.__init__ config (fresh f) = (inr tt, w0) →
  path ≠ artifact_stem config → path ≠ input_dir config → path ≠ target_dir config →
  fs w0 !! path = f !! path.
Proof.
  intros Hrun H1 H2 H3. revert Hrun.
  apply (post_success _ _ (λ w', fs w' !! path = f !! path)).
  unfold storage_raw.__init__, storage_class.__init__, fresh. eval_names.
  fold (input_dir config) (target_dir config).
  mauto; cbn [self fs]; try done.
  pose proof (makedirs_frame _ _ _ _ _ E) as F.
  pose proof (makedirs_frame _ _ _ _ _ E0) as F0.
  pose proof (makedirs_frame _ _ _ _ _ E1) as F1.
  by rewrite F1, F0, F.
Qed.

Lemma raw_get_missing config w idx :
  ok FlatFile config w → self w !! lock_key FlatFile = Some (VBool true) →
  fs w !! input_file (input_dir config) idx = None →
  get FlatFile idx w = (inl FileNotFoundError, w).
Proof.
  intros (Hc & _ & Hip & Htp & Hii & Hit) Hflag Hnone.
  apply post_eq. cbn [get]. unfold storage_raw.__getitem__. eval_lock_key. mgo.
  cbn [truthy negb]. mgo. unfold storage_raw.call. mgo.
  fold (input_file (input_dir config) idx).
  mcall (unfold ImageFile.open; rewrite Hnone; reflexivity). by destruct w.
Qed.

(** X20: indices outside [[0, N)] in the flat-file backend.  The calls
    of [append] only write files of samples below [N].  So after any calls
    and a [lock], [get(idx)] for [idx < 0] or [idx >= N] raises
    [FileNotFoundError], unless a file of that name was in the directory
    before: a negative index does not count from the end as it does in the
    other two backends. *)
Theorem raw_get_outside_range_finds_no_file (jpeg : Image → Image) (config : Config)
    (f : gmap string node) (w0 : world) (cs : list call) (idx : Z) :
  construct FlatFile config (fresh f) = (inr tt, w0) →
  (idx < 0 ∨ Z.of_nat (cfg_dataset_size config) ≤ idx)%Z →
  f !! input_file (input_dir config) idx = None →
  ∃ w2, lock FlatFile (history jpeg FlatFile cs w0) = (inr tt, w2) ∧
        get FlatFile idx w2 = (inl FileNotFoundError, w2).
Proof.
  intros Hc Hidx Hnone. cbn [construct] in Hc.
  set (path := input_file (input_dir config) idx) in *.
  assert (fs w0 !! path = None) as Hnone0.
  { destruct (sample_file_not_artifact_dir config idx (artifact_stem config))
      as [? _]; [by left|].
    destruct (sample_file_not_artifact_dir config idx (input_dir config))
      as [? _]; [by right; left|].
    destruct (sample_file_not_artifact_dir config idx (target_dir config))
      as [? _]; [by right; right|].
    by rewrite (raw_init_frame config f w0 path Hc). }
  pose proof (construct_present FlatFile config f w0 Hc) as (_ & _ & Hp).
  apply (construct_ok FlatFile) in Hc as [Hok _].
  set (w := history jpeg FlatFile cs w0).
  assert (ok FlatFile config w) as Hokw by by apply history_keeps_ok.
  destruct (lock_ok FlatFile config w Hokw) as (w2 & Hlock & Hok2 & Hfs & _).
  exists w2. split; [done|].
  apply (raw_get_missing config); [done| |].
  - pose proof (lock_sets_flag FlatFile w) as Hflag. unfold post in Hflag.
    by rewrite Hlock in Hflag.
  - rewrite Hfs. unfold w.
    rewrite (raw_history_frame jpeg config cs w0 0 Hok Hp); [done|lia|].
    intros i Hi. split.
    + intros Heq. apply input_file_inj in Heq. lia.
    + apply input_target_distinct.
Qed.

Lemma raw_get_outside_range_finds_no_file_witness :
  let config := mkConfig "data/train.txt" 1 [1; 1] 1 in
  let ic := mkArray [1; 1; 3] [["001"; "002"; "003"]%byte] in
  let tc := mkArray [1; 1] [["009"%byte]] in
  let w0 := (construct FlatFile config (fresh ∅)).2 in
  ∃ w2, lock FlatFile (history id FlatFile [CallAppend ic tc] w0) = (inr tt, w2) ∧
        get FlatFile (-1) w2 = (inl FileNotFoundError, w2).
Proof.
  cbv zeta.
  apply (raw_get_outside_range_finds_no_file id (mkConfig "data/train.txt" 1 [1; 1] 1) ∅
           _ [CallAppend _ _] (-1)).
  - vm_compute. reflexivity.
  - left. lia.
  - reflexivity.
Defined.

(** * The entries of the two image directories (lines 151-155) *)





















Lemma write_chunks_untouched jpeg b config H W chunks :
  cfg_target_shape config = [H; W] →
  ∀ (k : nat) w w',
    ok b config w → write_mode b w → shaped b config (fs w) →
    self w !! "pos" = Some (VInt (Z.of_nat k)) →
    (∀ j c, chunks !! j = Some c →
       (left_index config (k + j) ≤ cfg_dataset_size config)%nat ∧
       chunk_ok H W (right_index config (k + j) - left_index config (k + j)) c.1 c.2) →
    write_chunks jpeg b chunks w = (inr tt, w') →
    ∀ i, (left_index config (k + length chunks) ≤ i)%nat →
      input_cell b config (fs w') i = input_cell b config (fs w) i ∧
      target_cell b config (fs w') i = target_cell b config (fs w) i.
Proof.
  intros Hshape. induction chunks as [|c rest IH];
    intros k w w' Hok Hwm Hsh Hp Hchunks Hrun i Hi.
  { cbn [write_chunks] in Hrun. unfold ret in Hrun. by simplify_eq. }
  destruct (Hchunks 0 c eq_refl) as [Hl Hck]. rewrite Nat.add_0_r in Hl, Hck.
  destruct (append_step jpeg b config H W w k c.1 c.2 Hshape Hok Hwm Hsh Hp Hl Hck)
    as (w1 & Hrun1 & Hself & Hsh1 & Hcells).
  pose proof (append_keeps_ok jpeg b config c.1 c.2 w Hok) as Hok1.
  pose proof (perform_keeps_write_mode jpeg b (CallAppend c.1 c.2) w eq_refl Hwm) as Hwm1.
  cbn [perform] in Hwm1. rewrite Hrun1 in Hok1, Hwm1. cbn [snd] in Hok1, Hwm1.
  cbn [write_chunks] in Hrun. unfold bind in Hrun. rewrite Hrun1 in Hrun.
  cbn [length] in Hi. replace (k + S (length rest)) with (S k + length rest) in Hi by lia.
  destruct (IH (S k) w1 w' Hok1 Hwm1 Hsh1) with (i := i) as [-> ->]; try done.
  { by rewrite Hself, lookup_insert_eq. }
  { intros j c' Hj. specialize (Hchunks (S j) c' Hj).
    by replace (S k + j) with (k + S j) by lia. }
  destruct (Hcells i) as [-> ->].
  assert (left_index config (S k) ≤ left_index config (S k + length rest))%nat
    by (unfold left_index; nia).
  destruct (left_right_index config k) as [Hrl _].
  by rewrite !decide_False by lia.
Qed.








(** * Samples that were not written yet (array backends) *)

Lemma memmap_init_files config f w0 :
  storage_memmap.__init__ config (fresh f) = (inr tt, w0) →
  fs w0 !! input_npy config =
    Some (FileBin (replicate (Memmap.nbytes (storage_memmap.input_shape config)) "000"%byte)) ∧
  fs w0 !! target_npy config =
    Some (FileBin (replicate (Memmap.nbytes (storage_memmap.target_shape config)) "000"%byte)).
Proof.
  apply (post_success _ _ (λ w',
    fs w' !! input_npy config = Some (FileBin _) ∧
    fs w' !! target_npy config = Some (FileBin _))).
  unfold storage_memmap.__init__, storage_class.__init__, fresh. eval_names.
  mauto; cbn [self fs]; try done.
  apply Memmap_create_outcome in E0 as (-> & Hn1 & ->).
  apply Memmap_create_outcome in E1 as (-> & Hn2 & ->).
  pose proof (mapped_files_distinct (artifact_stem config)) as Hne.
  fold (input_npy config) (target_npy config) in *.
  rewrite lookup_insert_ne, !lookup_insert_eq by done. done.
Qed.

Lemma construct_zero_cells b config f w0 (i : nat) :
  b ≠ FlatFile → fresh_artifact b config f →
  construct b config (fresh f) = (inr tt, w0) →
  (i < cfg_dataset_size config)%nat →
  input_cell b config (fs w0) i =
    Some (CellRow (replicate (Np.row_size (cfg_target_shape config ++ [3])) "000"%byte)) ∧
  target_cell b config (fs w0) i =
    Some (CellRow (replicate (Np.row_size (cfg_target_shape config)) "000"%byte)).
Proof.
  intros Hb Hfresh Hc Hi. destruct b; [| |done]; cbn [construct fresh_artifact] in *.
  - rewrite (hdf5_init_run config f ∅) in Hc by eauto. simplify_eq.
    cbn [input_cell target_cell fs]. rewrite lookup_insert_eq.
    unfold ensure_dataset. rewrite lookup_empty.
    rewrite (lookup_insert_ne _ "input" "target") by done. rewrite lookup_empty.
    rewrite (lookup_insert_ne _ "target" "input") by done. rewrite !lookup_insert_eq.
    unfold storage_hdf5.input_shape, storage_hdf5.target_shape, Np.zeros.
    cbn [hd tl rows mbind option_bind]. by rewrite !lookup_replicate_2.
  - destruct (memmap_init_files config f w0 Hc) as [Hfi Hft].
    cbn [input_cell target_cell]. rewrite Hfi, Hft.
    unfold storage_memmap.input_shape, storage_memmap.target_shape.
    rewrite !view_zeros. by rewrite !lookup_replicate_2.
Qed.

(** X22: in the container and mapped backends a sample that was not
    written yet reads as a black image and an all-zero mask, without an
    error: over a fresh location, after the first chunks were appended in
    order and [lock], [get(i)] for every [i] from [number of chunks * C] up
    to [N - 1] returns images of [H] by [W] zero pixels. *)
Theorem unwritten_samples_read_as_zeros (jpeg : Image → Image) (b : backend)
    (config : Config) (H W : nat) (f : gmap string node) (w0 : world)
    (chunks : list (ndarray * ndarray)) :
  let N := cfg_dataset_size config in
  let C := cfg_chunk_size config in
  b ≠ FlatFile →
  cfg_target_shape config = [H; W] →
  fresh_artifact b config f →
  construct b config (fresh f) = (inr tt, w0) →
  (∀ j, (j < length chunks)%nat → (j * C ≤ N)%nat) →
  (∀ j c, chunks !! j = Some c →
     chunk_ok H W (right_index config j - left_index config j) c.1 c.2) →
  ∃ w1 w2,
    write_chunks jpeg b chunks w0 = (inr tt, w1) ∧
    lock b w1 = (inr tt, w2) ∧
    ∀ i : nat, (length chunks * C ≤ i < N)%nat →
      get b (Z.of_nat i) w2 =
        (inr (mkImage RGB H W (replicate (H * W * 3) "000"%byte),
              mkImage L H W (replicate (H * W) "000"%byte)), w2).
Proof.
  intros N C Hb Hshape Hfresh Hc Hstart Hchunks.
  pose proof (construct_shaped b config f w0 Hfresh Hc) as Hsh.
  pose proof (construct_present b config f w0 Hc) as (_ & _ & Hp).
  pose proof (λ i, construct_zero_cells b config f w0 i Hb Hfresh Hc) as Hzero.
  apply construct_ok in Hc as [Hok Hwm].
  assert (∀ j c, chunks !! j = Some c →
            (left_index config (0 + j) ≤ cfg_dataset_size config)%nat ∧
            chunk_ok H W (right_index config (0 + j) - left_index config (0 + j)) c.1 c.2)
    as Hchunks0.
  { intros j c Hj. cbn [Nat.add]. split; [|by apply Hchunks].
    apply lookup_lt_Some in Hj. by apply Hstart. }
  destruct (write_chunks_run jpeg b config H W chunks Hshape 0 w0 Hok Hwm Hsh Hp Hchunks0)
    as (w1 & Hrun & Hok1 & Hsh1 & _).
  pose proof (write_chunks_untouched jpeg b config H W chunks Hshape 0 w0 w1
                Hok Hwm Hsh Hp Hchunks0 Hrun) as Hun.
  destruct (lock_ok b config w1 Hok1) as (w2 & Hlock & _).
  exists w1, w2. split; [done|]. split; [done|].
  intros i Hi.
  destruct (Hun i) as [Hci Hct].
  { cbn [Nat.add]. unfold left_index. fold C. lia. }
  destruct (Hzero i) as [Hzi Hzt]; [lia|].
  rewrite Hshape in Hzi, Hzt. cbn [app] in Hzi. rewrite row_size_rgb in Hzi.
  rewrite row_size_mask in Hzt. rewrite <- Hci in Hzi. rewrite <- Hct in Hzt.
  destruct (get_after_lock jpeg b config H W w1 i
              (replicate (H * W * 3) "000"%byte) (replicate (H * W) "000"%byte))
    as (w2' & Hlock' & _ & Hget); try done.
  { rewrite Hzi. by destruct b. }
  { rewrite Hzt. by destruct b. }
  { by rewrite length_replicate. }
  { by rewrite length_replicate. }
  rewrite Hlock in Hlock'. simplify_eq. rewrite Hget. by destruct b.
Qed.

Lemma unwritten_samples_read_as_zeros_witness :
  let config := mkConfig "data/train.txt" 2 [1; 1] 1 in
  let chunks :=
    [(mkArray [1; 1; 3] [["001"; "002"; "003"]]%byte, mkArray [1; 1] [["011"]]%byte)] in
  let w0 := (construct Container config (fresh ∅)).2 in
  ∃ w1 w2,
    write_chunks id Container chunks w0 = (inr tt, w1) ∧
    lock Container w1 = (inr tt, w2) ∧
    ∀ i : nat, (length chunks * 1 ≤ i < 2)%nat →
      get Container (Z.of_nat i) w2 =
        (inr (mkImage RGB 1 1 (replicate (1 * 1 * 3) "000"%byte),
              mkImage L 1 1 (replicate (1 * 1) "000"%byte)), w2).
Proof.
  cbv zeta.
  apply (unwritten_samples_read_as_zeros id Container
           (mkConfig "data/train.txt" 2 [1; 1] 1) 1 1 ∅).
  - done.
  - reflexivity.
  - reflexivity.
  - vm_compute. reflexivity.
  - intros j Hj. cbn in *. lia.
  - intros [|j] c Hj; cbn in Hj; simplify_eq.
    vm_compute. repeat split; try lia; repeat constructor.
Defined.

(** * A chunk of one sample in the array backends (lines 69-74, 111-116) *)

Lemma assign_rows_one dst ish r (lo hi : nat) :
  ish = inner dst → (lo ≤ hi ≤ length (rows dst))%nat →
  Np.assign_rows dst (Z.of_nat lo) (Z.of_nat hi)
                 (Np.prefix (mkArray ish [r]) (Z.of_nat hi - Z.of_nat lo)) =
    Some (splice lo hi (rows dst) (replicate (hi - lo) r)).
Proof.
  intros -> Hlo. unfold Np.assign_rows, Np.prefix, Np.broadcast_rows.
  cbn [inner rows length]. rewrite bool_decide_eq_true_2 by done.
  rewrite !clip_nonneg by lia. rewrite !Nat2Z.id.
  replace (Z.to_nat (Z.of_nat hi - Z.of_nat lo)) with (hi - lo)%nat by lia.
  rewrite !Nat.min_l by lia.
  replace (lo + (hi - lo))%nat with hi by lia.
  unfold splice. rewrite take_replicate, Nat.min_id.
  destruct (hi - lo)%nat as [|[|n]] eqn:E.
  - cbn. done.
  - cbn. done.
  - replace (Nat.min (S (S n)) 1) with 1%nat by lia. cbn [take length].
    rewrite decide_False by lia. cbn. done.
Qed.

Lemma H5_setslice_one name key (lo hi : nat) ish r f ds a :
  f !! name = Some (FileH5 ds) → ds !! key = Some a →
  ish = inner a → (lo ≤ hi ≤ length (rows a))%nat →
  H5.setslice (VH5File name H5Append) key (Z.of_nat lo) (Z.of_nat hi)
              (Np.prefix (mkArray ish [r]) (Z.of_nat hi - Z.of_nat lo)) f =
    (inr tt,
     <[name := FileH5 (<[key := mkArray (inner a)
                                 (splice lo hi (rows a) (replicate (hi - lo) r))]> ds)]> f).
Proof.
  intros Hf Hk Hin Hlo. unfold H5.setslice, H5.dataset, H5.arrays_of.
  rewrite Hf, Hk. rewrite nselect_nat by done. case_decide as Hn.
  - assert (hi = lo) as -> by lia. rewrite splice_empty.
    replace (mkArray (inner a) (rows a)) with a by by destruct a.
    rewrite (insert_id ds) by done. by rewrite insert_id.
  - by rewrite assign_rows_one.
Qed.

Lemma Memmap_setslice_one p n ish (lo hi : nat) r f bytes :
  f !! p = Some (FileBin bytes) → (lo ≤ hi ≤ n)%nat →
  Memmap.setslice (VMemmap p true (n :: ish)) (Z.of_nat lo) (Z.of_nat hi)
                  (Np.prefix (mkArray ish [r]) (Z.of_nat hi - Z.of_nat lo)) f =
    (inr tt,
     <[p := FileBin (Memmap.flatten (n :: ish)
                       (splice lo hi (rows (Memmap.view (n :: ish) bytes))
                               (replicate (hi - lo) r))
                     ++ drop (Memmap.nbytes (n :: ish)) bytes)%list]> f).
Proof.
  intros Hf Hlo. unfold Memmap.setslice, Memmap.mapped. rewrite Hf.
  rewrite assign_rows_one; [done|done|]. by rewrite view_rows_length.
Qed.

Lemma replicate_lookup_range {A} (lo hi i : nat) (x : A) :
  (lo ≤ i < hi)%nat → replicate (hi - lo) x !! (i - lo) = Some x.
Proof. intros Hi. apply lookup_replicate_2. lia. Qed.

Lemma hdf5_append_one config H W w (k : nat) img mask :
  cfg_target_shape config = [H; W] →
  ok Container config w → write_mode Container w → shaped Container config (fs w) →
  self w !! "pos" = Some (VInt (Z.of_nat k)) →
  (left_index config k ≤ cfg_dataset_size config)%nat →
  ∃ w', storage_hdf5.append (mkArray [H; W; 3] [img]) (mkArray [H; W] [mask]) w
          = (inr tt, w') ∧
    self w' = <["pos" := VInt (Z.of_nat (S k))]> (self w) ∧
    ∀ i,
      input_cell Container config (fs w') i =
        (if decide (left_index config k ≤ i < right_index config k)%nat
         then Some (CellRow img) else input_cell Container config (fs w) i) ∧
      target_cell Container config (fs w') i =
        (if decide (left_index config k ≤ i < right_index config k)%nat
         then Some (CellRow mask) else target_cell Container config (fs w) i).
Proof.
  intros Hshape (Hc & _ & (md & _ & Hd) & _) [name Hd'] Hsh Hp Hl.
  assert (md = H5Append) as -> by congruence. clear Hd'.
  destruct Hsh as (ds & a & t & Hf & Ha & Ht & Hna & Hia & Hnt & Hit).
  destruct (append_indices config k) as [El Er].
  set (lo := left_index config k) in *. set (hi := right_index config k) in *.
  assert (lo ≤ hi ≤ cfg_dataset_size config)%nat as Hlohi
    by (unfold hi, lo, right_index in *; lia).
  assert ([H; W; 3] = inner a) as Hin1 by by rewrite Hia, Hshape.
  assert ([H; W] = inner t) as Hin2 by by rewrite Hit, Hshape.
  eexists. split.
  { apply post_eq. unfold storage_hdf5.append. mgo.
    rewrite !Er, !El.
    mcall (eapply H5_setslice_one; [done|done|done|lia]). mgo.
    mcall (eapply H5_setslice_one;
           [apply lookup_insert_eq|by rewrite lookup_insert_ne|done|lia]).
    mgo. rewrite insert_insert_eq. reflexivity. }
  cbn [self fs]. split.
  { do 3 f_equal. lia. }
  intros i. cbn [input_cell target_cell].
  rewrite lookup_insert_eq, Hf.
  rewrite lookup_insert_eq, lookup_insert_ne, lookup_insert_eq by done.
  rewrite Ha, Ht. cbn [mbind option_bind rows].
  rewrite !splice_lookup by (rewrite ?length_replicate; lia).
  split; case_decide; try done; by rewrite replicate_lookup_range.
Qed.

Lemma memmap_append_one config H W w (k : nat) img mask :
  cfg_target_shape config = [H; W] →
  ok MappedArray config w → write_mode MappedArray w →
  self w !! "pos" = Some (VInt (Z.of_nat k)) →
  (left_index config k ≤ cfg_dataset_size config)%nat →
  length img = H * W * 3 → length mask = H * W →
  ∃ w', storage_memmap.append (mkArray [H; W; 3] [img]) (mkArray [H; W] [mask]) w
          = (inr tt, w') ∧
    self w' = <["pos" := VInt (Z.of_nat (S k))]> (self w) ∧
    ∀ i,
      input_cell MappedArray config (fs w') i =
        (if decide (left_index config k ≤ i < right_index config k)%nat
         then Some (CellRow img) else input_cell MappedArray config (fs w) i) ∧
      target_cell MappedArray config (fs w') i =
        (if decide (left_index config k ≤ i < right_index config k)%nat
         then Some (CellRow mask) else target_cell MappedArray config (fs w) i).
Proof.
  intros Hshape (Hc & _ & Hip & Htp & (wr & Hi & Ht) & (bi & Hfi & Hli) & (bt & Hft & Hlt) & _)
    (p1 & p2 & s1 & s2 & Hi' & Ht') Hp Hl Hlimg Hlmask.
  assert (wr = true) as -> by congruence. clear Hi' Ht'.
  destruct (append_indices config k) as [El Er].
  set (lo := left_index config k) in *. set (hi := right_index config k) in *.
  assert (lo ≤ hi ≤ cfg_dataset_size config)%nat as Hlohi
    by (unfold hi, lo, right_index in *; lia).
  pose proof (mapped_files_distinct (artifact_stem config)) as Hne.
  fold (input_npy config) (target_npy config) in Hne.
  unfold storage_memmap.input_shape, storage_memmap.target_shape in *.
  rewrite Hshape in *. cbn [app] in *.
  eexists. split.
  { apply post_eq. unfold storage_memmap.append. mgo.
    rewrite !Er, !El.
    mcall (eapply Memmap_setslice_one; [done|lia]). mgo.
    mcall (eapply Memmap_setslice_one; [by rewrite lookup_insert_ne|lia]).
    mgo. reflexivity. }
  cbn [self fs]. split.
  { do 3 f_equal. lia. }
  intros i. cbn [input_cell target_cell].
  unfold storage_memmap.input_shape, storage_memmap.target_shape.
  rewrite Hshape. cbn [app].
  rewrite lookup_insert_ne, lookup_insert_eq by done.
  rewrite lookup_insert_eq, Hfi, Hft.
  pose proof (view_rows_length (cfg_dataset_size config :: [H; W; 3]) bi) as Hvi.
  pose proof (view_rows_length (cfg_dataset_size config :: [H; W]) bt) as Hvt.
  cbn [hd] in Hvi, Hvt.
  rewrite !view_flatten.
  - rewrite !splice_lookup by (rewrite ?length_replicate; lia).
    split; case_decide; try done; by rewrite replicate_lookup_range.
  - rewrite splice_length by (rewrite ?length_replicate; lia). done.
  - apply splice_Forall; [by apply view_rows_wf|].
    apply Forall_take, Forall_replicate. by rewrite row_size_mask.
  - rewrite splice_length by (rewrite ?length_replicate; lia). done.
  - apply splice_Forall; [by apply view_rows_wf|].
    apply Forall_take, Forall_replicate. by rewrite row_size_rgb.
Qed.

(** X23: a chunk of one sample fills the whole index range in the two
    array backends.  numpy and h5py broadcast a source with one row to the
    rows of the slice, so [append], called with [pos = k] and [k * C <= N]
    on chunks that hold a single sample, returns, adds 1 to [pos] and
    stores that one sample at every index of [[left, right)]. *)
Theorem single_sample_chunk_fills_range (jpeg : Image → Image) (b : backend)
    (config : Config) (H W : nat) (f : gmap string node) (w0 : world)
    (cs : list call) (k : nat) (img mask : list byte) :
  b ≠ FlatFile →
  cfg_target_shape config = [H; W] →
  fresh_artifact b config f →
  construct b config (fresh f) = (inr tt, w0) →
  forallb (λ c, negb (is_lock c)) cs = true →
  let w := history jpeg b cs w0 in
  let left := left_index config k in
  let right := right_index config k in
  self w !! "pos" = Some (VInt (Z.of_nat k)) →
  (left ≤ cfg_dataset_size config)%nat →
  length img = H * W * 3 → length mask = H * W →
  ∃ w', append jpeg b (mkArray [H; W; 3] [img]) (mkArray [H; W] [mask]) w = (inr tt, w') ∧
    self w' !! "pos" = Some (VInt (Z.of_nat k + 1)) ∧
    ∀ i : nat,
      input_cell b config (fs w') i =
        (if decide (left ≤ i < right)%nat
         then Some (CellRow img) else input_cell b config (fs w) i) ∧
      target_cell b config (fs w') i =
        (if decide (left ≤ i < right)%nat
         then Some (CellRow mask) else target_cell b config (fs w) i).
Proof.
  intros Hb Hshape Hfresh Hc Hcs w left right Hp Hl Hlimg Hlmask.
  destruct (unlocked_history_invariants jpeg b config f w0 cs Hfresh Hc Hcs)
    as (Hok & Hwm & Hsh).
  destruct b; [| |done]; cbn [append].
  - destruct (hdf5_append_one config H W w k img mask) as (w' & Hrun & Hself & Hcells);
      try done.
    exists w'. split; [done|]. split; [|done].
    rewrite Hself, lookup_insert_eq. do 2 f_equal. lia.
  - destruct (memmap_append_one config H W w k img mask) as (w' & Hrun & Hself & Hcells);
      try done.
    exists w'. split; [done|]. split; [|done].
    rewrite Hself, lookup_insert_eq. do 2 f_equal. lia.
Qed.

Lemma single_sample_chunk_fills_range_witness :
  let config := mkConfig "data/train.txt" 3 [1; 1] 2 in
  let img := ["001"; "002"; "003"]%byte in
  let mask := ["009"%byte] in
  let w0 := (construct MappedArray config (fresh ∅)).2 in
  let w := history id MappedArray [] w0 in
  ∃ w', append id MappedArray (mkArray [1; 1; 3] [img]) (mkArray [1; 1] [mask]) w
          = (inr tt, w') ∧
    self w' !! "pos" = Some (VInt (Z.of_nat 0 + 1)) ∧
    ∀ i : nat,
      input_cell MappedArray config (fs w') i =
        (if decide (0 ≤ i < 2)%nat
         then Some (CellRow img) else input_cell MappedArray config (fs w) i) ∧
      target_cell MappedArray config (fs w') i =
        (if decide (0 ≤ i < 2)%nat
         then Some (CellRow mask) else target_cell MappedArray config (fs w) i).
Proof.
  cbv zeta.
  apply (single_sample_chunk_fills_range id MappedArray
           (mkConfig "data/train.txt" 3 [1; 1] 2) 1 1 ∅ _ [] 0).
  - done.
  - reflexivity.
  - exact I.
  - vm_compute. reflexivity.
  - reflexivity.
  - vm_compute. reflexivity.
  - vm_compute. lia.
  - reflexivity.
  - reflexivity.
Defined.

(** * A second instance over a written container (lines 50-61, 69-74) *)



